(** * City exporters: a shallow embedding of [City.h] and [City.cpp]

    The development follows the C++ sources of the procedural city
    generator: the data structures of [City.h], the helpers of the
    anonymous namespace of [City.cpp] (box extrusion, rectangle inset,
    paths, material palette and library, mesh buffers), the three
    serialisers [City::saveOBJ], [City::saveGLTF] and
    [City::saveSummary], the configuration of [Config.h] with its
    parsers, and the command line of [main.cpp] up to the call of the
    generator.

    Numeric conventions.
    - [double] is modelled by the real numbers [R]: rounding, overflow,
      infinities and NaN are outside the model, and so is the narrowing
      [static_cast<float>] applied to mesh positions and normals (it is
      the identity here).  [std::min], [std::max], [std::clamp] and
      [std::sqrt] are their real counterparts.
    - [int] fields are [Z]; [static_cast<double>] of an [int] is [IZR].
    - [std::size_t] and [std::uint32_t] are [Z] with the wrap-around
      written out ([size_t_wrap], [uint32_wrap]).
    - Streams are modelled by the records written to them: a list of
      OBJ lines for the text exporter, a list of bytes for the binary
      container.  Number formatting is not modelled: a vertex line
      carries its three coordinates, a face line its three indices. *)

From Stdlib Require Import Reals Lra Lia ZArith List.
From stdpp Require Import gmap strings list.

Local Open Scope R_scope.

(** ** Data model ([City.h]) *)

Inductive ZoneType := ZNone | Residential | Commercial | Industrial | Green.

Module Facility.
Inductive Type_ := Hospital | School.
Record t := mk { x : R; y : R; type : Type_ }.
End Facility.

Module Rect.
Record t := mk { x0 : R; y0 : R; x1 : R; y1 : R }.
Definition width (r : t) : R := x1 r - x0 r.
Definition height (r : t) : R := y1 r - y0 r.
Definition centreX (r : t) : R := (x0 r + x1 r) * 0.5.
Definition centreY (r : t) : R := (y0 r + y1 r) * 0.5.
End Rect.

Module Building.
Record t := mk {
  footprint : Rect.t;
  zone : ZoneType;
  height : Z;
  facility : bool;
  facilityType : Facility.Type_
}.
End Building.

Module Block.
Record t := mk { bounds : Rect.t }.
End Block.

Inductive RoadType := Arterial | Secondary | Local.

Module RoadSegment.
Record t := mk { x1 : R; y1 : R; x2 : R; y2 : R; type : RoadType }.
End RoadSegment.

Definition roadWidth (type : RoadType) : R :=
  match type with
  | Arterial => 1.6
  | Secondary => 1.2
  | Local => 0.8
  end.

Module City.
Record t := mk {
  size : Z;
  zones : list ZoneType;
  buildings : list Building.t;
  facilities : list Facility.t;
  roads : list RoadSegment.t;
  blocks : list Block.t
}.
End City.

(** ** Machine integers and C++ library helpers *)

Definition size_t_wrap (z : Z) : Z := (z mod 2 ^ 64)%Z.
Definition uint32_wrap (z : Z) : Z := (z mod 2 ^ 32)%Z.

(** [std::clamp(v, lo, hi)] is [(v < lo) ? lo : (hi < v) ? hi : v]; the
    standard leaves it undefined when [hi < lo], the model keeps the
    formula of the library implementations. *)
Definition clamp (v lo hi : R) : R :=
  if Rlt_dec v lo then lo else if Rlt_dec hi v then hi else v.

(** The comparison [a >= b] as the [bool] the source stores in [wide]. *)
Definition Rgeb (a b : R) : bool := if Rge_dec a b then true else false.

(** [std::numeric_limits<double>::max()]. *)
Definition DBL_MAX : R := IZR ((2 ^ 53 - 1) * 2 ^ 971).

(** ** Text records of the OBJ stream *)

Inductive ObjLine :=
| Mtllib (name : string)
| Usemtl (name : string)
| V (x y z : R)
| F (i j k : Z).

(** The output stream together with the running vertex index that
    [saveOBJ] passes by reference to every box emission. *)
Record ObjState := mkObjState { ofs : list ObjLine; vertexOffset : Z }.

(** [std::array<std::pair<double, double>, 4>]. *)
Record Base := mkBase { base0 : R * R; base1 : R * R; base2 : R * R; base3 : R * R }.

(** [v + d] on [std::size_t]. *)
Definition size_t_add (v d : Z) : Z := size_t_wrap (v + d).

Definition writePrism (st : ObjState) (base : Base) (baseZ topZ : R) : ObjState :=
  let v := vertexOffset st in
  {| ofs := ofs st ++
       [ V (fst (base0 base)) (snd (base0 base)) baseZ;
         V (fst (base1 base)) (snd (base1 base)) baseZ;
         V (fst (base2 base)) (snd (base2 base)) baseZ;
         V (fst (base3 base)) (snd (base3 base)) baseZ;
         V (fst (base0 base)) (snd (base0 base)) topZ;
         V (fst (base1 base)) (snd (base1 base)) topZ;
         V (fst (base2 base)) (snd (base2 base)) topZ;
         V (fst (base3 base)) (snd (base3 base)) topZ;
         F v (size_t_add v 1) (size_t_add v 2);
         F v (size_t_add v 2) (size_t_add v 3);
         F (size_t_add v 4) (size_t_add v 7) (size_t_add v 6);
         F (size_t_add v 4) (size_t_add v 6) (size_t_add v 5);
         F v (size_t_add v 4) (size_t_add v 5);
         F v (size_t_add v 5) (size_t_add v 1);
         F (size_t_add v 1) (size_t_add v 5) (size_t_add v 6);
         F (size_t_add v 1) (size_t_add v 6) (size_t_add v 2);
         F (size_t_add v 2) (size_t_add v 6) (size_t_add v 7);
         F (size_t_add v 2) (size_t_add v 7) (size_t_add v 3);
         F (size_t_add v 3) (size_t_add v 7) (size_t_add v 4);
         F (size_t_add v 3) (size_t_add v 4) v ];
     vertexOffset := size_t_add v 8 |}.

Definition rectBase (r : Rect.t) : Base :=
  {| base0 := (Rect.x0 r, Rect.y0 r);
     base1 := (Rect.x1 r, Rect.y0 r);
     base2 := (Rect.x1 r, Rect.y1 r);
     base3 := (Rect.x0 r, Rect.y1 r) |}.

Definition writeRectPrism (st : ObjState) (r : Rect.t) (baseZ topZ : R) : ObjState :=
  writePrism st (rectBase r) baseZ topZ.

(** ** Rectangle inset ([insetRect]) *)

Definition insetRect (r : Rect.t) (inset : R) : Rect.t :=
  let maxInset := Rmin (Rect.width r) (Rect.height r) * 0.49 in
  let applied := clamp inset 0 maxInset in
  {| Rect.x0 := Rect.x0 r + applied;
     Rect.x1 := Rect.x1 r - applied;
     Rect.y0 := Rect.y0 r + applied;
     Rect.y1 := Rect.y1 r - applied |}.

(** ** Material palette *)

Record MaterialDef := mkMaterialDef {
  name : string;
  mat_r : R; mat_g : R; mat_b : R;
  ks : R; shininess : R; metallic : R; roughness : R
}.

Definition kMaterialPalette : list MaterialDef :=
  [ mkMaterialDef "mat_default" 0.7 0.7 0.7 0.05 32.0 0.0 0.6;
    mkMaterialDef "mat_commercial" 0.6 0.65 0.72 0.5 96.0 0.05 0.35;
    mkMaterialDef "mat_residential" 0.83 0.72 0.62 0.08 48.0 0.0 0.55;
    mkMaterialDef "mat_industrial" 0.32 0.34 0.36 0.04 24.0 0.02 0.75;
    mkMaterialDef "mat_green" 0.3 0.62 0.34 0.02 12.0 0.0 0.7;
    mkMaterialDef "mat_road" 0.15 0.15 0.15 0.02 12.0 0.0 0.8 ].

Definition materialForZone (zone : ZoneType) : string :=
  match zone with
  | Commercial => "mat_commercial"
  | Residential => "mat_residential"
  | Industrial => "mat_industrial"
  | Green => "mat_green"
  | ZNone => "mat_default"
  end.

Definition kRoadThickness : R := 0.05.

(** The shift that [emitSchool] applies to keep the school inside the
    far margin: both bounds move by [hi - maxHi] when [hi > maxHi]. *)
Definition shiftInside (lo hi maxHi : R) : R * R :=
  if Rgt_dec hi maxHi then (lo - (hi - maxHi), hi - (hi - maxHi)) else (lo, hi).

(** ** [City::saveOBJ] *)

Module SaveOBJ.

Definition emitStandard (st : ObjState) (b : Building.t) : ObjState :=
  let h := Rmax 1.0 (IZR (Building.height b)) in
  writeRectPrism st (Building.footprint b) 0.0 h.

Definition emitPark (st : ObjState) (fp : Rect.t) : ObjState :=
  let margin := Rmin (Rect.width fp) (Rect.height fp) * 0.08 in
  let lawn := insetRect fp margin in
  let padHeight := 0.08 in
  let st := writeRectPrism st lawn 0.0 padHeight in
  let baseSize := Rmin (Rect.width lawn) (Rect.height lawn) * 0.2 in
  let planterSize :=
    clamp baseSize 0.2 (Rmin (Rect.width lawn) (Rect.height lawn) * 0.45) in
  let planterA :=
    Rect.mk (Rect.x0 lawn) (Rect.y0 lawn)
            (Rect.x0 lawn + planterSize) (Rect.y0 lawn + planterSize) in
  let planterB :=
    Rect.mk (Rect.x1 lawn - planterSize) (Rect.y1 lawn - planterSize)
            (Rect.x1 lawn) (Rect.y1 lawn) in
  let planterHeight := padHeight * 2.5 in
  let st := writeRectPrism st planterA padHeight (padHeight + planterHeight) in
  writeRectPrism st planterB padHeight (padHeight + planterHeight).

Definition emitSchool (st : ObjState) (b : Building.t) : ObjState :=
  let fp := Building.footprint b in
  let w := Rect.width fp in
  let h := Rect.height fp in
  let field := insetRect fp (Rmin w h * 0.07) in
  let fieldHeight := 0.05 in
  let st := writeRectPrism st field 0.0 fieldHeight in
  let wide := Rgeb w h in
  let buildingW := if wide then w * 0.45 else w * 0.6 in
  let buildingH := if wide then h * 0.6 else h * 0.45 in
  let bx0 := Rect.x0 fp + w * 0.08 in
  let by0 := Rect.y0 fp + h * (if wide then 0.2 else 0.08) in
  let bx1 := bx0 + buildingW in
  let by1 := by0 + buildingH in
  let maxX := Rect.x1 fp - w * 0.05 in
  let maxY := Rect.y1 fp - h * 0.05 in
  let '(bx0, bx1) := shiftInside bx0 bx1 maxX in
  let '(by0, by1) := shiftInside by0 by1 maxY in
  let buildingRect := Rect.mk bx0 by0 bx1 by1 in
  let schoolHeight := Rmax 2.0 (IZR (Building.height b)) in
  writeRectPrism st buildingRect 0.0 schoolHeight.

Definition emitHospital (st : ObjState) (b : Building.t) : ObjState :=
  let fp := Building.footprint b in
  let w := Rect.width fp in
  let h := Rect.height fp in
  let podium := insetRect fp (Rmin w h * 0.08) in
  let podiumTop := Rmax 1.2 (IZR (Building.height b) * 0.25) in
  let st := writeRectPrism st podium 0.0 podiumTop in
  let cx := Rect.centreX fp in
  let cy := Rect.centreY fp in
  let wide := Rgeb w h in
  let mainW := if wide then w * 0.7 else w * 0.45 in
  let mainH := if wide then h * 0.45 else h * 0.7 in
  let main :=
    Rect.mk (cx - mainW * 0.5) (cy - mainH * 0.5)
            (cx + mainW * 0.5) (cy + mainH * 0.5) in
  let mainTop := Rmax (podiumTop + 2.0) (IZR (Building.height b)) in
  let st := writeRectPrism st main podiumTop mainTop in
  let wingW := if wide then w * 0.28 else w * 0.85 in
  let wingH := if wide then h * 0.85 else h * 0.28 in
  let wing :=
    Rect.mk (cx - wingW * 0.5) (cy - wingH * 0.5)
            (cx + wingW * 0.5) (cy + wingH * 0.5) in
  let wingTop := Rmax (podiumTop + 1.2) (mainTop * 0.9) in
  writeRectPrism st wing podiumTop wingTop.

Definition usemtl (st : ObjState) (m : string) : ObjState :=
  {| ofs := ofs st ++ [Usemtl m]; vertexOffset := vertexOffset st |}.

(** One iteration of the loop over [buildings]. *)
Definition emitBuilding (st : ObjState) (b : Building.t) : ObjState :=
  match Building.zone b with
  | ZNone => st
  | Green =>
      emitPark (usemtl st (materialForZone (Building.zone b)))
               (Building.footprint b)
  | _ =>
      if Building.facility b then
        let st := usemtl st (materialForZone (Building.zone b)) in
        match Building.facilityType b with
        | Facility.Hospital => emitHospital st b
        | Facility.School => emitSchool st b
        end
      else emitStandard (usemtl st (materialForZone (Building.zone b))) b
  end.

(** One iteration of the loop over [roads]. *)
Definition emitRoad (st : ObjState) (road : RoadSegment.t) : ObjState :=
  let st := usemtl st "mat_road" in
  let dx := RoadSegment.x2 road - RoadSegment.x1 road in
  let dy := RoadSegment.y2 road - RoadSegment.y1 road in
  let len := sqrt (dx * dx + dy * dy) in
  if Rlt_dec len 1e-6 then st else
  let invLen := 1.0 / len in
  let nx := - dy * invLen in
  let ny := dx * invLen in
  let halfWidth := 0.5 * roadWidth (RoadSegment.type road) in
  let hx := nx * halfWidth in
  let hy := ny * halfWidth in
  let base :=
    {| base0 := (RoadSegment.x1 road + hx, RoadSegment.y1 road + hy);
       base1 := (RoadSegment.x1 road - hx, RoadSegment.y1 road - hy);
       base2 := (RoadSegment.x2 road - hx, RoadSegment.y2 road - hy);
       base3 := (RoadSegment.x2 road + hx, RoadSegment.y2 road + hy) |} in
  writePrism st base 0.0 kRoadThickness.

(** The body of [saveOBJ] once the output stream is open.  [hasMtl]
    and [mtlName] are the results of [writeMaterialsFile] and
    [filenameOnly] on the sidecar path. *)
Definition body (hasMtl : bool) (mtlName : string) (c : City.t) : ObjState :=
  let st := {| ofs := if hasMtl then [Mtllib mtlName] else [];
               vertexOffset := 1 |} in
  let st := fold_left emitBuilding (City.buildings c) st in
  fold_left emitRoad (City.roads c) st.

(** [saveOBJ]: nothing is written when the stream cannot be opened
    ([opened = false]). *)
Definition saveOBJ (opened hasMtl : bool) (mtlName : string) (c : City.t)
  : option (list ObjLine) :=
  if opened then Some (ofs (body hasMtl mtlName c)) else None.

End SaveOBJ.

(** ** Mesh buffers of the binary exporter *)

Module Vec3.
Record t := mk { x : R; y : R; z : R }.
End Vec3.

(** Internal coordinates (Z up) to the Y-up convention of glTF. *)
Definition toGltfCoords (x y z : R) : Vec3.t := Vec3.mk x z y.

Record MeshBuffer := mkMeshBuffer {
  positions : list R;
  normals : list R;
  indices : list Z;
  hasBounds : bool;
  minPos : R * R * R;
  maxPos : R * R * R
}.

(** A default-constructed [MeshBuffer]. *)
Definition emptyMeshBuffer : MeshBuffer :=
  mkMeshBuffer [] [] [] false (0, 0, 0) (0, 0, 0).

Definition updateBounds (buf : MeshBuffer) (p : Vec3.t) : MeshBuffer :=
  if hasBounds buf then
    let '(m0, m1, m2) := minPos buf in
    let '(M0, M1, M2) := maxPos buf in
    mkMeshBuffer (positions buf) (normals buf) (indices buf) true
      (Rmin m0 (Vec3.x p), Rmin m1 (Vec3.y p), Rmin m2 (Vec3.z p))
      (Rmax M0 (Vec3.x p), Rmax M1 (Vec3.y p), Rmax M2 (Vec3.z p))
  else
    mkMeshBuffer (positions buf) (normals buf) (indices buf) true
      (Vec3.x p, Vec3.y p, Vec3.z p) (Vec3.x p, Vec3.y p, Vec3.z p).

Definition pushPos (buf : MeshBuffer) (p : Vec3.t) : MeshBuffer :=
  updateBounds
    (mkMeshBuffer (positions buf ++ [Vec3.x p; Vec3.y p; Vec3.z p])
       (normals buf) (indices buf) (hasBounds buf) (minPos buf) (maxPos buf))
    p.

Definition pushNormal (buf : MeshBuffer) (nn : Vec3.t) : MeshBuffer :=
  mkMeshBuffer (positions buf)
    (normals buf ++ [Vec3.x nn; Vec3.y nn; Vec3.z nn])
    (indices buf) (hasBounds buf) (minPos buf) (maxPos buf).

Definition pushIndex (buf : MeshBuffer) (i : Z) : MeshBuffer :=
  mkMeshBuffer (positions buf) (normals buf) (indices buf ++ [i])
    (hasBounds buf) (minPos buf) (maxPos buf).

(** [base + d] on [std::uint32_t]. *)
Definition uint32_add (base d : Z) : Z := uint32_wrap (base + d).

Definition appendTriangle (buf : MeshBuffer) (p0 p1 p2 n : Vec3.t) : MeshBuffer :=
  let base := uint32_wrap (Z.of_nat (length (positions buf)) / 3) in
  let buf := pushPos buf p0 in
  let buf := pushPos buf p1 in
  let buf := pushPos buf p2 in
  let buf := pushNormal buf n in
  let buf := pushNormal buf n in
  let buf := pushNormal buf n in
  let buf := pushIndex buf base in
  let buf := pushIndex buf (uint32_add base 1) in
  pushIndex buf (uint32_add base 2).

(** A triangle as [appendTriangle] receives it: three corners and the
    normal shared by them. *)
Definition Triangle : Type := Vec3.t * Vec3.t * Vec3.t * Vec3.t.

(** The eight corners computed at the head of [appendRectPrism]. *)
Definition prismCorners (r : Rect.t) (baseZ topZ : R) : list Vec3.t :=
  [ toGltfCoords (Rect.x0 r) (Rect.y0 r) baseZ;
    toGltfCoords (Rect.x1 r) (Rect.y0 r) baseZ;
    toGltfCoords (Rect.x1 r) (Rect.y1 r) baseZ;
    toGltfCoords (Rect.x0 r) (Rect.y1 r) baseZ;
    toGltfCoords (Rect.x0 r) (Rect.y0 r) topZ;
    toGltfCoords (Rect.x1 r) (Rect.y0 r) topZ;
    toGltfCoords (Rect.x1 r) (Rect.y1 r) topZ;
    toGltfCoords (Rect.x0 r) (Rect.y1 r) topZ ].

(** The arguments of the twelve [appendTriangle] calls of
    [appendRectPrism], in the order of the source. *)
Definition prismTriangles (r : Rect.t) (baseZ topZ : R) : list Triangle :=
  let p0 := toGltfCoords (Rect.x0 r) (Rect.y0 r) baseZ in
  let p1 := toGltfCoords (Rect.x1 r) (Rect.y0 r) baseZ in
  let p2 := toGltfCoords (Rect.x1 r) (Rect.y1 r) baseZ in
  let p3 := toGltfCoords (Rect.x0 r) (Rect.y1 r) baseZ in
  let p4 := toGltfCoords (Rect.x0 r) (Rect.y0 r) topZ in
  let p5 := toGltfCoords (Rect.x1 r) (Rect.y0 r) topZ in
  let p6 := toGltfCoords (Rect.x1 r) (Rect.y1 r) topZ in
  let p7 := toGltfCoords (Rect.x0 r) (Rect.y1 r) topZ in
  let nDown := Vec3.mk 0.0 (-1.0) 0.0 in
  let nUp := Vec3.mk 0.0 1.0 0.0 in
  let nPosX := Vec3.mk 1.0 0.0 0.0 in
  let nNegX := Vec3.mk (-1.0) 0.0 0.0 in
  let nPosZ := Vec3.mk 0.0 0.0 1.0 in
  let nNegZ := Vec3.mk 0.0 0.0 (-1.0) in
  [ (p0, p2, p1, nDown); (p0, p3, p2, nDown);
    (p4, p5, p6, nUp); (p4, p6, p7, nUp);
    (p1, p2, p6, nPosX); (p1, p6, p5, nPosX);
    (p3, p0, p4, nNegX); (p3, p4, p7, nNegX);
    (p2, p3, p7, nPosZ); (p2, p7, p6, nPosZ);
    (p0, p1, p5, nNegZ); (p0, p5, p4, nNegZ) ].

Definition appendTri (buf : MeshBuffer) (t : Triangle) : MeshBuffer :=
  let '(p0, p1, p2, n) := t in appendTriangle buf p0 p1 p2 n.

Definition appendRectPrism (buf : MeshBuffer) (r : Rect.t) (baseZ topZ : R)
  : MeshBuffer :=
  fold_left appendTri (prismTriangles r baseZ topZ) buf.

(** ** [City::saveGLTF]: accumulation per material *)

Module SaveGLTF.

Abbreviation Meshes := (gmap string MeshBuffer).

(** [appendRectPrism(bufferFor(mat), r, baseZ, topZ)]: [operator[]]
    of the map default-constructs the buffer on first use. *)
Definition appendTo (meshByMaterial : Meshes) (mat : string)
    (r : Rect.t) (baseZ topZ : R) : Meshes :=
  <[ mat := appendRectPrism (default emptyMeshBuffer (meshByMaterial !! mat))
              r baseZ topZ ]> meshByMaterial.

Definition emitStandard (m : Meshes) (b : Building.t) : Meshes :=
  let h := Rmax 1.0 (IZR (Building.height b)) in
  appendTo m (materialForZone (Building.zone b)) (Building.footprint b) 0.0 h.

Definition emitPark (m : Meshes) (fp : Rect.t) : Meshes :=
  let margin := Rmin (Rect.width fp) (Rect.height fp) * 0.08 in
  let lawn := insetRect fp margin in
  let padHeight := 0.08 in
  let m := appendTo m "mat_green" lawn 0.0 padHeight in
  let baseSize := Rmin (Rect.width lawn) (Rect.height lawn) * 0.2 in
  let planterSize :=
    clamp baseSize 0.2 (Rmin (Rect.width lawn) (Rect.height lawn) * 0.45) in
  let planterA :=
    Rect.mk (Rect.x0 lawn) (Rect.y0 lawn)
            (Rect.x0 lawn + planterSize) (Rect.y0 lawn + planterSize) in
  let planterB :=
    Rect.mk (Rect.x1 lawn - planterSize) (Rect.y1 lawn - planterSize)
            (Rect.x1 lawn) (Rect.y1 lawn) in
  let planterHeight := padHeight * 2.5 in
  let m := appendTo m "mat_green" planterA padHeight (padHeight + planterHeight) in
  appendTo m "mat_green" planterB padHeight (padHeight + planterHeight).

Definition emitSchool (m : Meshes) (b : Building.t) : Meshes :=
  let fp := Building.footprint b in
  let w := Rect.width fp in
  let h := Rect.height fp in
  let field := insetRect fp (Rmin w h * 0.07) in
  let fieldHeight := 0.05 in
  let m := appendTo m (materialForZone (Building.zone b)) field 0.0 fieldHeight in
  let wide := Rgeb w h in
  let buildingW := if wide then w * 0.45 else w * 0.6 in
  let buildingH := if wide then h * 0.6 else h * 0.45 in
  let bx0 := Rect.x0 fp + w * 0.08 in
  let by0 := Rect.y0 fp + h * (if wide then 0.2 else 0.08) in
  let bx1 := bx0 + buildingW in
  let by1 := by0 + buildingH in
  let maxX := Rect.x1 fp - w * 0.05 in
  let maxY := Rect.y1 fp - h * 0.05 in
  let '(bx0, bx1) := shiftInside bx0 bx1 maxX in
  let '(by0, by1) := shiftInside by0 by1 maxY in
  let buildingRect := Rect.mk bx0 by0 bx1 by1 in
  let schoolHeight := Rmax 2.0 (IZR (Building.height b)) in
  appendTo m (materialForZone (Building.zone b)) buildingRect 0.0 schoolHeight.

Definition emitHospital (m : Meshes) (b : Building.t) : Meshes :=
  let fp := Building.footprint b in
  let w := Rect.width fp in
  let h := Rect.height fp in
  let podium := insetRect fp (Rmin w h * 0.08) in
  let podiumTop := Rmax 1.2 (IZR (Building.height b) * 0.25) in
  let m := appendTo m (materialForZone (Building.zone b)) podium 0.0 podiumTop in
  let cx := Rect.centreX fp in
  let cy := Rect.centreY fp in
  let wide := Rgeb w h in
  let mainW := if wide then w * 0.7 else w * 0.45 in
  let mainH := if wide then h * 0.45 else h * 0.7 in
  let main :=
    Rect.mk (cx - mainW * 0.5) (cy - mainH * 0.5)
            (cx + mainW * 0.5) (cy + mainH * 0.5) in
  let mainTop := Rmax (podiumTop + 2.0) (IZR (Building.height b)) in
  let m := appendTo m (materialForZone (Building.zone b)) main podiumTop mainTop in
  let wingW := if wide then w * 0.28 else w * 0.85 in
  let wingH := if wide then h * 0.85 else h * 0.28 in
  let wing :=
    Rect.mk (cx - wingW * 0.5) (cy - wingH * 0.5)
            (cx + wingW * 0.5) (cy + wingH * 0.5) in
  let wingTop := Rmax (podiumTop + 1.2) (mainTop * 0.9) in
  appendTo m (materialForZone (Building.zone b)) wing podiumTop wingTop.

(** One iteration of the loop over [buildings]. *)
Definition emitBuilding (m : Meshes) (b : Building.t) : Meshes :=
  match Building.zone b with
  | ZNone => m
  | Green => emitPark m (Building.footprint b)
  | _ =>
      if Building.facility b then
        match Building.facilityType b with
        | Facility.Hospital => emitHospital m b
        | Facility.School => emitSchool m b
        end
      else emitStandard m b
  end.

(** [if (a > b) std::swap(a, b)]. *)
Definition swapIfGt (a b : R) : R * R :=
  if Rgt_dec a b then (b, a) else (a, b).

(** One iteration of the loop over [roads]. *)
Definition emitRoad (m : Meshes) (road : RoadSegment.t) : Meshes :=
  let dx := RoadSegment.x2 road - RoadSegment.x1 road in
  let dy := RoadSegment.y2 road - RoadSegment.y1 road in
  let len := sqrt (dx * dx + dy * dy) in
  if Rlt_dec len 1e-6 then m else
  let invLen := 1.0 / len in
  let nx := - dy * invLen in
  let ny := dx * invLen in
  let halfWidth := 0.5 * roadWidth (RoadSegment.type road) in
  let hx := nx * halfWidth in
  let hy := ny * halfWidth in
  let '(bx0, bx1) :=
    swapIfGt (RoadSegment.x1 road + hx) (RoadSegment.x2 road - hx) in
  let '(by0, by1) :=
    swapIfGt (RoadSegment.y1 road + hy) (RoadSegment.y2 road - hy) in
  appendTo m "mat_road" (Rect.mk bx0 by0 bx1 by1) 0.0 kRoadThickness.

(** [meshByMaterial] after the two traversal loops. *)
Definition meshes (c : City.t) : Meshes :=
  fold_left emitRoad (City.roads c)
    (fold_left emitBuilding (City.buildings c) ∅).

(** The palette filtered down to the materials that received
    triangles, in palette order, with the index given to each. *)
Definition collectMaterial (meshByMaterial : Meshes)
    (acc : list MaterialDef * gmap string Z) (def : MaterialDef)
  : list MaterialDef * gmap string Z :=
  let '(materials, materialIndex) := acc in
  match meshByMaterial !! name def with
  | Some buf =>
      match indices buf with
      | [] => acc
      | _ :: _ =>
          let idx := Z.of_nat (length materials) in
          (materials ++ [def], <[ name def := idx ]> materialIndex)
      end
  | None => acc
  end.

Definition collectMaterials (meshByMaterial : Meshes)
  : list MaterialDef * gmap string Z :=
  fold_left (collectMaterial meshByMaterial) kMaterialPalette ([], ∅).

Definition materials (c : City.t) : list MaterialDef :=
  fst (collectMaterials (meshes c)).

End SaveGLTF.

(** ** Bytes of the binary container *)

Abbreviation byte := Byte.byte.

Definition byte_of_Z (z : Z) : byte :=
  match Byte.of_N (Z.to_N (z mod 256)) with
  | Some b => b
  | None => Byte.x00
  end.

Definition Z_of_byte (b : byte) : Z := Z.of_N (Byte.to_N b).

(** The four bytes of a [std::uint32_t] as [ofs.write] copies them from
    memory on a little-endian host. *)
Definition le32 (z : Z) : list byte :=
  [ byte_of_Z z; byte_of_Z (z / 2 ^ 8); byte_of_Z (z / 2 ^ 16);
    byte_of_Z (z / 2 ^ 24) ]%Z.

(** Reading a little-endian 32-bit field back. *)
Definition le32_decode (bs : list byte) : Z :=
  match bs with
  | [b0; b1; b2; b3] =>
      (Z_of_byte b0 + 2 ^ 8 * Z_of_byte b1 + 2 ^ 16 * Z_of_byte b2
       + 2 ^ 24 * Z_of_byte b3)%Z
  | _ => 0%Z
  end.

(** [while (v.size() % 4 != 0) v.push_back(pad)]: at most three rounds. *)
Fixpoint padLoop (fuel : nat) (pad : byte) (v : list byte) : list byte :=
  match fuel with
  | O => v
  | S fuel' =>
      if (Z.of_nat (length v) mod 4 =? 0)%Z then v
      else padLoop fuel' pad (v ++ [pad])
  end.

Definition align4 (v : list byte) : list byte := padLoop 3 Byte.x00 v.

(** The container written by the [binary] branch of [saveGLTF] from the
    JSON text and the packed buffer. *)
Definition writeGLB (json binData : list byte) : list byte :=
  let jsonBytes := padLoop 3 Byte.x20 json in
  let binData := align4 binData in
  let totalLength :=
    uint32_wrap (12 + 8 + uint32_wrap (Z.of_nat (length jsonBytes))
                 + 8 + uint32_wrap (Z.of_nat (length binData))) in
  let version := 2%Z in
  let jsonLength := uint32_wrap (Z.of_nat (length jsonBytes)) in
  let jsonType := 0x4E4F534A%Z in
  let binLength := uint32_wrap (Z.of_nat (length binData)) in
  let binType := 0x004E4942%Z in
  [ Byte.x67; Byte.x6c; Byte.x54; Byte.x46 ]
    ++ le32 version
    ++ le32 totalLength
    ++ le32 jsonLength ++ le32 jsonType ++ jsonBytes
    ++ le32 binLength ++ le32 binType ++ binData.

(** The fields of the 12-byte container header. *)
Definition glbMagic (file : list byte) : list byte := firstn 4 file.
Definition glbVersion (file : list byte) : Z := le32_decode (firstn 4 (skipn 4 file)).
Definition glbTotalLength (file : list byte) : Z := le32_decode (firstn 4 (skipn 8 file)).

(** ** [City::saveGLTF]: packing and output *)

Record ViewInfo := mkViewInfo { offset : Z; length_ : Z; target : Z }.

Record AccessorInfo := mkAccessorInfo {
  bufferView : Z;
  count : Z;
  componentType : Z;
  type_ : string;
  hasMinMax : bool;
  min_ : R * R * R;
  max_ : R * R * R
}.

Record MeshPrimitive := mkMeshPrimitive {
  positionAccessor : Z;
  normalAccessor : Z;
  indexAccessor : Z;
  material : Z;
  prim_name : string
}.

(** What [saveGLTF] leaves on disk. *)
Inductive GltfFiles :=
| GlbFile (glb : list byte)
| GltfPair (bin : list byte) (gltf : list byte).

Section Packing.

(** The four bytes of a [float] in memory.  The model of [double] by
    [R] has no bit patterns, so the encoding is a parameter; only its
    width is ever used. *)
Variable float_le : R -> list byte.

(** The JSON text composed from the tables built by the packing loop,
    the size of the packed buffer and the [uri] of the sibling file
    (absent in binary mode).  Number formatting is outside the model,
    so the text is a parameter. *)
Variable composeJson :
  list MaterialDef -> list MeshPrimitive -> list AccessorInfo ->
  list ViewInfo -> Z -> option string -> list byte.

Definition floatBytes (l : list R) : list byte := concat (map float_le l).
Definition indexBytes (l : list Z) : list byte := concat (map le32 l).

Record PackState := mkPackState {
  binData : list byte;
  views : list ViewInfo;
  accessors : list AccessorInfo;
  primitives : list MeshPrimitive
}.

(** [appendBytes]: align, remember the offset, append. *)
Definition appendBytes (bin : list byte) (bytes : list byte) : list byte * Z :=
  let bin := align4 bin in
  (bin ++ bytes, size_t_wrap (Z.of_nat (length bin))).

Definition sizeofFloat : Z := 4.
Definition sizeofUint32 : Z := 4.

(** One iteration of the loop over the surviving materials. *)
Definition packMaterial (meshByMaterial : gmap string MeshBuffer)
    (materialIndex : gmap string Z) (st : PackState) (mat : MaterialDef)
  : PackState :=
  match meshByMaterial !! name mat with
  | None => st
  | Some buf =>
      match indices buf, positions buf with
      | [], _ | _, [] => st
      | _, _ =>
          let npos := Z.of_nat (length (positions buf)) in
          let nnorm := Z.of_nat (length (normals buf)) in
          let nidx := Z.of_nat (length (indices buf)) in
          (* positions *)
          let '(bin, posOffset) :=
            appendBytes (binData st) (floatBytes (positions buf)) in
          let views :=
            views st ++ [mkViewInfo posOffset (size_t_wrap (npos * sizeofFloat)) 34962] in
          let posAccessor := Z.of_nat (length (accessors st)) in
          let posAcc :=
            mkAccessorInfo (size_t_wrap (Z.of_nat (length views) - 1))
              (npos / 3) 5126 "VEC3"
              (hasBounds buf)
              (if hasBounds buf then minPos buf else (0, 0, 0))
              (if hasBounds buf then maxPos buf else (0, 0, 0)) in
          let accessors := accessors st ++ [posAcc] in
          (* normals *)
          let '(bin, normOffset) := appendBytes bin (floatBytes (normals buf)) in
          let views :=
            views ++ [mkViewInfo normOffset (size_t_wrap (nnorm * sizeofFloat)) 34962] in
          let normAccessor := Z.of_nat (length accessors) in
          let normAcc :=
            mkAccessorInfo (size_t_wrap (Z.of_nat (length views) - 1))
              (nnorm / 3) 5126 "VEC3" false (0, 0, 0) (0, 0, 0) in
          let accessors := accessors ++ [normAcc] in
          (* indices *)
          let '(bin, idxOffset) := appendBytes bin (indexBytes (indices buf)) in
          let views :=
            views ++ [mkViewInfo idxOffset (size_t_wrap (nidx * sizeofUint32)) 34963] in
          let idxAccessor := Z.of_nat (length accessors) in
          let idxAcc :=
            mkAccessorInfo (size_t_wrap (Z.of_nat (length views) - 1))
              nidx 5125 "SCALAR" false (0, 0, 0) (0, 0, 0) in
          let accessors := accessors ++ [idxAcc] in
          let prim :=
            mkMeshPrimitive posAccessor normAccessor idxAccessor
              (default 0%Z (materialIndex !! name mat)) (name mat) in
          mkPackState bin views accessors (primitives st ++ [prim])
      end
  end.

Definition pack (meshByMaterial : gmap string MeshBuffer) : PackState :=
  let '(materials, materialIndex) := SaveGLTF.collectMaterials meshByMaterial in
  fold_left (packMaterial meshByMaterial materialIndex) materials
    (mkPackState [] [] [] []).

(** [saveGLTF] once its output streams are open; [binName] is
    [filenameOnly(replaceExtension(filename, ".bin"))]. *)
Definition saveGLTF (c : City.t) (binName : string) (binary : bool) : GltfFiles :=
  let meshByMaterial := SaveGLTF.meshes c in
  let materials := fst (SaveGLTF.collectMaterials meshByMaterial) in
  let st := pack meshByMaterial in
  let json :=
    composeJson materials (primitives st) (accessors st) (views st)
      (Z.of_nat (length (binData st)))
      (if binary then None else Some binName) in
  if binary then GlbFile (writeGLB json (binData st))
  else GltfPair (align4 (binData st)) json.

End Packing.

(** ** [City::saveSummary] *)

Module SaveSummary.

(** The values printed under the fixed keys of the report. *)
Record Summary := mkSummary {
  gridSize : Z;
  totalBuildings : Z;
  residentialCells : Z;
  commercialCells : Z;
  industrialCells : Z;
  greenCells : Z;
  undevelopedCells : Z;
  numHospitals : Z;
  numSchools : Z;
  maxDistanceToSchool : R;
  maxDistanceToHospital : R;
  maxResidentialHeight : Z;
  maxCommercialHeight : Z;
  maxIndustrialHeight : Z
}.

(** [counter++] on [std::size_t]. *)
Definition incr (n : Z) : Z := size_t_wrap (n + 1).

Record CellCounts := mkCellCounts {
  countResidential : Z;
  countCommercial : Z;
  countIndustrial : Z;
  countGreen : Z;
  countUndeveloped : Z
}.

Definition countCell (k : CellCounts) (z : ZoneType) : CellCounts :=
  match z with
  | ZNone =>
      mkCellCounts (countResidential k) (countCommercial k) (countIndustrial k)
        (countGreen k) (incr (countUndeveloped k))
  | Residential =>
      mkCellCounts (incr (countResidential k)) (countCommercial k)
        (countIndustrial k) (countGreen k) (countUndeveloped k)
  | Commercial =>
      mkCellCounts (countResidential k) (incr (countCommercial k))
        (countIndustrial k) (countGreen k) (countUndeveloped k)
  | Industrial =>
      mkCellCounts (countResidential k) (countCommercial k)
        (incr (countIndustrial k)) (countGreen k) (countUndeveloped k)
  | Green =>
      mkCellCounts (countResidential k) (countCommercial k) (countIndustrial k)
        (incr (countGreen k)) (countUndeveloped k)
  end.

(** [schoolPos] and [hospitalPos]. *)
Definition positionsOf (kind : Facility.Type_) (fs : list Facility.t)
  : list (R * R) :=
  flat_map
    (fun f =>
       match Facility.type f, kind with
       | Facility.School, Facility.School
       | Facility.Hospital, Facility.Hospital => [(Facility.x f, Facility.y f)]
       | _, _ => []
       end) fs.

(** The body of the loop of [nearest]. *)
Definition nearestStep (x y : R) (best : R) (p : R * R) : R :=
  let dx := x - fst p in
  let dy := y - snd p in
  let d := sqrt (dx * dx + dy * dy) in
  if Rlt_dec d best then d else best.

Definition nearest (x y : R) (pts : list (R * R)) : R :=
  match pts with
  | [] => -1.0
  | _ => fold_left (nearestStep x y) pts DBL_MAX
  end.

Record BuildingStats := mkBuildingStats {
  st_totalBuildings : Z;
  st_maxResidentialHeight : Z;
  st_maxCommercialHeight : Z;
  st_maxIndustrialHeight : Z;
  maxDistSchool : R;
  maxDistHospital : R
}.

(** The update of one of the two worst-case distances for a
    residential building. *)
Definition worstCase (b : Building.t) (pts : list (R * R)) (maxDist : R) : R :=
  match pts with
  | [] => maxDist
  | _ =>
      let d := nearest (Rect.centreX (Building.footprint b))
                       (Rect.centreY (Building.footprint b)) pts in
      if Rgt_dec d maxDist then d else maxDist
  end.

(** One iteration of the loop over [buildings]. *)
Definition statBuilding (schoolPos hospitalPos : list (R * R))
    (s : BuildingStats) (b : Building.t) : BuildingStats :=
  let total :=
    match Building.zone b with
    | ZNone | Green => st_totalBuildings s
    | _ => incr (st_totalBuildings s)
    end in
  match Building.zone b with
  | Residential =>
      mkBuildingStats total
        (Z.max (st_maxResidentialHeight s) (Building.height b))
        (st_maxCommercialHeight s) (st_maxIndustrialHeight s)
        (worstCase b schoolPos (maxDistSchool s))
        (worstCase b hospitalPos (maxDistHospital s))
  | Commercial =>
      mkBuildingStats total (st_maxResidentialHeight s)
        (Z.max (st_maxCommercialHeight s) (Building.height b))
        (st_maxIndustrialHeight s) (maxDistSchool s) (maxDistHospital s)
  | Industrial =>
      mkBuildingStats total (st_maxResidentialHeight s)
        (st_maxCommercialHeight s)
        (Z.max (st_maxIndustrialHeight s) (Building.height b))
        (maxDistSchool s) (maxDistHospital s)
  | _ =>
      mkBuildingStats total (st_maxResidentialHeight s)
        (st_maxCommercialHeight s) (st_maxIndustrialHeight s)
        (maxDistSchool s) (maxDistHospital s)
  end.

Definition countFacility (kind : Facility.Type_) (n : Z) (f : Facility.t) : Z :=
  match Facility.type f, kind with
  | Facility.School, Facility.School
  | Facility.Hospital, Facility.Hospital => incr n
  | _, _ => n
  end.

(** The report computed by [saveSummary] once its stream is open. *)
Definition summary (c : City.t) : Summary :=
  let k := fold_left countCell (City.zones c) (mkCellCounts 0 0 0 0 0) in
  let schoolPos := positionsOf Facility.School (City.facilities c) in
  let hospitalPos := positionsOf Facility.Hospital (City.facilities c) in
  let s :=
    fold_left (statBuilding schoolPos hospitalPos) (City.buildings c)
      (mkBuildingStats 0 0 0 0 (-1.0) (-1.0)) in
  let countHospitals :=
    fold_left (countFacility Facility.Hospital) (City.facilities c) 0%Z in
  let countSchools :=
    fold_left (countFacility Facility.School) (City.facilities c) 0%Z in
  {| gridSize := City.size c;
     totalBuildings := st_totalBuildings s;
     residentialCells := countResidential k;
     commercialCells := countCommercial k;
     industrialCells := countIndustrial k;
     greenCells := countGreen k;
     undevelopedCells := countUndeveloped k;
     numHospitals := countHospitals;
     numSchools := countSchools;
     maxDistanceToSchool := maxDistSchool s;
     maxDistanceToHospital := maxDistHospital s;
     maxResidentialHeight := st_maxResidentialHeight s;
     maxCommercialHeight := st_maxCommercialHeight s;
     maxIndustrialHeight := st_maxIndustrialHeight s |}.

(** [saveSummary]: nothing is written when the stream cannot be
    opened. *)
Definition saveSummary (opened : bool) (c : City.t) : option Summary :=
  if opened then Some (summary c) else None.

End SaveSummary.


(** ** Construction and indexing of the zoning grid ([City.h]) *)

(** [int] arithmetic: the result of an operation taken modulo 2^32
    into the signed range (an overflow is undefined in C++; this is
    what the usual targets compute). *)
Definition int_wrap (z : Z) : Z := ((z + 2 ^ 31) mod 2 ^ 32 - 2 ^ 31)%Z.

(** [City::City(int s)]: [size(s)], then
    [zones.resize(size * size, ZoneType::None)]; the [int] product is
    converted to [std::size_t]. *)
Definition City_ctor (s : Z) : City.t :=
  City.mk s (repeat ZNone (Z.to_nat (size_t_wrap (int_wrap (s * s))))) [] [] [] [].

(** The index [y * size + x] of [zoneAt], as [operator[]] receives it. *)
Definition zoneIndex (c : City.t) (x y : Z) : Z :=
  size_t_wrap (int_wrap (int_wrap (y * City.size c) + x)).

(** Reading through [zoneAt(x, y)]; no bounds are checked in the
    source, so an index outside the vector has no defined result
    ([None]). *)
Definition zoneAt (c : City.t) (x y : Z) : option ZoneType :=
  City.zones c !! Z.to_nat (zoneIndex c x y).

(** Assigning through the reference returned by [zoneAt(x, y)]. *)
Definition zoneAt_assign (c : City.t) (x y : Z) (z : ZoneType) : option City.t :=
  if (zoneIndex c x y <? Z.of_nat (length (City.zones c)))%Z then
    Some (City.mk (City.size c)
            (<[ Z.to_nat (zoneIndex c x y) := z ]> (City.zones c))
            (City.buildings c) (City.facilities c) (City.roads c)
            (City.blocks c))
  else None.


(** ** Paths ([filenameOnly], [replaceExtension])

    A [std::string] that the code takes apart is modelled as the list
    of its characters, a position as a [nat], [std::string::npos] as
    [None]. *)

Abbreviation ascii := Ascii.ascii.

Definition isOneOf (set : list ascii) (c : ascii) : bool :=
  existsb (Ascii.eqb c) set.

(** [s.find_last_of(set)]: the position of the last character of [s]
    that is one of [set]. *)
Fixpoint find_last_of (set : list ascii) (s : list ascii) : option nat :=
  match s with
  | [] => None
  | c :: s' =>
      match find_last_of set s' with
      | Some pos => Some (S pos)
      | None => if isOneOf set c then Some 0%nat else None
      end
  end.

(** The characters of ["/\\"]. *)
Definition separators : list ascii :=
  [Ascii.ascii_of_nat 47; Ascii.ascii_of_nat 92].

Definition filenameOnly (path : list ascii) : list ascii :=
  match find_last_of separators path with
  | None => path
  | Some pos => skipn (pos + 1) path
  end.

Definition replaceExtension (path ext : list ascii) : list ascii :=
  let slash := find_last_of separators path in
  let dot := find_last_of [Ascii.ascii_of_nat 46] path in
  let dot :=
    match dot with
    | None => length path
    | Some d =>
        match slash with
        | Some sl => if (d <? sl)%nat then length path else d
        | None => d
        end
    end in
  firstn dot path ++ ext.

(** ** The material library ([writeMaterial], [writeMaterialsFile],
    [findMaterialDef]) *)

Inductive MtlLine :=
| Newmtl (name : string)
| Ka (r g b : R)
| Kd (r g b : R)
| Ks (r g b : R)
| Ns (s : R)
| Dissolve (d : R)
| Illum (n : Z).

Definition writeMaterial (mtl : list MtlLine) (name : string)
    (r g b ks shininess : R) : list MtlLine :=
  let ka := 0.25 in
  mtl ++ [ Newmtl name; Ka (ka * r) (ka * g) (ka * b); Kd r g b; Ks ks ks ks;
           Ns shininess; Dissolve 1.0; Illum 2 ].

(** [writeMaterialsFile]: the lines written, or [None] when the stream
    cannot be opened and the function returns [false]. *)
Definition writeMaterialsFile (opened : bool) : option (list MtlLine) :=
  if opened then
    Some (fold_left
            (fun mtl m =>
               writeMaterial mtl (name m) (mat_r m) (mat_g m) (mat_b m)
                 (ks m) (shininess m))
            kMaterialPalette [])
  else None.

(** [findMaterialDef]: the first entry of that name, [None] for
    [nullptr]. *)
Definition findMaterialDef (n : string) : option MaterialDef :=
  List.find (fun m => String.eqb n (name m)) kMaterialPalette.

(** ** The files of [saveOBJ] and the sidecar of [saveGLTF] *)

Record ObjFiles := mkObjFiles {
  mtlPath : list ascii;
  mtlFile : option (list MtlLine);
  objFile : option (list ObjLine)
}.

(** [City::saveOBJ(filename)]: the material library is written first,
    next to the model; [mtlOpens] and [objOpens] say whether the two
    streams can be opened. *)
Definition saveOBJ_files (filename : list ascii) (mtlOpens objOpens : bool)
    (c : City.t) : ObjFiles :=
  let mtlPath := replaceExtension filename (String.list_ascii_of_string ".mtl") in
  let mtl := writeMaterialsFile mtlOpens in
  let hasMtl := match mtl with Some _ => true | None => false end in
  let mtlName := filenameOnly mtlPath in
  mkObjFiles mtlPath mtl
    (SaveOBJ.saveOBJ objOpens hasMtl (String.string_of_list_ascii mtlName) c).

(** The path of the buffer file of [saveGLTF] and the [uri] that the
    JSON text gives for it. *)
Definition binFilename (filename : list ascii) : list ascii :=
  replaceExtension filename (String.list_ascii_of_string ".bin").

Definition bufferUri (filename : list ascii) : string :=
  String.string_of_list_ascii (filenameOnly (binFilename filename)).


(** ** Configuration ([Config.h]) *)

(** A string literal as a [std::string]. *)
Definition chars (s : string) : list ascii := String.list_ascii_of_string s.

Inductive TransportMode := Car | PublicTransit | Walk.
Inductive ExportFormat := OBJ | GLTF | GLB.

Module Config.

Record t := mk {
  seed : Z;
  population : Z;
  grid_size : Z;
  city_radius : R;
  hospitals : Z;
  schools : Z;
  green_m2_per_capita : R;
  transport_mode : TransportMode;
  output_prefix : list ascii;
  export_format : ExportFormat
}.

(** The default member initialisers. *)
Definition initial : t :=
  mk 0 100000 100 0.8 1 5 8.0 Car (chars "city") OBJ.

(** [Config::normalize]: the seven corrections, in order. *)
Definition normalize (c : t) : t :=
  let population := if (population c <? 0)%Z then 0%Z else population c in
  let grid_size := if (grid_size c <? 10)%Z then 10%Z else grid_size c in
  let city_radius := if Rle_dec (city_radius c) 0.0 then 0.1 else city_radius c in
  let city_radius := if Rgt_dec city_radius 1.0 then 1.0 else city_radius in
  let hospitals := if (hospitals c <? 0)%Z then 0%Z else hospitals c in
  let schools := if (schools c <? 0)%Z then 0%Z else schools c in
  let green_m2_per_capita :=
    if Rlt_dec (green_m2_per_capita c) 0.0 then 0.0 else green_m2_per_capita c in
  mk (seed c) population grid_size city_radius hospitals schools
     green_m2_per_capita (transport_mode c) (output_prefix c) (export_format c).

End Config.

(** [::tolower] in the "C" locale: the 26 capital letters are moved
    to the small ones, every other character is kept. *)
Definition tolower (c : ascii) : ascii :=
  let n := Ascii.nat_of_ascii c in
  if ((65 <=? n) && (n <=? 90))%nat then Ascii.ascii_of_nat (n + 32) else c.

(** [s == "literal"]. *)
Definition equals (s : list ascii) (literal : string) : bool :=
  String.eqb (String.string_of_list_ascii s) literal.

(** The two parsers return the value or throw
    [std::invalid_argument] with the message on the right. *)
Definition transportModeFromString (s : list ascii) : TransportMode + list ascii :=
  let s := map tolower s in
  if equals s "car" then inl Car
  else if equals s "public" || equals s "public_transit" || equals s "transit" then
    inl PublicTransit
  else if equals s "walk" || equals s "pedestrian" then inl Walk
  else inr (chars "Unknown transport mode: " ++ s).

Definition exportFormatFromString (s : list ascii) : ExportFormat + list ascii :=
  let s := map tolower s in
  if equals s "obj" then inl OBJ
  else if equals s "gltf" then inl GLTF
  else if equals s "glb" then inl GLB
  else inr (chars "Unknown export format: " ++ s).

(** ** The command line ([main.cpp]) *)

(** [arg.rfind(prefix, 0) == 0]: [arg] starts with [prefix]. *)
Fixpoint starts_with (prefix arg : list ascii) : bool :=
  match prefix, arg with
  | [], _ => true
  | p :: prefix', a :: arg' => Ascii.eqb p a && starts_with prefix' arg'
  | _ :: _, [] => false
  end.

Definition parseArg (arg prefix : list ascii) : list ascii :=
  if starts_with prefix arg then skipn (length prefix) arg else [].

(** How [main] ends before it generates a city. *)
Inductive Exit :=
| Usage                        (* the help text, [return 0] *)
| Failure (message : list ascii) (* a line on [std::cerr], [return 1] *)
| Uncaught (what : list ascii).  (* an exception leaves [main] *)

Definition nonempty (s : list ascii) : bool :=
  match s with [] => false | _ :: _ => true end.

(** The calls that [main] makes on the generated city. *)
Inductive SaveCall :=
| CallSaveOBJ (filename : list ascii)
| CallSaveGLTF (filename : list ascii) (binary : bool)
| CallSaveSummary (filename : list ascii).

Definition saveCalls (export_format : ExportFormat) (outDir : list ascii)
  : list SaveCall :=
  let objPath := outDir ++ chars "/city.obj" in
  let gltfPath := outDir ++ chars "/city.gltf" in
  let glbPath := outDir ++ chars "/city.glb" in
  let summaryPath := outDir ++ chars "/city_summary.json" in
  [ match export_format with
    | OBJ => CallSaveOBJ objPath
    | GLB => CallSaveGLTF glbPath true
    | GLTF => CallSaveGLTF gltfPath false
    end;
    CallSaveSummary summaryPath ].

(** The files that a call opens for writing, in order. *)
Definition filesOpened (call : SaveCall) : list (list ascii) :=
  match call with
  | CallSaveOBJ filename =>
      [replaceExtension filename (chars ".mtl"); filename]
  | CallSaveGLTF filename true => [filename]
  | CallSaveGLTF filename false => [binFilename filename; filename]
  | CallSaveSummary filename => [filename]
  end.

Section CommandLine.

(** The conversions of the C library; their results are taken as
    given. *)
Variable strtoul : list ascii -> Z.
Variable strtol : list ascii -> Z.
Variable strtod : list ascii -> R.

(** [static_cast<std::uint32_t>(value)] stored in an [int] field. *)
Definition int_of_uint32 (z : Z) : Z := int_wrap (uint32_wrap z).

(** One iteration of the loop over [argv]. *)
Definition parseStep (st : Config.t * list ascii) (arg : list ascii)
  : Config.t * list ascii + Exit :=
  let '(cfg, outDir) := st in
  let set_population v :=
    Config.mk (Config.seed cfg) v (Config.grid_size cfg) (Config.city_radius cfg)
      (Config.hospitals cfg) (Config.schools cfg) (Config.green_m2_per_capita cfg)
      (Config.transport_mode cfg) (Config.output_prefix cfg)
      (Config.export_format cfg) in
  let set_hospitals v :=
    Config.mk (Config.seed cfg) (Config.population cfg) (Config.grid_size cfg)
      (Config.city_radius cfg) v (Config.schools cfg)
      (Config.green_m2_per_capita cfg) (Config.transport_mode cfg)
      (Config.output_prefix cfg) (Config.export_format cfg) in
  let set_schools v :=
    Config.mk (Config.seed cfg) (Config.population cfg) (Config.grid_size cfg)
      (Config.city_radius cfg) (Config.hospitals cfg) v
      (Config.green_m2_per_capita cfg) (Config.transport_mode cfg)
      (Config.output_prefix cfg) (Config.export_format cfg) in
  let set_transport v :=
    Config.mk (Config.seed cfg) (Config.population cfg) (Config.grid_size cfg)
      (Config.city_radius cfg) (Config.hospitals cfg) (Config.schools cfg)
      (Config.green_m2_per_capita cfg) v (Config.output_prefix cfg)
      (Config.export_format cfg) in
  let set_seed v :=
    Config.mk v (Config.population cfg) (Config.grid_size cfg)
      (Config.city_radius cfg) (Config.hospitals cfg) (Config.schools cfg)
      (Config.green_m2_per_capita cfg) (Config.transport_mode cfg)
      (Config.output_prefix cfg) (Config.export_format cfg) in
  let set_grid_size v :=
    Config.mk (Config.seed cfg) (Config.population cfg) v (Config.city_radius cfg)
      (Config.hospitals cfg) (Config.schools cfg) (Config.green_m2_per_capita cfg)
      (Config.transport_mode cfg) (Config.output_prefix cfg)
      (Config.export_format cfg) in
  let set_city_radius v :=
    Config.mk (Config.seed cfg) (Config.population cfg) (Config.grid_size cfg) v
      (Config.hospitals cfg) (Config.schools cfg) (Config.green_m2_per_capita cfg)
      (Config.transport_mode cfg) (Config.output_prefix cfg)
      (Config.export_format cfg) in
  let set_export_format v :=
    Config.mk (Config.seed cfg) (Config.population cfg) (Config.grid_size cfg)
      (Config.city_radius cfg) (Config.hospitals cfg) (Config.schools cfg)
      (Config.green_m2_per_capita cfg) (Config.transport_mode cfg)
      (Config.output_prefix cfg) v in
  if nonempty (parseArg arg (chars "--population=")) then
    inl (set_population
           (int_of_uint32 (strtoul (parseArg arg (chars "--population=")))), outDir)
  else if nonempty (parseArg arg (chars "--hospitals=")) then
    inl (set_hospitals
           (int_of_uint32 (strtoul (parseArg arg (chars "--hospitals=")))), outDir)
  else if nonempty (parseArg arg (chars "--schools=")) then
    inl (set_schools
           (int_of_uint32 (strtoul (parseArg arg (chars "--schools=")))), outDir)
  else if nonempty (parseArg arg (chars "--transport=")) then
    match transportModeFromString (parseArg arg (chars "--transport=")) with
    | inl mode => inl (set_transport mode, outDir)
    | inr what => inr (Uncaught what)
    end
  else if nonempty (parseArg arg (chars "--seed=")) then
    inl (set_seed (uint32_wrap (strtoul (parseArg arg (chars "--seed=")))), outDir)
  else if nonempty (parseArg arg (chars "--grid-size=")) then
    inl (set_grid_size (int_wrap (strtol (parseArg arg (chars "--grid-size=")))),
         outDir)
  else if nonempty (parseArg arg (chars "--radius-fraction=")) then
    inl (set_city_radius (strtod (parseArg arg (chars "--radius-fraction="))),
         outDir)
  else if nonempty (parseArg arg (chars "--format=")) then
    match exportFormatFromString (parseArg arg (chars "--format=")) with
    | inl fmt => inl (set_export_format fmt, outDir)
    | inr what => inr (Failure what)
    end
  else if nonempty (parseArg arg (chars "--output=")) then
    inl (cfg, parseArg arg (chars "--output="))
  else if equals arg "--help" || equals arg "-h" then inr Usage
  else inr (Failure (chars "Unknown argument: " ++ arg)).

(** The loop over [argv[1 ..]]. *)
Fixpoint parseArgs (st : Config.t * list ascii) (args : list (list ascii))
  : Config.t * list ascii + Exit :=
  match args with
  | [] => inl st
  | arg :: args' =>
      match parseStep st arg with
      | inl st' => parseArgs st' args'
      | inr e => inr e
      end
  end.

(** [main] without the generator: the configuration handed to
    [CityGenerator::generate] and the save calls made on its result, or
    the way out before it.  [std::filesystem::create_directories] and
    the generator itself lie between the two and are not modelled. *)
Definition main (args : list (list ascii)) : Config.t * list SaveCall + Exit :=
  match parseArgs (Config.initial, []) args with
  | inr e => inr e
  | inl (cfg, outDir) =>
      if nonempty outDir then inl (cfg, saveCalls (Config.export_format cfg) outDir)
      else inr (Failure (chars "Error: --output=<dir> must be specified"))
  end.

End CommandLine.

(** ** Vocabulary of the statements *)

Definition dot (a b : Vec3.t) : R :=
  Vec3.x a * Vec3.x b + Vec3.y a * Vec3.y b + Vec3.z a * Vec3.z b.

Definition vsub (a b : Vec3.t) : Vec3.t :=
  Vec3.mk (Vec3.x a - Vec3.x b) (Vec3.y a - Vec3.y b) (Vec3.z a - Vec3.z b).

Definition vadd (a b : Vec3.t) : Vec3.t :=
  Vec3.mk (Vec3.x a + Vec3.x b) (Vec3.y a + Vec3.y b) (Vec3.z a + Vec3.z b).

Definition vopp (a : Vec3.t) : Vec3.t :=
  Vec3.mk (- Vec3.x a) (- Vec3.y a) (- Vec3.z a).

(** The centroid of a box: the mean of its eight corners. *)
Definition centroid (ps : list Vec3.t) : Vec3.t :=
  let s := fold_right vadd (Vec3.mk 0 0 0) ps in
  let n := INR (length ps) in
  Vec3.mk (Vec3.x s / n) (Vec3.y s / n) (Vec3.z s / n).

Definition triNormal (t : Triangle) : Vec3.t := snd t.
Definition triCorners (t : Triangle) : list Vec3.t :=
  let '(p0, p1, p2, _) := t in [p0; p1; p2].

(** The normal of a triangle points away from [c]: it has a positive
    dot product with the vector from [c] to each corner of the
    triangle, hence to every point of the face. *)
Definition outward (c : Vec3.t) (t : Triangle) : Prop :=
  Forall (fun p => 0 < dot (triNormal t) (vsub p c)) (triCorners t).

Definition isV (l : ObjLine) : bool := match l with V _ _ _ => true | _ => false end.
Definition isF (l : ObjLine) : bool := match l with F _ _ _ => true | _ => false end.

(** Vertex and face records carry the geometry of the text export;
    [mtllib] and [usemtl] lines do not. *)
Definition isGeometry (l : ObjLine) : bool := isV l || isF l.


Definition countV (l : list ObjLine) : Z := Z.of_nat (length (List.filter isV l)).
Definition countF (l : list ObjLine) : Z := Z.of_nat (length (List.filter isF l)).

(** A face index refers to one of the eight vertices written last:
    with [seen] vertex lines before the face record, the box began at
    the 1-based index [seen - 7] and the counter stands at [seen + 1]. *)
Definition inBox (seen i : Z) : Prop := (1 <= i /\ seen - 7 <= i < seen + 1)%Z.

(** Scan of the file: [seen] counts the vertex lines read so far. *)
Fixpoint facesInRange (seen : Z) (l : list ObjLine) : Prop :=
  match l with
  | [] => True
  | V _ _ _ :: l' => facesInRange (seen + 1) l'
  | F i j k :: l' =>
      inBox seen i /\ inBox seen j /\ inBox seen k /\ facesInRange seen l'
  | _ :: l' => facesInRange seen l'
  end.


(** The state of the text export after [n] boxes. *)
Definition objInv (n : Z) (st : ObjState) : Prop :=
  vertexOffset st = (1 + 8 * n)%Z /\
  countV (ofs st) = (8 * n)%Z /\
  countF (ofs st) = (12 * n)%Z /\
  facesInRange 0 (ofs st).

(** The distance between the endpoints of a road segment, as both
    exporters compute it. *)
Definition roadLength (road : RoadSegment.t) : R :=
  let dx := RoadSegment.x2 road - RoadSegment.x1 road in
  let dy := RoadSegment.y2 road - RoadSegment.y1 road in
  sqrt (dx * dx + dy * dy).

(** The same city with another list of roads. *)
Definition withRoads (c : City.t) (rs : list RoadSegment.t) : City.t :=
  City.mk (City.size c) (City.zones c) (City.buildings c) (City.facilities c)
          rs (City.blocks c).

(** Two states of the text export that agree on the counter and on
    the vertex and face records. *)
Definition sameGeometry (st1 st2 : ObjState) : Prop :=
  vertexOffset st1 = vertexOffset st2 /\
  List.filter isGeometry (ofs st1) = List.filter isGeometry (ofs st2).

(** A palette entry survives the filter of [saveGLTF] when its buffer
    exists and holds at least one index. *)
Definition receivedTriangles (meshByMaterial : gmap string MeshBuffer)
    (def : MaterialDef) : bool :=
  match meshByMaterial !! name def with
  | Some buf => match indices buf with [] => false | _ :: _ => true end
  | None => false
  end.


(** The Euclidean distance of the plane. *)
Definition dist (x y : R) (p : R * R) : R :=
  sqrt ((x - fst p) * (x - fst p) + (y - snd p) * (y - snd p)).

(** [v] is the least (greatest) element of the list [l]. *)
Definition isLeast (v : R) (l : list R) : Prop := In v l /\ forall u, In u l -> v <= u.
Definition isGreatest (v : R) (l : list R) : Prop := In v l /\ forall u, In u l -> u <= v.

Definition isResidential (b : Building.t) : bool :=
  match Building.zone b with Residential => true | _ => false end.

(** The distance from the centre of the footprint of [b] to the
    nearest of [pts], as [saveSummary] asks [nearest] for it. *)
Definition nearestTo (pts : list (R * R)) (b : Building.t) : R :=
  SaveSummary.nearest (Rect.centreX (Building.footprint b))
                      (Rect.centreY (Building.footprint b)) pts.

(** The distances from the centre of the footprint of [b] to each of
    [pts]. *)
Definition distancesTo (pts : list (R * R)) (b : Building.t) : list R :=
  map (dist (Rect.centreX (Building.footprint b))
            (Rect.centreY (Building.footprint b))) pts.

(** The entry of the report for one kind of facility. *)
Definition maxDistanceTo (kind : Facility.Type_) (s : SaveSummary.Summary) : R :=
  match kind with
  | Facility.School => SaveSummary.maxDistanceToSchool s
  | Facility.Hospital => SaveSummary.maxDistanceToHospital s
  end.


(** The boxes (rectangle, base elevation, top elevation) that the
    archetype closures [emitStandard], [emitPark], [emitSchool] and
    [emitHospital] hand to the box writer, in order.  The closures are
    written twice in the source, once per exporter; this list is the
    common reading against which both copies are compared. *)
Definition archetypeBoxes (b : Building.t) : list (Rect.t * R * R) :=
  let fp := Building.footprint b in
  let w := Rect.width fp in
  let h := Rect.height fp in
  let wide := Rgeb w h in
  let standard := [(fp, 0.0, Rmax 1.0 (IZR (Building.height b)))] in
  let park :=
    let lawn := insetRect fp (Rmin w h * 0.08) in
    let padHeight := 0.08 in
    let planterSize :=
      clamp (Rmin (Rect.width lawn) (Rect.height lawn) * 0.2) 0.2
            (Rmin (Rect.width lawn) (Rect.height lawn) * 0.45) in
    [ (lawn, 0.0, padHeight);
      (Rect.mk (Rect.x0 lawn) (Rect.y0 lawn)
               (Rect.x0 lawn + planterSize) (Rect.y0 lawn + planterSize),
       padHeight, padHeight + padHeight * 2.5);
      (Rect.mk (Rect.x1 lawn - planterSize) (Rect.y1 lawn - planterSize)
               (Rect.x1 lawn) (Rect.y1 lawn),
       padHeight, padHeight + padHeight * 2.5) ] in
  let school :=
    let bx0 := Rect.x0 fp + w * 0.08 in
    let by0 := Rect.y0 fp + h * (if wide then 0.2 else 0.08) in
    let bx := shiftInside bx0 (bx0 + (if wide then w * 0.45 else w * 0.6))
                          (Rect.x1 fp - w * 0.05) in
    let by_ := shiftInside by0 (by0 + (if wide then h * 0.6 else h * 0.45))
                           (Rect.y1 fp - h * 0.05) in
    [ (insetRect fp (Rmin w h * 0.07), 0.0, 0.05);
      (Rect.mk (fst bx) (fst by_) (snd bx) (snd by_), 0.0,
       Rmax 2.0 (IZR (Building.height b))) ] in
  let hospital :=
    let podiumTop := Rmax 1.2 (IZR (Building.height b) * 0.25) in
    let cx := Rect.centreX fp in
    let cy := Rect.centreY fp in
    let mainW := if wide then w * 0.7 else w * 0.45 in
    let mainH := if wide then h * 0.45 else h * 0.7 in
    let mainTop := Rmax (podiumTop + 2.0) (IZR (Building.height b)) in
    let wingW := if wide then w * 0.28 else w * 0.85 in
    let wingH := if wide then h * 0.85 else h * 0.28 in
    [ (insetRect fp (Rmin w h * 0.08), 0.0, podiumTop);
      (Rect.mk (cx - mainW * 0.5) (cy - mainH * 0.5)
               (cx + mainW * 0.5) (cy + mainH * 0.5), podiumTop, mainTop);
      (Rect.mk (cx - wingW * 0.5) (cy - wingH * 0.5)
               (cx + wingW * 0.5) (cy + wingH * 0.5), podiumTop,
       Rmax (podiumTop + 1.2) (mainTop * 0.9)) ] in
  match Building.zone b with
  | ZNone => []
  | Green => park
  | _ =>
      if Building.facility b then
        match Building.facilityType b with
        | Facility.Hospital => hospital
        | Facility.School => school
        end
      else standard
  end.

Definition writeBox (st : ObjState) (box : Rect.t * R * R) : ObjState :=
  let '(r, baseZ, topZ) := box in writeRectPrism st r baseZ topZ.

Definition appendBox (mat : string) (m : gmap string MeshBuffer)
    (box : Rect.t * R * R) : gmap string MeshBuffer :=
  let '(r, baseZ, topZ) := box in SaveGLTF.appendTo m mat r baseZ topZ.

(** The half-width offset of a road: the unit normal of the segment
    scaled by half the width of its type. *)
Definition roadOffset (road : RoadSegment.t) : R * R :=
  let dx := RoadSegment.x2 road - RoadSegment.x1 road in
  let dy := RoadSegment.y2 road - RoadSegment.y1 road in
  let invLen := 1.0 / roadLength road in
  let halfWidth := 0.5 * roadWidth (RoadSegment.type road) in
  (- dy * invLen * halfWidth, dx * invLen * halfWidth).

(** The base of the road box of the text export: the centreline moved
    to both sides by the offset. *)
Definition roadQuad (road : RoadSegment.t) : Base :=
  let '(hx, hy) := roadOffset road in
  {| base0 := (RoadSegment.x1 road + hx, RoadSegment.y1 road + hy);
     base1 := (RoadSegment.x1 road - hx, RoadSegment.y1 road - hy);
     base2 := (RoadSegment.x2 road - hx, RoadSegment.y2 road - hy);
     base3 := (RoadSegment.x2 road + hx, RoadSegment.y2 road + hy) |}.

(** The base of the road box of the binary export: the axis-aligned
    rectangle spanned by the first and third corner of [roadQuad]. *)
Definition roadRect (road : RoadSegment.t) : Rect.t :=
  let '(hx, hy) := roadOffset road in
  let bx := SaveGLTF.swapIfGt (RoadSegment.x1 road + hx) (RoadSegment.x2 road - hx) in
  let by_ := SaveGLTF.swapIfGt (RoadSegment.y1 road + hy) (RoadSegment.y2 road - hy) in
  Rect.mk (fst bx) (fst by_) (snd bx) (snd by_).

(** The corners of a base, as a list. *)
Definition baseCorners (b : Base) : list (R * R) :=
  [base0 b; base1 b; base2 b; base3 b].

(** A road that is not parallel to an axis. *)
Definition diagonalRoad : RoadSegment.t := RoadSegment.mk 0 0 3 4 Local.


(** The container of a binary export (empty for the pair of files). *)
Definition glbOf (g : GltfFiles) : list byte :=
  match g with GlbFile file => file | GltfPair _ _ => [] end.


(** A city of 4,300,000 one-box residential buildings on a grid of
    2100 x 2100 cells: its packed buffer is larger than 4 GiB. *)
Definition unitBlock : Building.t :=
  Building.mk (Rect.mk 0 0 1 1) Residential 3 false Facility.Hospital.

Definition crowdedCity : City.t :=
  City.mk 2100 (repeat Residential (Z.to_nat (2100 * 2100)))
          (repeat unitBlock (Z.to_nat 4300000)) [] [] [].

(** Stand-ins for the two parameters of [saveGLTF] where a concrete
    instance is needed: four bytes per [float], and a JSON text. *)
Definition fourBytes (_ : R) : list byte :=
  [Byte.x00; Byte.x00; Byte.x00; Byte.x00].

Definition braces (_ : list MaterialDef) (_ : list MeshPrimitive)
    (_ : list AccessorInfo) (_ : list ViewInfo) (_ : Z) (_ : option string)
  : list byte :=
  [Byte.x7b; Byte.x7d].

(** The buffers hold [k] boxes, all under [mat_residential]. *)
Definition residentialBoxes (k : Z) (m : gmap string MeshBuffer) : Prop :=
  (forall key, key <> "mat_residential" -> m !! key = None) /\
  (0 < k -> m !! "mat_residential" <> None)%Z /\
  let buf := default emptyMeshBuffer (m !! "mat_residential") in
  Z.of_nat (length (positions buf)) = (108 * k)%Z /\
  Z.of_nat (length (normals buf)) = (108 * k)%Z /\
  Z.of_nat (length (indices buf)) = (36 * k)%Z.


(** The largest inset that [insetRect] applies. *)
Definition maxInset (r : Rect.t) : R := Rmin (Rect.width r) (Rect.height r) * 0.49.


(** The boxes of one road segment in the text export: none for a
    degenerate segment, the oriented box otherwise. *)
Definition roadBoxes (road : RoadSegment.t) : list Base :=
  if Rlt_dec (roadLength road) 1e-6 then [] else [roadQuad road].

(** The number of boxes that [saveOBJ] emits for a city. *)
Definition objBoxCount (c : City.t) : Z :=
  (Z.of_nat (length (flat_map archetypeBoxes (City.buildings c)))
   + Z.of_nat (length (flat_map roadBoxes (City.roads c))))%Z.


(** The cities of the scenarios of the specification. *)
Definition oneHouse : City.t :=
  City.mk 2 [Residential; ZNone; ZNone; ZNone]
    [Building.mk (Rect.mk 0 0 1 1) Residential 3 false Facility.Hospital]
    [] [] [].

Definition onePark : City.t :=
  City.mk 2 [Green; Green; Green; Green]
    [Building.mk (Rect.mk 0 0 2 2) Green 0 false Facility.Hospital] [] [] [].

Definition arterialRoad : RoadSegment.t := RoadSegment.mk 0 0 10 0 Arterial.


(** The vertex records of one box in the text export: the corners of
    the box of the binary export with the remap (x,y,z) -> (x,z,y)
    undone. *)
Definition boxVertices (box : Rect.t * R * R) : list ObjLine :=
  let '(r, baseZ, topZ) := box in
  map (fun p => V (Vec3.x p) (Vec3.z p) (Vec3.y p)) (prismCorners r baseZ topZ).


(** One residential building with its centre at (1,1) and two schools,
    at distance 5 and at distance 2. *)
Definition twoSchools : City.t :=
  City.mk 2 [Residential; ZNone; ZNone; ZNone]
    [Building.mk (Rect.mk 0 0 2 2) Residential 3 false Facility.Hospital]
    [Facility.mk 4 5 Facility.School; Facility.mk 1 3 Facility.School] [] [].


(** Counting by zone and by kind, for the statements on the summary. *)
Definition zone_eqb (a b : ZoneType) : bool :=
  match a, b with
  | ZNone, ZNone | Residential, Residential | Commercial, Commercial
  | Industrial, Industrial | Green, Green => true
  | _, _ => false
  end.

Definition countZone (z : ZoneType) (l : list ZoneType) : Z :=
  Z.of_nat (length (List.filter (zone_eqb z) l)).

(** A building that the summary counts: neither undeveloped nor a park. *)
Definition isBuilt (b : Building.t) : bool :=
  match Building.zone b with ZNone | Green => false | _ => true end.

Definition inZone (z : ZoneType) (b : Building.t) : bool :=
  zone_eqb z (Building.zone b).

Definition isKind (kind : Facility.Type_) (f : Facility.t) : bool :=
  match Facility.type f, kind with
  | Facility.School, Facility.School
  | Facility.Hospital, Facility.Hospital => true
  | _, _ => false
  end.

(** The entry of the report with the greatest height of a zone. *)
Definition maxHeightOf (z : ZoneType) (s : SaveSummary.Summary) : Z :=
  match z with
  | Residential => SaveSummary.maxResidentialHeight s
  | Commercial => SaveSummary.maxCommercialHeight s
  | Industrial => SaveSummary.maxIndustrialHeight s
  | _ => 0%Z
  end.


(** The same city with another list of facilities. *)
Definition withFacilities (c : City.t) (fs : list Facility.t) : City.t :=
  City.mk (City.size c) (City.zones c) (City.buildings c) fs
          (City.roads c) (City.blocks c).


(** A grid whose vector of zones has [size * size] entries, with a
    size whose square is an [int]. *)
Definition gridOk (c : City.t) : Prop :=
  (0 <= City.size c)%Z /\ (City.size c * City.size c < 2 ^ 31)%Z /\
  Z.of_nat (length (City.zones c)) = (City.size c * City.size c)%Z.

Definition inGrid (c : City.t) (x y : Z) : Prop :=
  (0 <= x < City.size c)%Z /\ (0 <= y < City.size c)%Z.


(** The vertices held by a flat array of coordinates, three by three. *)
Fixpoint vertices (l : list R) : list Vec3.t :=
  match l with
  | x :: y :: z :: l' => Vec3.mk x y z :: vertices l'
  | _ => []
  end.

Definition coords (p : Vec3.t) : list R := [Vec3.x p; Vec3.y p; Vec3.z p].

(** A buffer as [appendTriangle] builds it: three coordinates and three
    normal components per index, and the indices count the vertices in
    the order of their insertion (as long as they fit 32 bits). *)
Definition trianglesOk (buf : MeshBuffer) : Prop :=
  length (positions buf) = (3 * length (indices buf))%nat /\
  length (normals buf) = (3 * length (indices buf))%nat /\
  (exists k, length (indices buf) = (3 * k)%nat) /\
  ((Z.of_nat (length (indices buf)) <= 2 ^ 32)%Z ->
   indices buf = map Z.of_nat (seq 0 (length (indices buf)))).

(** The tracked bounds of a buffer are the bounding box of the
    vertices [vs]. *)
Definition boundsOf (vs : list Vec3.t) (buf : MeshBuffer) : Prop :=
  hasBounds buf = true /\
  isLeast (fst (fst (minPos buf))) (map Vec3.x vs) /\
  isLeast (snd (fst (minPos buf))) (map Vec3.y vs) /\
  isLeast (snd (minPos buf)) (map Vec3.z vs) /\
  isGreatest (fst (fst (maxPos buf))) (map Vec3.x vs) /\
  isGreatest (snd (fst (maxPos buf))) (map Vec3.y vs) /\
  isGreatest (snd (maxPos buf)) (map Vec3.z vs).

(** A buffer with its vertices [vs]: either untouched, or bounded. *)
Definition bufferOk (vs : list Vec3.t) (buf : MeshBuffer) : Prop :=
  positions buf = flat_map coords vs /\
  ((hasBounds buf = false /\ vs = []) \/ (vs <> [] /\ boundsOf vs buf)).

(** The number of indices over the materials of the palette. *)
Definition indexCount (m : gmap string MeshBuffer) (defs : list MaterialDef) : nat :=
  list_sum (map (fun def =>
                   length (indices (default emptyMeshBuffer (m !! name def))))
                defs).


(** What holds of every buffer of [meshByMaterial]: it is built of
    whole boxes, at least one, and its bounds are those of its
    vertices. *)
Definition meshOk (buf : MeshBuffer) : Prop :=
  trianglesOk buf /\
  (exists k, (0 < k)%nat /\ length (indices buf) = (36 * k)%nat) /\
  exists vs, vs <> [] /\ bufferOk vs buf.


(** The bytes of one buffer in the packed file: positions, normals,
    indices. *)
Definition chunkOf (float_le : R -> list byte) (buf : MeshBuffer) : list byte :=
  floatBytes float_le (positions buf) ++ floatBytes float_le (normals buf)
    ++ indexBytes (indices buf).

Definition chunkAt (float_le : R -> list byte) (m : gmap string MeshBuffer)
    (def : MaterialDef) : list byte :=
  chunkOf float_le (default emptyMeshBuffer (m !! name def)).

(** The bytes that a buffer view selects. *)
Definition viewBytes (bin : list byte) (v : ViewInfo) : list byte :=
  firstn (Z.to_nat (length_ v)) (skipn (Z.to_nat (offset v)) bin).

(** Three views laid end to end from the offset [o], and the three
    accessors that refer to the views [v], [v + 1] and [v + 2]. *)
Definition viewsOf (o : Z) (buf : MeshBuffer) : list ViewInfo :=
  let np := (4 * Z.of_nat (length (positions buf)))%Z in
  let nn := (4 * Z.of_nat (length (normals buf)))%Z in
  let ni := (4 * Z.of_nat (length (indices buf)))%Z in
  [ mkViewInfo o np 34962; mkViewInfo (o + np) nn 34962;
    mkViewInfo (o + np + nn) ni 34963 ].

Definition accessorsOf (v : Z) (buf : MeshBuffer) : list AccessorInfo :=
  [ mkAccessorInfo v (Z.of_nat (length (positions buf)) / 3) 5126 "VEC3"
      (hasBounds buf)
      (if hasBounds buf then minPos buf else (0, 0, 0))
      (if hasBounds buf then maxPos buf else (0, 0, 0));
    mkAccessorInfo (v + 1) (Z.of_nat (length (normals buf)) / 3) 5126 "VEC3"
      false (0, 0, 0) (0, 0, 0);
    mkAccessorInfo (v + 2) (Z.of_nat (length (indices buf))) 5125 "SCALAR"
      false (0, 0, 0) (0, 0, 0) ].

(** The [i]-th material of the list is packed: its arrays lie in the
    buffer at an aligned offset, the views [3i .. 3i+2] select them,
    the accessors [3i .. 3i+2] refer to these views and the [i]-th
    primitive to these accessors. *)
Definition packedAt (float_le : R -> list byte) (m : gmap string MeshBuffer)
    (idx : gmap string Z) (st : PackState) (i : nat) (def : MaterialDef) : Prop :=
  exists buf pre post,
    m !! name def = Some buf /\
    binData st = pre ++ chunkOf float_le buf ++ post /\
    (Z.of_nat (length pre) mod 4 = 0)%Z /\
    firstn 3 (skipn (3 * i) (views st)) = viewsOf (Z.of_nat (length pre)) buf /\
    firstn 3 (skipn (3 * i) (accessors st)) = accessorsOf (Z.of_nat (3 * i)) buf /\
    primitives st !! i =
      Some (mkMeshPrimitive (Z.of_nat (3 * i)) (Z.of_nat (3 * i) + 1)
              (Z.of_nat (3 * i) + 2) (default 0%Z (idx !! name def)) (name def)).

(** The packing loop after the materials [done]. *)
Definition packInv (float_le : R -> list byte) (m : gmap string MeshBuffer)
    (idx : gmap string Z) (done : list MaterialDef) (st : PackState) : Prop :=
  binData st = concat (map (chunkAt float_le m) done) /\
  length (views st) = (3 * length done)%nat /\
  length (accessors st) = (3 * length done)%nat /\
  length (primitives st) = length done /\
  forall i def, done !! i = Some def -> packedAt float_le m idx st i def.

(** Every material of the list has the index of its place. *)
Definition indexedBy (acc : list MaterialDef * gmap string Z) : Prop :=
  forall i def, fst acc !! i = Some def -> snd acc !! name def = Some (Z.of_nat i).


(** A box has positive extent along the three axes and does not reach
    below the ground. *)
Definition solid (box : Rect.t * R * R) : Prop :=
  let '(r, baseZ, topZ) := box in
  Rect.x0 r < Rect.x1 r /\ Rect.y0 r < Rect.y1 r /\ 0 <= baseZ < topZ.

(** The footprint of a box lies in the rectangle [fp]. *)
Definition insideOf (fp : Rect.t) (box : Rect.t * R * R) : Prop :=
  let '(r, _, _) := box in
  Rect.x0 fp <= Rect.x0 r /\ Rect.x0 r <= Rect.x1 r /\ Rect.x1 r <= Rect.x1 fp /\
  Rect.y0 fp <= Rect.y0 r /\ Rect.y0 r <= Rect.y1 r /\ Rect.y1 r <= Rect.y1 fp.

(** The distance between two points of the plane. *)
Definition dist2 (p q : R * R) : R := dist (fst p) (snd p) q.

(** The two endpoints of a road segment. *)
Definition roadStart (road : RoadSegment.t) : R * R :=
  (RoadSegment.x1 road, RoadSegment.y1 road).
Definition roadEnd (road : RoadSegment.t) : R * R :=
  (RoadSegment.x2 road, RoadSegment.y2 road).

(** The point half-way between two points. *)
Definition midpoint (p q : R * R) : R * R :=
  ((fst p + fst q) / 2, (snd p + snd q) / 2).

(** The boxes of a park whose planters have the side [s]. *)
Definition parkBoxes (lawn : Rect.t) (s : R) : list (Rect.t * R * R) :=
  [ (lawn, 0.0, 0.08);
    (Rect.mk (Rect.x0 lawn) (Rect.y0 lawn) (Rect.x0 lawn + s) (Rect.y0 lawn + s),
     0.08, 0.08 + 0.08 * 2.5);
    (Rect.mk (Rect.x1 lawn - s) (Rect.y1 lawn - s) (Rect.x1 lawn) (Rect.y1 lawn),
     0.08, 0.08 + 0.08 * 2.5) ].

(** The boxes of a school whose building is not shifted. *)
Definition schoolBoxes (b : Building.t) : list (Rect.t * R * R) :=
  let fp := Building.footprint b in
  let w := Rect.width fp in
  let h := Rect.height fp in
  let wide := Rgeb w h in
  let bx0 := Rect.x0 fp + w * 0.08 in
  let by0 := Rect.y0 fp + h * (if wide then 0.2 else 0.08) in
  [ (insetRect fp (Rmin w h * 0.07), 0.0, 0.05);
    (Rect.mk bx0 by0 (bx0 + (if wide then w * 0.45 else w * 0.6))
                     (by0 + (if wide then h * 0.6 else h * 0.45)),
     0.0, Rmax 2.0 (IZR (Building.height b))) ].


(** No character of [s] is one of [set]. *)
Definition freeOf (set : list ascii) (s : list ascii) : Prop :=
  Forall (fun c => isOneOf set c = false) s.

(** The directory part of a path: what [filenameOnly] cuts off. *)
Definition dirOf (path : list ascii) : list ascii :=
  firstn (length path - length (filenameOnly path)) path.

(** A directory prefix is empty or ends with a separator. *)
Definition isDir (dir : list ascii) : Prop :=
  dir = [] \/ exists d c, dir = d ++ [c] /\ isOneOf separators c = true.

Definition dotChar : ascii := Ascii.ascii_of_nat 46.


(** The material names that a model file uses and those that a
    material library defines, in the order of the lines. *)
Definition usedMaterials (l : list ObjLine) : list string :=
  flat_map (fun x => match x with Usemtl n => [n] | _ => [] end) l.

Definition definedMaterials (l : list MtlLine) : list string :=
  flat_map (fun x => match x with Newmtl n => [n] | _ => [] end) l.

(** The [usemtl] lines of a city: one for each building with a zone,
    then one for each road. *)
Definition buildingMaterial (b : Building.t) : list string :=
  match Building.zone b with
  | ZNone => []
  | z => [materialForZone z]
  end.

Definition usemtlSequence (c : City.t) : list string :=
  flat_map buildingMaterial (City.buildings c)
  ++ map (fun _ => "mat_road") (City.roads c).

(** Two states of the text export, the first with one more line at
    the head of the stream. *)
Definition aheadBy (x : ObjLine) (st1 st2 : ObjState) : Prop :=
  ofs st1 = x :: ofs st2 /\ vertexOffset st1 = vertexOffset st2.


(** The ranges that [normalize] establishes. *)
Definition configOk (c : Config.t) : Prop :=
  (0 <= Config.population c)%Z /\ (10 <= Config.grid_size c)%Z /\
  0 < Config.city_radius c <= 1 /\
  (0 <= Config.hospitals c)%Z /\ (0 <= Config.schools c)%Z /\
  0 <= Config.green_m2_per_capita c.

(** The options of the command line that take a value. *)
Definition knownKeys : list (list ascii) :=
  map chars
    [ "--population="; "--hospitals="; "--schools="; "--transport="; "--seed=";
      "--grid-size="; "--radius-fraction="; "--format="; "--output=" ].

(** The value of the last [--output=] option with a value, [d] when
    there is none. *)
Definition outputOf (args : list (list ascii)) (d : list ascii) : list ascii :=
  fold_left
    (fun d arg =>
       if nonempty (parseArg arg (chars "--output=")) then
         parseArg arg (chars "--output=")
       else d)
    args d.


(** The vector product, and the normal that the order of the corners
    of a triangle gives by the right-hand rule (the front side of a
    counter-clockwise triangle). *)
Definition cross (a b : Vec3.t) : Vec3.t :=
  Vec3.mk (Vec3.y a * Vec3.z b - Vec3.z a * Vec3.y b)
          (Vec3.z a * Vec3.x b - Vec3.x a * Vec3.z b)
          (Vec3.x a * Vec3.y b - Vec3.y a * Vec3.x b).

Definition windingNormal (p0 p1 p2 : Vec3.t) : Vec3.t :=
  cross (vsub p1 p0) (vsub p2 p0).

Definition scale (k : R) (a : Vec3.t) : Vec3.t :=
  Vec3.mk (k * Vec3.x a) (k * Vec3.y a) (k * Vec3.z a).

(** The corners of a triangle are listed clockwise for who looks at
    it from outside the solid around [c]: the normal of the winding
    points towards [c]. *)
Definition woundInward (c p0 p1 p2 : Vec3.t) : Prop :=
  Forall (fun p => dot (windingNormal p0 p1 p2) (vsub p c) < 0) [p0; p1; p2].

(** The vertices of a model file, and the corners that a face record
    refers to by their 1-based numbers. *)
Definition vertexList (l : list ObjLine) : list Vec3.t :=
  flat_map (fun x => match x with V x y z => [Vec3.mk x y z] | _ => [] end) l.

Definition faceCorners (vs : list Vec3.t) (f : ObjLine)
  : option (Vec3.t * Vec3.t * Vec3.t) :=
  match f with
  | F i j k =>
      match vs !! Z.to_nat (i - 1), vs !! Z.to_nat (j - 1), vs !! Z.to_nat (k - 1) with
      | Some a, Some b, Some c => Some (a, b, c)
      | _, _, _ => None
      end
  | _ => None
  end.

(** The corners of a box in the coordinates of the layout. *)
Definition boxCorners (r : Rect.t) (baseZ topZ : R) : list Vec3.t :=
  [ Vec3.mk (Rect.x0 r) (Rect.y0 r) baseZ; Vec3.mk (Rect.x1 r) (Rect.y0 r) baseZ;
    Vec3.mk (Rect.x1 r) (Rect.y1 r) baseZ; Vec3.mk (Rect.x0 r) (Rect.y1 r) baseZ;
    Vec3.mk (Rect.x0 r) (Rect.y0 r) topZ; Vec3.mk (Rect.x1 r) (Rect.y0 r) topZ;
    Vec3.mk (Rect.x1 r) (Rect.y1 r) topZ; Vec3.mk (Rect.x0 r) (Rect.y1 r) topZ ].


(** The number of boxes that a city gives to the material [n]. *)
Definition boxesOf (n : string) (c : City.t) : nat :=
  (length
     (flat_map
        (fun b =>
           if decide (materialForZone (Building.zone b) = n) then archetypeBoxes b
           else [])
        (City.buildings c))
   + (if decide (n = "mat_road") then length (flat_map roadBoxes (City.roads c))
      else 0))%nat.

(** The number of indices under the name [n]. *)
Definition indicesOf (m : gmap string MeshBuffer) (n : string) : nat :=
  length (indices (default emptyMeshBuffer (m !! n))).

(** * Properties *)

(** ** Rectangle inset *)

Section InsetRect.

Variable r : Rect.t.
Hypothesis width_nonneg : 0 <= Rect.width r.
Hypothesis height_nonneg : 0 <= Rect.height r.

Lemma maxInset_nonneg : 0 <= maxInset r.
Proof using width_nonneg height_nonneg.
  unfold maxInset, Rmin. destruct (Rle_dec _ _); lra.
Qed.

Lemma clamp_inset_range (k : R) : 0 <= clamp k 0 (maxInset r) <= maxInset r.
Proof using width_nonneg height_nonneg.
  pose proof maxInset_nonneg as Hm. unfold clamp.
  destruct (Rlt_dec k 0); [lra|].
  destruct (Rlt_dec (maxInset r) k); lra.
Qed.

Lemma insetRect_width (k : R) :
  Rect.width (insetRect r k) = Rect.width r - 2 * clamp k 0 (maxInset r).
Proof using Type.
  unfold maxInset, insetRect, Rect.width.
  cbn [Rect.x0 Rect.x1 Rect.y0 Rect.y1]. lra.
Qed.

Lemma insetRect_height (k : R) :
  Rect.height (insetRect r k) = Rect.height r - 2 * clamp k 0 (maxInset r).
Proof using Type.
  unfold maxInset, insetRect, Rect.height.
  cbn [Rect.x0 Rect.x1 Rect.y0 Rect.y1]. lra.
Qed.

Lemma maxInset_le_width : maxInset r <= 0.49 * Rect.width r.
Proof using Type. unfold maxInset, Rmin. destruct (Rle_dec _ _); lra. Qed.

Lemma maxInset_le_height : maxInset r <= 0.49 * Rect.height r.
Proof using Type. unfold maxInset, Rmin. destruct (Rle_dec _ _); lra. Qed.

End InsetRect.

(** C3.  For a rectangle of non-negative width and height and an inset
    amount [k >= 0], the inset that [insetRect] applies to the four
    bounds is [k] clamped to [[0, 0.49 * min(width, height)]]; the
    result keeps at least 2% of the width and of the height, and its
    bounds are not inverted. *)
Theorem insetRect_clamped (r : Rect.t) (k : R) :
  0 <= Rect.width r -> 0 <= Rect.height r -> 0 <= k ->
  let applied := clamp k 0 (Rmin (Rect.width r) (Rect.height r) * 0.49) in
  insetRect r k =
    Rect.mk (Rect.x0 r + applied) (Rect.y0 r + applied)
            (Rect.x1 r - applied) (Rect.y1 r - applied) /\
  0 <= applied <= 0.49 * Rmin (Rect.width r) (Rect.height r) /\
  0.02 * Rect.width r <= Rect.width (insetRect r k) /\
  0.02 * Rect.height r <= Rect.height (insetRect r k) /\
  Rect.x0 (insetRect r k) <= Rect.x1 (insetRect r k) /\
  Rect.y0 (insetRect r k) <= Rect.y1 (insetRect r k).
Proof.
  intros Hw Hh Hk applied.
  pose proof (clamp_inset_range r Hw Hh k) as Hc.
  pose proof (maxInset_le_width r) as Hmw.
  pose proof (maxInset_le_height r) as Hmh.
  pose proof (insetRect_width r k) as Ew.
  pose proof (insetRect_height r k) as Eh.
  unfold maxInset in Hc, Ew, Eh, Hmw, Hmh. fold applied in Hc, Ew, Eh.
  assert (Hw' : 0.02 * Rect.width r <= Rect.width (insetRect r k)) by lra.
  assert (Hh' : 0.02 * Rect.height r <= Rect.height (insetRect r k)) by lra.
  split; [reflexivity|].
  split; [lra|].
  split; [exact Hw'|]. split; [exact Hh'|].
  unfold Rect.width, Rect.height in *. split; lra.
Qed.

Lemma insetRect_clamped_witness :
  let r := Rect.mk 0 0 4 2 in
  (0 <= Rect.width r /\ 0 <= Rect.height r /\ 0 <= 10) /\
  0.02 * Rect.width r <= Rect.width (insetRect r 10) /\
  0.02 * Rect.height r <= Rect.height (insetRect r 10).
Proof.
  intros r0.
  assert (Hw : 0 <= Rect.width r0) by (unfold Rect.width; simpl; lra).
  assert (Hh : 0 <= Rect.height r0) by (unfold Rect.height; simpl; lra).
  assert (Hk : 0 <= 10) by lra.
  split; [tauto|].
  pose proof (insetRect_clamped r0 10 Hw Hh Hk) as H.
  simpl in H. tauto.
Defined.

(** C9.  The inset keeps the centre of the rectangle where it was. *)
Theorem insetRect_centre (r : Rect.t) (k : R) :
  0 <= Rect.width r -> 0 <= Rect.height r ->
  Rect.centreX (insetRect r k) = Rect.centreX r /\
  Rect.centreY (insetRect r k) = Rect.centreY r.
Proof.
  intros _ _. unfold Rect.centreX, Rect.centreY, insetRect.
  cbn [Rect.x0 Rect.x1 Rect.y0 Rect.y1]. split; lra.
Qed.

Lemma insetRect_centre_witness :
  let r := Rect.mk 0 0 4 2 in
  (0 <= Rect.width r /\ 0 <= Rect.height r) /\
  Rect.centreX (insetRect r 1) = Rect.centreX r /\
  Rect.centreY (insetRect r 1) = Rect.centreY r.
Proof.
  intros r0.
  assert (Hw : 0 <= Rect.width r0) by (unfold Rect.width; simpl; lra).
  assert (Hh : 0 <= Rect.height r0) by (unfold Rect.height; simpl; lra).
  split; [tauto|]. exact (insetRect_centre r0 1 Hw Hh).
Defined.

(** ** Box extrusion *)

Lemma writePrism_ofs (st : ObjState) (base : Base) (baseZ topZ : R) :
  exists vs fs,
    ofs (writePrism st base baseZ topZ) = ofs st ++ vs ++ fs /\
    length vs = 8%nat /\ forallb isV vs = true /\
    length fs = 12%nat /\ forallb isF fs = true.
Proof.
  unfold writePrism; cbn [ofs].
  match goal with
  | |- context [ofs st ++ ?l] =>
      exists (firstn 8 l), (skipn 8 l)
  end.
  cbn [firstn skipn app]. repeat split; reflexivity.
Qed.

Lemma updateBounds_fields (buf : MeshBuffer) (p : Vec3.t) :
  positions (updateBounds buf p) = positions buf /\
  normals (updateBounds buf p) = normals buf /\
  indices (updateBounds buf p) = indices buf /\
  hasBounds (updateBounds buf p) = true.
Proof.
  unfold updateBounds. destruct (hasBounds buf).
  - destruct (minPos buf) as [[m0 m1] m2], (maxPos buf) as [[M0 M1] M2].
    repeat split.
  - repeat split.
Qed.

Lemma pushPos_fields (buf : MeshBuffer) (p : Vec3.t) :
  positions (pushPos buf p) = positions buf ++ [Vec3.x p; Vec3.y p; Vec3.z p] /\
  normals (pushPos buf p) = normals buf /\
  indices (pushPos buf p) = indices buf.
Proof.
  unfold pushPos.
  destruct (updateBounds_fields
              (mkMeshBuffer (positions buf ++ [Vec3.x p; Vec3.y p; Vec3.z p])
                 (normals buf) (indices buf) (hasBounds buf) (minPos buf)
                 (maxPos buf)) p) as (-> & -> & -> & _).
  repeat split.
Qed.

Lemma positions_appendTriangle (buf : MeshBuffer) (p0 p1 p2 n : Vec3.t) :
  positions (appendTriangle buf p0 p1 p2 n) =
  positions buf ++ [Vec3.x p0; Vec3.y p0; Vec3.z p0;
                    Vec3.x p1; Vec3.y p1; Vec3.z p1;
                    Vec3.x p2; Vec3.y p2; Vec3.z p2].
Proof.
  unfold appendTriangle, pushIndex, pushNormal. cbn [positions].
  destruct (pushPos_fields (pushPos (pushPos buf p0) p1) p2) as (-> & _).
  destruct (pushPos_fields (pushPos buf p0) p1) as (-> & _).
  destruct (pushPos_fields buf p0) as (-> & _).
  rewrite <- !app_assoc. reflexivity.
Qed.

Lemma normals_appendTriangle (buf : MeshBuffer) (p0 p1 p2 n : Vec3.t) :
  normals (appendTriangle buf p0 p1 p2 n) =
  normals buf ++ [Vec3.x n; Vec3.y n; Vec3.z n;
                  Vec3.x n; Vec3.y n; Vec3.z n;
                  Vec3.x n; Vec3.y n; Vec3.z n].
Proof.
  unfold appendTriangle, pushIndex, pushNormal. cbn [normals].
  destruct (pushPos_fields (pushPos (pushPos buf p0) p1) p2) as (_ & -> & _).
  destruct (pushPos_fields (pushPos buf p0) p1) as (_ & -> & _).
  destruct (pushPos_fields buf p0) as (_ & -> & _).
  rewrite <- !app_assoc. reflexivity.
Qed.

Lemma indices_appendTriangle (buf : MeshBuffer) (p0 p1 p2 n : Vec3.t) :
  indices (appendTriangle buf p0 p1 p2 n) =
  let base := uint32_wrap (Z.of_nat (length (positions buf)) / 3) in
  indices buf ++ [base; uint32_add base 1; uint32_add base 2].
Proof.
  unfold appendTriangle, pushIndex, pushNormal. cbn [indices].
  destruct (pushPos_fields (pushPos (pushPos buf p0) p1) p2) as (_ & _ & ->).
  destruct (pushPos_fields (pushPos buf p0) p1) as (_ & _ & ->).
  destruct (pushPos_fields buf p0) as (_ & _ & ->).
  rewrite <- !app_assoc. reflexivity.
Qed.

Lemma appendTriangle_sizes (buf : MeshBuffer) (p0 p1 p2 n : Vec3.t) :
  length (positions (appendTriangle buf p0 p1 p2 n)) = (length (positions buf) + 9)%nat /\
  length (normals (appendTriangle buf p0 p1 p2 n)) = (length (normals buf) + 9)%nat /\
  length (indices (appendTriangle buf p0 p1 p2 n)) = (length (indices buf) + 3)%nat.
Proof.
  rewrite positions_appendTriangle, normals_appendTriangle, indices_appendTriangle.
  cbv zeta. rewrite !length_app. cbn [length]. lia.
Qed.

(** The coordinates that one triangle adds to [positions]. *)
Lemma positions_fold_appendTri (ts : list Triangle) (buf : MeshBuffer) :
  positions (fold_left appendTri ts buf) =
  positions buf ++
    flat_map (fun t => flat_map (fun p => [Vec3.x p; Vec3.y p; Vec3.z p])
                         (triCorners t)) ts.
Proof.
  revert buf; induction ts as [|[[[p0 p1] p2] n] ts IH]; intros buf.
  - cbn. now rewrite app_nil_r.
  - cbn [fold_left flat_map appendTri]. rewrite IH, positions_appendTriangle.
    rewrite <- app_assoc. reflexivity.
Qed.

Lemma sizes_fold_appendTri (ts : list Triangle) (buf : MeshBuffer) :
  let buf' := fold_left appendTri ts buf in
  length (positions buf') = (length (positions buf) + 9 * length ts)%nat /\
  length (normals buf') = (length (normals buf) + 9 * length ts)%nat /\
  length (indices buf') = (length (indices buf) + 3 * length ts)%nat.
Proof.
  revert buf; induction ts as [|[[[p0 p1] p2] n] ts IH]; intros buf.
  - cbn. lia.
  - cbn [fold_left appendTri length].
    destruct (IH (appendTriangle buf p0 p1 p2 n)) as (Hp & Hn & Hi).
    destruct (appendTriangle_sizes buf p0 p1 p2 n) as (Hp' & Hn' & Hi').
    cbv zeta. rewrite Hp, Hn, Hi, Hp', Hn', Hi'. lia.
Qed.

Lemma appendRectPrism_sizes (buf : MeshBuffer) (r : Rect.t) (baseZ topZ : R) :
  let buf' := appendRectPrism buf r baseZ topZ in
  length (positions buf') = (length (positions buf) + 108)%nat /\
  length (normals buf') = (length (normals buf) + 108)%nat /\
  length (indices buf') = (length (indices buf) + 36)%nat.
Proof.
  exact (sizes_fold_appendTri (prismTriangles r baseZ topZ) buf).
Qed.

Lemma centroid_prismCorners (r : Rect.t) (baseZ topZ : R) :
  centroid (prismCorners r baseZ topZ) =
  Vec3.mk (Rect.centreX r) ((baseZ + topZ) * 0.5) (Rect.centreY r).
Proof.
  unfold centroid, prismCorners, toGltfCoords, vadd, Rect.centreX, Rect.centreY.
  cbn [fold_right length Vec3.x Vec3.y Vec3.z].
  replace (INR 8) with 8 by (simpl; lra).
  f_equal; lra.
Qed.

(** The six face normals of [appendRectPrism], in the order of its
    faces: bottom, top, +X, -X, +Z, -Z. *)
Lemma prismTriangles_normals (r : Rect.t) (baseZ topZ : R) :
  map triNormal (prismTriangles r baseZ topZ) =
  flat_map (fun n => [n; n])
    [ Vec3.mk 0 (-1) 0; Vec3.mk 0 1 0; Vec3.mk 1 0 0;
      Vec3.mk (-1) 0 0; Vec3.mk 0 0 1; Vec3.mk 0 0 (-1) ].
Proof.
  unfold prismTriangles. cbn [map flat_map app triNormal snd].
  repeat (f_equal; try lra).
Qed.

Lemma prismTriangles_corners (r : Rect.t) (baseZ topZ : R) (t : Triangle) (p : Vec3.t) :
  In t (prismTriangles r baseZ topZ) -> In p (triCorners t) ->
  In p (prismCorners r baseZ topZ).
Proof.
  unfold prismTriangles, prismCorners. cbn [In].
  intros Ht Hp.
  repeat (destruct Ht as [<- | Ht]; [cbn [triCorners In] in Hp; tauto |]).
  contradiction.
Qed.

Lemma prismTriangles_unit (r : Rect.t) (baseZ topZ : R) (t : Triangle) :
  In t (prismTriangles r baseZ topZ) -> dot (triNormal t) (triNormal t) = 1.
Proof.
  intros Ht. apply (in_map triNormal) in Ht.
  rewrite prismTriangles_normals in Ht. cbn [flat_map app In] in Ht.
  repeat (destruct Ht as [<- | Ht];
          [unfold dot; cbn [Vec3.x Vec3.y Vec3.z]; lra |]).
  contradiction.
Qed.

Lemma prismTriangles_axes (r : Rect.t) (baseZ topZ : R) (t1 t2 : Triangle) :
  In t1 (prismTriangles r baseZ topZ) -> In t2 (prismTriangles r baseZ topZ) ->
  triNormal t1 = triNormal t2 \/
  triNormal t1 = vopp (triNormal t2) \/
  dot (triNormal t1) (triNormal t2) = 0.
Proof.
  intros H1 H2.
  apply (in_map triNormal) in H1. apply (in_map triNormal) in H2.
  rewrite prismTriangles_normals in H1, H2. cbn [flat_map app In] in H1, H2.
  repeat (destruct H1 as [<- | H1]; [|]); try contradiction;
    repeat (destruct H2 as [<- | H2]; [|]); try contradiction;
    unfold dot, vopp; cbn [Vec3.x Vec3.y Vec3.z];
    first [ left; reflexivity
          | right; left; f_equal; lra
          | right; right; lra ].
Qed.

Lemma prismTriangles_outward (r : Rect.t) (baseZ topZ : R) (t : Triangle) :
  Rect.x0 r < Rect.x1 r -> Rect.y0 r < Rect.y1 r -> baseZ < topZ ->
  In t (prismTriangles r baseZ topZ) ->
  outward (centroid (prismCorners r baseZ topZ)) t.
Proof.
  intros Hx Hy Hz Ht. rewrite centroid_prismCorners.
  unfold prismTriangles in Ht. cbn [In] in Ht.
  repeat (destruct Ht as [<- | Ht];
          [ unfold outward; cbn [triCorners triNormal snd];
            repeat constructor;
            unfold dot, vsub, toGltfCoords, Rect.centreX, Rect.centreY;
            cbn [Vec3.x Vec3.y Vec3.z]; lra |]).
  contradiction.
Qed.




(** ** The two exporters on the same city *)

(** Both copies of the archetype closures emit the boxes of
    [archetypeBoxes], the text export after its material line. *)
Lemma SaveOBJ_emitBuilding_boxes (st : ObjState) (b : Building.t) :
  SaveOBJ.emitBuilding st b =
  match Building.zone b with
  | ZNone => st
  | _ => fold_left writeBox (archetypeBoxes b)
           (SaveOBJ.usemtl st (materialForZone (Building.zone b)))
  end.
Proof.
  unfold SaveOBJ.emitBuilding, archetypeBoxes.
  destruct (Building.zone b); try reflexivity;
    destruct (Building.facility b); try reflexivity;
    destruct (Building.facilityType b); try reflexivity;
    unfold SaveOBJ.emitSchool;
    destruct (shiftInside _ _ _) as [bx0 bx1];
    destruct (shiftInside _ _ _) as [by0 by1]; reflexivity.
Qed.

Lemma SaveGLTF_emitBuilding_boxes (m : gmap string MeshBuffer) (b : Building.t) :
  SaveGLTF.emitBuilding m b =
  fold_left (appendBox (materialForZone (Building.zone b))) (archetypeBoxes b) m.
Proof.
  assert (Hfac :
    Building.zone b <> ZNone -> Building.zone b <> Green ->
    (if Building.facility b then
       match Building.facilityType b with
       | Facility.Hospital => SaveGLTF.emitHospital m b
       | Facility.School => SaveGLTF.emitSchool m b
       end
     else SaveGLTF.emitStandard m b) =
    fold_left (appendBox (materialForZone (Building.zone b))) (archetypeBoxes b) m).
  { intros Hn Hg. unfold archetypeBoxes.
    destruct (Building.facility b); [destruct (Building.facilityType b)|].
    - unfold SaveGLTF.emitHospital. destruct (Building.zone b); try congruence;
        cbv zeta; cbn [fold_left appendBox materialForZone]; reflexivity.
    - unfold SaveGLTF.emitSchool. cbv zeta.
      destruct (shiftInside _ _ _) as [bx0 bx1].
      destruct (shiftInside _ _ _) as [by0 by1].
      destruct (Building.zone b); try congruence;
        cbn [fold_left appendBox materialForZone fst snd]; reflexivity.
    - unfold SaveGLTF.emitStandard. destruct (Building.zone b); try congruence;
        cbv zeta; cbn [fold_left appendBox materialForZone]; reflexivity. }
  unfold SaveGLTF.emitBuilding.
  destruct (Building.zone b) eqn:Ez;
    try (apply Hfac; discriminate).
  - unfold archetypeBoxes. rewrite Ez. reflexivity.
  - unfold SaveGLTF.emitPark, archetypeBoxes. rewrite Ez. cbv zeta.
    cbn [fold_left appendBox materialForZone]. reflexivity.
Qed.

(** One box in both formats: the eight vertex records of the text
    export are the eight corners of the binary export with the second
    and third coordinate exchanged. *)
Lemma writeRectPrism_corners (st : ObjState) (r : Rect.t) (baseZ topZ : R) :
  List.filter isV (ofs (writeRectPrism st r baseZ topZ)) =
  List.filter isV (ofs st) ++
  map (fun p => V (Vec3.x p) (Vec3.z p) (Vec3.y p)) (prismCorners r baseZ topZ).
Proof.
  unfold writeRectPrism, writePrism. cbn [ofs]. rewrite List.filter_app.
  reflexivity.
Qed.

Lemma fold_writeBox_vertices (boxes : list (Rect.t * R * R)) (st : ObjState) :
  List.filter isV (ofs (fold_left writeBox boxes st)) =
  List.filter isV (ofs st) ++ flat_map boxVertices boxes.
Proof.
  revert st; induction boxes as [|[[r bz] tz] boxes IH]; intros st;
    cbn [fold_left flat_map].
  - now rewrite app_nil_r.
  - rewrite IH. cbn [writeBox boxVertices]. rewrite writeRectPrism_corners.
    rewrite <- app_assoc. reflexivity.
Qed.

(** The vertex records that the text export writes for a building are
    the corners of the boxes that the binary export appends for it. *)
Lemma SaveOBJ_emitBuilding_vertices (st : ObjState) (b : Building.t) :
  List.filter isV (ofs (SaveOBJ.emitBuilding st b)) =
  List.filter isV (ofs st) ++ flat_map boxVertices (archetypeBoxes b).
Proof.
  rewrite SaveOBJ_emitBuilding_boxes.
  destruct (Building.zone b) eqn:Ez;
    [ unfold archetypeBoxes; rewrite Ez; cbn [flat_map]; now rewrite app_nil_r
    | | | | ];
    rewrite fold_writeBox_vertices; unfold SaveOBJ.usemtl; cbn [ofs];
    rewrite List.filter_app; cbn [List.filter isV]; now rewrite app_nil_r.
Qed.

(** The two road loops on a segment that is not skipped. *)
Lemma SaveOBJ_emitRoad_quad (st : ObjState) (road : RoadSegment.t) :
  ~ roadLength road < 1e-6 ->
  SaveOBJ.emitRoad st road =
  writePrism (SaveOBJ.usemtl st "mat_road") (roadQuad road) 0.0 kRoadThickness.
Proof.
  intros H. unfold SaveOBJ.emitRoad, roadQuad, roadOffset.
  unfold roadLength in *. destruct (Rlt_dec _ _); [contradiction | reflexivity].
Qed.

Lemma SaveGLTF_emitRoad_rect (m : gmap string MeshBuffer) (road : RoadSegment.t) :
  ~ roadLength road < 1e-6 ->
  SaveGLTF.emitRoad m road =
  SaveGLTF.appendTo m "mat_road" (roadRect road) 0.0 kRoadThickness.
Proof.
  intros H. unfold SaveGLTF.emitRoad, roadRect, roadOffset.
  unfold roadLength in *. destruct (Rlt_dec _ _); [contradiction|].
  cbv zeta.
  destruct (SaveGLTF.swapIfGt _ _) as [bx0 bx1].
  destruct (SaveGLTF.swapIfGt _ _) as [by0 by1]. reflexivity.
Qed.

(** One iteration of either road loop on a degenerate segment: the
    text export writes the material line only, the binary export
    nothing at all. *)
Lemma emitRoad_degenerate (road : RoadSegment.t) (st : ObjState)
    (m : gmap string MeshBuffer) :
  roadLength road < 1e-6 ->
  SaveOBJ.emitRoad st road = SaveOBJ.usemtl st "mat_road" /\
  SaveGLTF.emitRoad m road = m.
Proof.
  intros H. unfold roadLength in H.
  unfold SaveOBJ.emitRoad, SaveGLTF.emitRoad.
  destruct (Rlt_dec _ _) as [_|Hn]; [split; reflexivity | contradiction].
Qed.

Lemma roadLength_diagonal : roadLength diagonalRoad = 5.
Proof.
  unfold roadLength, diagonalRoad.
  cbn [RoadSegment.x1 RoadSegment.x2 RoadSegment.y1 RoadSegment.y2].
  replace ((3 - 0) * (3 - 0) + (4 - 0) * (4 - 0)) with (5 * 5) by lra.
  apply sqrt_square. lra.
Qed.

Lemma roadOffset_diagonal : roadOffset diagonalRoad = (-0.32, 0.24).
Proof.
  unfold roadOffset. rewrite roadLength_diagonal.
  unfold diagonalRoad, roadWidth.
  cbn [RoadSegment.x1 RoadSegment.x2 RoadSegment.y1 RoadSegment.y2 RoadSegment.type].
  f_equal; lra.
Qed.

Lemma roadQuad_diagonal :
  roadQuad diagonalRoad =
  mkBase (-0.32, 0.24) (0.32, -0.24) (3.32, 3.76) (2.68, 4.24).
Proof.
  unfold roadQuad. rewrite roadOffset_diagonal.
  unfold diagonalRoad.
  cbn [RoadSegment.x1 RoadSegment.x2 RoadSegment.y1 RoadSegment.y2].
  f_equal; f_equal; lra.
Qed.

Lemma roadRect_diagonal :
  roadRect diagonalRoad = Rect.mk (-0.32) 0.24 3.32 3.76.
Proof.
  unfold roadRect. rewrite roadOffset_diagonal.
  unfold diagonalRoad, SaveGLTF.swapIfGt.
  cbn [RoadSegment.x1 RoadSegment.x2 RoadSegment.y1 RoadSegment.y2].
  destruct (Rgt_dec _ _) as [H|_]; [exfalso; lra|].
  destruct (Rgt_dec _ _) as [H|_]; [exfalso; lra|].
  cbn [fst snd]. f_equal; lra.
Qed.

(** In the plane: the rectangle of the binary export has a corner that
    the quadrilateral of the text export does not have. *)
Lemma diagonal_road_bases_differ :
  In (3.32, 0.24) (baseCorners (rectBase (roadRect diagonalRoad))) /\
  ~ In (3.32, 0.24) (baseCorners (roadQuad diagonalRoad)).
Proof.
  rewrite roadRect_diagonal, roadQuad_diagonal.
  unfold baseCorners, rectBase.
  cbn [In base0 base1 base2 base3 Rect.x0 Rect.x1 Rect.y0 Rect.y1].
  split; [tauto|]. intros H.
  repeat (destruct H as [H|H]; [inversion H; lra |]). contradiction.
Qed.

(** C1 at a road that is not parallel to an axis.  For the single
    segment from (0,0) to (3,4) the text export writes the oriented
    box on the corners (-0.32,0.24), (0.32,-0.24), (3.32,3.76),
    (2.68,4.24); the binary export appends the axis-aligned box
    (-0.32,0.24)-(3.32,3.76) instead.  The corner (3.32,0.24) of the
    latter is no vertex of the text file, and the corner (2.68,4.24) of
    the former is no corner of the binary box. *)
Theorem diagonal_road_boxes_differ :
  let c := City.mk 0 [] [] [] [diagonalRoad] [] in
  let box := Rect.mk (-0.32) 0.24 3.32 3.76 in
  List.filter isV (ofs (SaveOBJ.body false "" c)) =
    [ V (-0.32) 0.24 0; V 0.32 (-0.24) 0; V 3.32 3.76 0; V 2.68 4.24 0;
      V (-0.32) 0.24 0.05; V 0.32 (-0.24) 0.05; V 3.32 3.76 0.05;
      V 2.68 4.24 0.05 ] /\
  SaveGLTF.meshes c =
    {[ "mat_road" := appendRectPrism emptyMeshBuffer box 0 0.05 ]} /\
  In (toGltfCoords 3.32 0.24 0) (prismCorners box 0 0.05) /\
  (forall z, ~ In (V 3.32 0.24 z) (ofs (SaveOBJ.body false "" c))) /\
  (forall p, In p (prismCorners box 0 0.05) ->
             ~ (Vec3.x p = 2.68 /\ Vec3.z p = 4.24)).
Proof.
  intros c box.
  assert (Hlen : ~ roadLength diagonalRoad < 1e-6)
    by (rewrite roadLength_diagonal; lra).
  assert (Hobj : ofs (SaveOBJ.body false "" c) =
                 ofs (writePrism (SaveOBJ.usemtl (mkObjState [] 1) "mat_road")
                        (mkBase (-0.32, 0.24) (0.32, -0.24) (3.32, 3.76) (2.68, 4.24))
                        0.0 kRoadThickness)).
  { unfold SaveOBJ.body, c. cbn [City.buildings City.roads fold_left].
    rewrite (SaveOBJ_emitRoad_quad _ _ Hlen), roadQuad_diagonal. reflexivity. }
  split; [|split; [|split; [|split]]].
  - rewrite Hobj. unfold writePrism, SaveOBJ.usemtl, kRoadThickness.
    cbn [ofs app List.filter isV fst snd base0 base1 base2 base3].
    repeat (f_equal; try lra).
  - unfold SaveGLTF.meshes, c. cbn [City.buildings City.roads fold_left].
    rewrite (SaveGLTF_emitRoad_rect _ _ Hlen), roadRect_diagonal.
    unfold SaveGLTF.appendTo. rewrite lookup_empty. cbn [default].
    unfold kRoadThickness. replace 0.0 with 0 by lra. reflexivity.
  - unfold prismCorners, box. cbn [In Rect.x0 Rect.x1 Rect.y0 Rect.y1]. tauto.
  - intros z. rewrite Hobj. unfold writePrism, SaveOBJ.usemtl.
    cbn [ofs app In fst snd base0 base1 base2 base3].
    intros H.
    repeat (destruct H as [H|H]; [try discriminate; inversion H; lra |]).
    contradiction.
  - intros p Hp [Hx Hz]. unfold prismCorners, toGltfCoords, box in Hp.
    cbn [In Rect.x0 Rect.x1 Rect.y0 Rect.y1] in Hp.
    repeat (destruct Hp as [<-|Hp];
            [cbn [Vec3.x Vec3.z] in Hx, Hz; lra |]).
    contradiction.
Qed.

(** ** The vertex counter of the text export *)

Lemma countV_app (l1 l2 : list ObjLine) : countV (l1 ++ l2) = (countV l1 + countV l2)%Z.
Proof. unfold countV. rewrite List.filter_app, length_app. lia. Qed.

Lemma countF_app (l1 l2 : list ObjLine) : countF (l1 ++ l2) = (countF l1 + countF l2)%Z.
Proof. unfold countF. rewrite List.filter_app, length_app. lia. Qed.

Lemma facesInRange_app (l1 l2 : list ObjLine) (seen : Z) :
  facesInRange seen (l1 ++ l2) <->
  facesInRange seen l1 /\ facesInRange (seen + countV l1) l2.
Proof.
  revert seen; induction l1 as [|[m|m|x y z|i j k] l1 IH]; intros seen;
    cbn [app facesInRange].
  - unfold countV; cbn. rewrite Z.add_0_r. tauto.
  - rewrite IH. unfold countV; cbn [List.filter isV]. tauto.
  - rewrite IH. unfold countV; cbn [List.filter isV]. tauto.
  - rewrite IH. unfold countV; cbn [List.filter isV length].
    replace (seen + 1 + Z.of_nat (length (List.filter isV l1)))%Z
      with (seen + Z.of_nat (S (length (List.filter isV l1))))%Z by lia.
    tauto.
  - rewrite IH. unfold countV; cbn [List.filter isV]. tauto.
Qed.

Lemma size_t_add_small (v d : Z) :
  (0 <= v + d < 2 ^ 64)%Z -> size_t_add v d = (v + d)%Z.
Proof. intros H. unfold size_t_add, size_t_wrap. now apply Z.mod_small. Qed.

(** Each box moves the counter by exactly 8. *)
Lemma writePrism_vertexOffset (st : ObjState) (base : Base) (baseZ topZ : R) :
  (0 <= vertexOffset st)%Z -> (vertexOffset st + 8 < 2 ^ 64)%Z ->
  vertexOffset (writePrism st base baseZ topZ) = (vertexOffset st + 8)%Z.
Proof.
  intros H0 H1. unfold writePrism; cbn [vertexOffset].
  apply size_t_add_small. lia.
Qed.

Lemma writePrism_inv (n : Z) (st : ObjState) (base : Base) (baseZ topZ : R) :
  (0 <= n)%Z -> (1 + 8 * (n + 1) < 2 ^ 64)%Z ->
  objInv n st -> objInv (n + 1) (writePrism st base baseZ topZ).
Proof.
  intros Hn Hb (Hv & Hcv & Hcf & Hf).
  unfold objInv, writePrism. cbn [ofs vertexOffset].
  rewrite !size_t_add_small by lia.
  rewrite countV_app, countF_app, facesInRange_app, Hcv, Hcf, Hv.
  unfold countV at 1, countF at 1. cbn [List.filter isV isF length facesInRange].
  unfold inBox. repeat split; try lia; try assumption.
Qed.

Lemma usemtl_inv (n : Z) (st : ObjState) (m : string) :
  objInv n st -> objInv n (SaveOBJ.usemtl st m).
Proof.
  intros (Hv & Hcv & Hcf & Hf). unfold objInv, SaveOBJ.usemtl.
  cbn [ofs vertexOffset].
  rewrite countV_app, countF_app, facesInRange_app, Hcv, Hcf.
  unfold countV at 1, countF at 1. cbn [List.filter isV isF length facesInRange].
  repeat split; try lia; assumption.
Qed.

Lemma fold_writeBox_inv (boxes : list (Rect.t * R * R)) (n : Z) (st : ObjState) :
  (0 <= n)%Z -> (1 + 8 * (n + Z.of_nat (length boxes)) < 2 ^ 64)%Z ->
  objInv n st -> objInv (n + Z.of_nat (length boxes)) (fold_left writeBox boxes st).
Proof.
  revert n st; induction boxes as [|[[r bz] tz] boxes IH]; intros n st Hn Hb HI.
  - cbn [length fold_left]. now rewrite Z.add_0_r.
  - cbn [length fold_left] in Hb |- *. rewrite Nat2Z.inj_succ in Hb |- *.
    replace (n + Z.succ (Z.of_nat (length boxes)))%Z
      with (n + 1 + Z.of_nat (length boxes))%Z by lia.
    apply IH; [lia | lia |].
    unfold writeBox, writeRectPrism. apply writePrism_inv; [lia | lia | exact HI].
Qed.

Lemma archetypeBoxes_length (b : Building.t) :
  (length (archetypeBoxes b) <= 3)%nat /\
  (Building.zone b = ZNone -> archetypeBoxes b = []).
Proof.
  unfold archetypeBoxes.
  destruct (Building.zone b); [split; [cbn; lia | reflexivity] | | | |];
    (split; [|discriminate]);
    try (destruct (Building.facility b); [destruct (Building.facilityType b)|]);
    cbn [length]; lia.
Qed.

Lemma emitBuilding_inv (n : Z) (st : ObjState) (b : Building.t) :
  (0 <= n)%Z -> (1 + 8 * (n + 3) < 2 ^ 64)%Z -> objInv n st ->
  objInv (n + Z.of_nat (length (archetypeBoxes b))) (SaveOBJ.emitBuilding st b).
Proof.
  intros Hn Hb HI. destruct (archetypeBoxes_length b) as [Hle Hnone].
  rewrite SaveOBJ_emitBuilding_boxes.
  destruct (Building.zone b) eqn:Ez;
    [rewrite Hnone by reflexivity; cbn [length]; now rewrite Z.add_0_r | | | |];
    (apply fold_writeBox_inv; [lia | lia | now apply usemtl_inv]).
Qed.

Lemma emitRoad_inv (n : Z) (st : ObjState) (road : RoadSegment.t) :
  (0 <= n)%Z -> (1 + 8 * (n + 1) < 2 ^ 64)%Z -> objInv n st ->
  objInv (n + Z.of_nat (length (roadBoxes road))) (SaveOBJ.emitRoad st road).
Proof.
  intros Hn Hb HI. unfold roadBoxes.
  destruct (Rlt_dec (roadLength road) 1e-6) as [Hd|Hd].
  - destruct (emitRoad_degenerate road st ∅ Hd) as [-> _].
    cbn [length]. rewrite Z.add_0_r. now apply usemtl_inv.
  - rewrite (SaveOBJ_emitRoad_quad st road Hd). cbn [length].
    apply writePrism_inv; [lia | lia | now apply usemtl_inv].
Qed.

Lemma fold_emitBuilding_inv (bs : list Building.t) (n : Z) (st : ObjState) :
  (0 <= n)%Z -> (1 + 8 * (n + 3 * Z.of_nat (length bs)) < 2 ^ 64)%Z ->
  objInv n st ->
  (Z.of_nat (length (flat_map archetypeBoxes bs)) <= 3 * Z.of_nat (length bs))%Z /\
  objInv (n + Z.of_nat (length (flat_map archetypeBoxes bs)))
         (fold_left SaveOBJ.emitBuilding bs st).
Proof.
  revert n st; induction bs as [|b bs IH]; intros n st Hn Hb HI.
  - cbn [length fold_left flat_map]. rewrite Z.add_0_r. split; [lia | assumption].
  - cbn [length fold_left flat_map] in Hb |- *. rewrite Nat2Z.inj_succ in Hb |- *.
    rewrite length_app, Nat2Z.inj_add.
    destruct (archetypeBoxes_length b) as [Hle _].
    pose proof (emitBuilding_inv n st b Hn ltac:(lia) HI) as HI'.
    destruct (IH (n + Z.of_nat (length (archetypeBoxes b)))%Z _
                ltac:(lia) ltac:(lia) HI') as (Hle' & HI'').
    split; [lia|]. now rewrite Z.add_assoc.
Qed.

Lemma fold_emitRoad_inv (rs : list RoadSegment.t) (n : Z) (st : ObjState) :
  (0 <= n)%Z -> (1 + 8 * (n + Z.of_nat (length rs)) < 2 ^ 64)%Z ->
  objInv n st ->
  (Z.of_nat (length (flat_map roadBoxes rs)) <= Z.of_nat (length rs))%Z /\
  objInv (n + Z.of_nat (length (flat_map roadBoxes rs)))
         (fold_left SaveOBJ.emitRoad rs st).
Proof.
  revert n st; induction rs as [|r rs IH]; intros n st Hn Hb HI.
  - cbn [length fold_left flat_map]. rewrite Z.add_0_r. split; [lia | assumption].
  - cbn [length fold_left flat_map] in Hb |- *. rewrite Nat2Z.inj_succ in Hb |- *.
    rewrite length_app, Nat2Z.inj_add.
    assert (Hle : (length (roadBoxes r) <= 1)%nat)
      by (unfold roadBoxes; destruct (Rlt_dec _ _); cbn; lia).
    pose proof (emitRoad_inv n st r Hn ltac:(lia) HI) as HI'.
    destruct (IH (n + Z.of_nat (length (roadBoxes r)))%Z _
                ltac:(lia) ltac:(lia) HI') as (Hle' & HI'').
    split; [lia|]. now rewrite Z.add_assoc.
Qed.

Lemma facesInRange_bound (l : list ObjLine) (seen : Z) :
  facesInRange seen l ->
  forall i j k, In (F i j k) l ->
    (1 <= i < seen + countV l + 1)%Z /\
    (1 <= j < seen + countV l + 1)%Z /\
    (1 <= k < seen + countV l + 1)%Z.
Proof.
  revert seen; induction l as [|[m|m|x y z|i' j' k'] l IH]; intros seen H i j k Hin;
    cbn [facesInRange In] in *; try contradiction.
  - destruct Hin as [Hin|Hin]; [discriminate|].
    specialize (IH _ H _ _ _ Hin). unfold countV in *; cbn [List.filter isV]. lia.
  - destruct Hin as [Hin|Hin]; [discriminate|].
    specialize (IH _ H _ _ _ Hin). unfold countV in *; cbn [List.filter isV]. lia.
  - destruct Hin as [Hin|Hin]; [discriminate|].
    specialize (IH _ H _ _ _ Hin). unfold countV in *; cbn [List.filter isV length].
    lia.
  - destruct H as (Hi & Hj & Hk & H).
    assert (0 <= countV l)%Z by (unfold countV; lia).
    destruct Hin as [Hin|Hin].
    + inversion Hin; subst. unfold inBox in *.
      unfold countV in *; cbn [List.filter isV]. lia.
    + specialize (IH _ H _ _ _ Hin). unfold countV in *; cbn [List.filter isV]. lia.
Qed.

(** The state of the export at the end of [saveOBJ]. *)
Lemma body_objInv (hasMtl : bool) (mtlName : string) (c : City.t) :
  (1 + 8 * (3 * Z.of_nat (length (City.buildings c))
            + Z.of_nat (length (City.roads c))) < 2 ^ 64)%Z ->
  objInv (objBoxCount c) (SaveOBJ.body hasMtl mtlName c).
Proof.
  intros Hb.
  assert (H0 : objInv 0 {| ofs := if hasMtl then [Mtllib mtlName] else [];
                           vertexOffset := 1 |}).
  { unfold objInv; cbn [ofs vertexOffset]. destruct hasMtl; cbn; tauto. }
  destruct (fold_emitBuilding_inv (City.buildings c) 0 _ ltac:(lia) ltac:(lia) H0)
    as (Hle1 & H1).
  destruct (fold_emitRoad_inv (City.roads c)
              (0 + Z.of_nat (length (flat_map archetypeBoxes (City.buildings c))))%Z
              _ ltac:(lia) ltac:(lia) H1)
    as (Hle2 & H2).
  rewrite Z.add_0_l in H2. exact H2.
Qed.

(** C5.  The counter of [saveOBJ] starts at 1 and moves by exactly 8
    per emitted box: after the export it is 1 + 8 * boxes, the counter
    minus 1 is the number of vertex lines written, every face index
    lies in the box written just before it (from that box's first index
    up to, but excluding, the counter after it), and so refers to a
    vertex already written.  The bound on the size of the input keeps
    the [std::size_t] counter from wrapping. *)
Theorem saveOBJ_vertex_counter (hasMtl : bool) (mtlName : string) (c : City.t) :
  (1 + 8 * (3 * Z.of_nat (length (City.buildings c))
            + Z.of_nat (length (City.roads c))) < 2 ^ 64)%Z ->
  let st := SaveOBJ.body hasMtl mtlName c in
  vertexOffset st = (1 + 8 * objBoxCount c)%Z /\
  countV (ofs st) = (8 * objBoxCount c)%Z /\
  countF (ofs st) = (12 * objBoxCount c)%Z /\
  (vertexOffset st - 1)%Z = countV (ofs st) /\
  facesInRange 0 (ofs st) /\
  (forall i j k, In (F i j k) (ofs st) ->
     (1 <= i < vertexOffset st)%Z /\ (1 <= j < vertexOffset st)%Z /\
     (1 <= k < vertexOffset st)%Z).
Proof.
  intros Hb st.
  destruct (body_objInv hasMtl mtlName c Hb) as (Hv & Hcv & Hcf & Hf).
  fold st in Hv, Hcv, Hcf, Hf.
  split; [exact Hv|]. split; [exact Hcv|]. split; [exact Hcf|].
  split; [lia|]. split; [exact Hf|].
  intros i j k Hin.
  pose proof (facesInRange_bound _ _ Hf i j k Hin) as Hr. lia.
Qed.

Lemma saveOBJ_vertex_counter_witness :
  let c := City.mk 2 [Residential; ZNone; ZNone; ZNone]
             [Building.mk (Rect.mk 0 0 1 1) Residential 3 false Facility.Hospital]
             [] [] [] in
  (1 + 8 * (3 * Z.of_nat (length (City.buildings c))
            + Z.of_nat (length (City.roads c))) < 2 ^ 64)%Z /\
  (vertexOffset (SaveOBJ.body true "city.mtl" c) - 1)%Z =
    countV (ofs (SaveOBJ.body true "city.mtl" c)).
Proof.
  intros c.
  assert (H : (1 + 8 * (3 * Z.of_nat (length (City.buildings c))
                        + Z.of_nat (length (City.roads c))) < 2 ^ 64)%Z)
    by (cbn; lia).
  split; [exact H|].
  destruct (saveOBJ_vertex_counter true "city.mtl" c H) as (_ & _ & _ & Hc & _).
  exact Hc.
Defined.

(** ** Degenerate road segments *)

Lemma sameGeometry_refl (st : ObjState) : sameGeometry st st.
Proof. split; reflexivity. Qed.

Lemma sameGeometry_trans (a b c : ObjState) :
  sameGeometry a b -> sameGeometry b c -> sameGeometry a c.
Proof. intros [H1 H2] [H3 H4]. split; congruence. Qed.

Lemma usemtl_sameGeometry (st : ObjState) (m : string) :
  sameGeometry (SaveOBJ.usemtl st m) st.
Proof.
  split; [reflexivity|]. unfold SaveOBJ.usemtl; cbn [ofs].
  rewrite List.filter_app. cbn. now rewrite app_nil_r.
Qed.

Lemma writePrism_sameGeometry (st1 st2 : ObjState) (base : Base) (baseZ topZ : R) :
  sameGeometry st1 st2 ->
  sameGeometry (writePrism st1 base baseZ topZ) (writePrism st2 base baseZ topZ).
Proof.
  intros [Hv Hg]. unfold sameGeometry, writePrism; cbn [ofs vertexOffset].
  rewrite !List.filter_app, Hv, Hg. split; reflexivity.
Qed.

Lemma emitRoad_sameGeometry (st1 st2 : ObjState) (road : RoadSegment.t) :
  sameGeometry st1 st2 ->
  sameGeometry (SaveOBJ.emitRoad st1 road) (SaveOBJ.emitRoad st2 road).
Proof.
  intros H.
  assert (HU : sameGeometry (SaveOBJ.usemtl st1 "mat_road")
                            (SaveOBJ.usemtl st2 "mat_road")).
  { eapply sameGeometry_trans; [apply usemtl_sameGeometry|].
    eapply sameGeometry_trans; [exact H|].
    destruct (usemtl_sameGeometry st2 "mat_road"); split; congruence. }
  unfold SaveOBJ.emitRoad. destruct (Rlt_dec _ _); [exact HU|].
  now apply writePrism_sameGeometry.
Qed.

Lemma fold_emitRoad_sameGeometry (rs : list RoadSegment.t) (st1 st2 : ObjState) :
  sameGeometry st1 st2 ->
  sameGeometry (fold_left SaveOBJ.emitRoad rs st1)
               (fold_left SaveOBJ.emitRoad rs st2).
Proof.
  revert st1 st2; induction rs as [|r rs IH]; intros st1 st2 H; cbn [fold_left].
  - exact H.
  - apply IH. now apply emitRoad_sameGeometry.
Qed.

(** C7.  A road segment whose endpoints are closer than 1e-6 leaves no
    geometry in either export: the vertex and face records of the text
    file, its vertex counter, the mesh buffers and the files of the
    binary export are those of the city without that segment.  Both
    exporters are total functions: no error is raised. *)
Theorem degenerate_road_skipped (float_le : R -> list byte)
    (composeJson : list MaterialDef -> list MeshPrimitive -> list AccessorInfo ->
                   list ViewInfo -> Z -> option string -> list byte)
    (c : City.t) (r1 r2 : list RoadSegment.t) (road : RoadSegment.t)
    (hasMtl : bool) (mtlName binName : string) (binary : bool) :
  City.roads c = r1 ++ road :: r2 ->
  roadLength road < 1e-6 ->
  let c' := withRoads c (r1 ++ r2) in
  List.filter isGeometry (ofs (SaveOBJ.body hasMtl mtlName c)) =
    List.filter isGeometry (ofs (SaveOBJ.body hasMtl mtlName c')) /\
  vertexOffset (SaveOBJ.body hasMtl mtlName c) =
    vertexOffset (SaveOBJ.body hasMtl mtlName c') /\
  SaveGLTF.meshes c = SaveGLTF.meshes c' /\
  saveGLTF float_le composeJson c binName binary =
    saveGLTF float_le composeJson c' binName binary.
Proof.
  intros Hr Hd c'.
  assert (Hobj : sameGeometry (SaveOBJ.body hasMtl mtlName c)
                              (SaveOBJ.body hasMtl mtlName c')).
  { unfold SaveOBJ.body, c'; cbn [City.roads City.buildings withRoads].
    rewrite Hr, !fold_left_app. cbn [fold_left].
    apply fold_emitRoad_sameGeometry.
    destruct (emitRoad_degenerate road
                (fold_left SaveOBJ.emitRoad r1
                   (fold_left SaveOBJ.emitBuilding (City.buildings c)
                      {| ofs := if hasMtl then [Mtllib mtlName] else [];
                         vertexOffset := 1 |})) ∅ Hd) as [-> _].
    apply usemtl_sameGeometry. }
  assert (Hm : SaveGLTF.meshes c = SaveGLTF.meshes c').
  { unfold SaveGLTF.meshes, c'; cbn [City.roads City.buildings withRoads].
    rewrite Hr, !fold_left_app. cbn [fold_left].
    now destruct (emitRoad_degenerate road (mkObjState [] 1)
                    (fold_left SaveGLTF.emitRoad r1
                       (fold_left SaveGLTF.emitBuilding (City.buildings c) ∅)) Hd)
      as [_ ->]. }
  destruct Hobj as [Hv Hg].
  repeat split; try assumption; try (symmetry; assumption).
  unfold saveGLTF. rewrite Hm. reflexivity.
Qed.

Lemma roadLength_point (x y : R) (t : RoadType) :
  roadLength (RoadSegment.mk x y x y t) = 0.
Proof.
  unfold roadLength; cbn [RoadSegment.x1 RoadSegment.x2 RoadSegment.y1 RoadSegment.y2].
  replace ((x - x) * (x - x) + (y - y) * (y - y)) with 0 by lra.
  apply sqrt_0.
Qed.

Lemma degenerate_road_skipped_witness :
  let road := RoadSegment.mk 1 1 1 1 Arterial in
  let other := RoadSegment.mk 0 0 10 0 Arterial in
  let c := City.mk 2 [] [] [] [other; road] [] in
  (City.roads c = [other] ++ road :: [] /\ roadLength road < 1e-6) /\
  SaveGLTF.meshes c = SaveGLTF.meshes (withRoads c ([other] ++ [])) /\
  List.filter isGeometry (ofs (SaveOBJ.body true "city.mtl" c)) =
    List.filter isGeometry
      (ofs (SaveOBJ.body true "city.mtl" (withRoads c ([other] ++ [])))).
Proof.
  intros road other c.
  assert (Hr : City.roads c = [other] ++ road :: []) by reflexivity.
  assert (Hd : roadLength road < 1e-6)
    by (unfold road; rewrite roadLength_point; lra).
  split; [tauto|].
  destruct (degenerate_road_skipped
              (fun _ => [Byte.x00; Byte.x00; Byte.x00; Byte.x00])
              (fun _ _ _ _ _ _ => [])
              c [other] [] road true "city.mtl" "city.bin" true Hr Hd)
    as (Hg & _ & Hm & _).
  split; [exact Hm | exact Hg].
Defined.

(** ** Materials of the binary export *)

Lemma appendTo_lookup_ne (m : gmap string MeshBuffer) (mat key : string)
    (r : Rect.t) (baseZ topZ : R) :
  mat <> key -> SaveGLTF.appendTo m mat r baseZ topZ !! key = m !! key.
Proof. intros H. unfold SaveGLTF.appendTo. now rewrite lookup_insert_ne. Qed.

Lemma materialForZone_default (z : ZoneType) :
  z <> ZNone -> materialForZone z <> "mat_default".
Proof. destruct z; intros H; try congruence; discriminate. Qed.

Lemma emitBuilding_default (m : gmap string MeshBuffer) (b : Building.t) :
  m !! "mat_default" = None ->
  SaveGLTF.emitBuilding m b !! "mat_default" = None.
Proof.
  intros Hm. unfold SaveGLTF.emitBuilding.
  destruct (Building.zone b) eqn:Ez; [exact Hm | | | |].
  1-3: assert (Hz : materialForZone (Building.zone b) <> "mat_default")
         by (apply materialForZone_default; congruence);
       destruct (Building.facility b); [destruct (Building.facilityType b)|];
       [ unfold SaveGLTF.emitHospital
       | unfold SaveGLTF.emitSchool;
         destruct (shiftInside _ _ _) as [bx0 bx1];
         destruct (shiftInside _ _ _) as [by0 by1]
       | unfold SaveGLTF.emitStandard ];
       rewrite ?appendTo_lookup_ne by exact Hz; exact Hm.
  unfold SaveGLTF.emitPark.
  rewrite !appendTo_lookup_ne by discriminate. exact Hm.
Qed.

Lemma emitRoad_default (m : gmap string MeshBuffer) (road : RoadSegment.t) :
  m !! "mat_default" = None ->
  SaveGLTF.emitRoad m road !! "mat_default" = None.
Proof.
  intros Hm. unfold SaveGLTF.emitRoad.
  destruct (Rlt_dec _ _); [exact Hm|].
  destruct (SaveGLTF.swapIfGt _ _) as [bx0 bx1].
  destruct (SaveGLTF.swapIfGt _ _) as [by0 by1].
  rewrite appendTo_lookup_ne by discriminate. exact Hm.
Qed.

(** The default material never owns a buffer. *)
Lemma meshes_default (c : City.t) : SaveGLTF.meshes c !! "mat_default" = None.
Proof.
  unfold SaveGLTF.meshes.
  assert (Hb : forall bs (m : gmap string MeshBuffer),
             m !! "mat_default" = None ->
             fold_left SaveGLTF.emitBuilding bs m !! "mat_default" = None).
  { induction bs as [|b bs IH]; intros m Hm; cbn [fold_left]; [exact Hm|].
    apply IH. now apply emitBuilding_default. }
  assert (Hr : forall rs (m : gmap string MeshBuffer),
             m !! "mat_default" = None ->
             fold_left SaveGLTF.emitRoad rs m !! "mat_default" = None).
  { induction rs as [|r rs IH]; intros m Hm; cbn [fold_left]; [exact Hm|].
    apply IH. now apply emitRoad_default. }
  apply Hr, Hb. apply lookup_empty.
Qed.

(** The loop that collects the materials is a filter of the palette. *)
Lemma collectMaterials_filter (m : gmap string MeshBuffer) (pal : list MaterialDef)
    (acc : list MaterialDef * gmap string Z) :
  fst (fold_left (SaveGLTF.collectMaterial m) pal acc) =
  fst acc ++ List.filter (receivedTriangles m) pal.
Proof.
  revert acc; induction pal as [|def pal IH]; intros [mats idx]; cbn [fold_left List.filter].
  - now rewrite app_nil_r.
  - rewrite IH. unfold SaveGLTF.collectMaterial, receivedTriangles.
    destruct (m !! name def) as [buf|]; [destruct (indices buf)|]; cbn [fst];
      rewrite <- ?app_assoc; reflexivity.
Qed.

(** The material list is the palette filtered by the buffers. *)
Lemma materials_filter (c : City.t) :
  SaveGLTF.materials c =
  List.filter (receivedTriangles (SaveGLTF.meshes c)) kMaterialPalette.
Proof.
  unfold SaveGLTF.materials, SaveGLTF.collectMaterials.
  now rewrite collectMaterials_filter.
Qed.

(** C10.  The material list of the binary export never contains
    [mat_default]: no traversal step creates a buffer under that name,
    so the palette filter drops it. *)
Theorem materials_no_default (c : City.t) :
  SaveGLTF.meshes c !! "mat_default" = None /\
  SaveGLTF.materials c = List.filter (receivedTriangles (SaveGLTF.meshes c)) kMaterialPalette /\
  ~ In "mat_default" (map name (SaveGLTF.materials c)).
Proof.
  pose proof (meshes_default c) as Hd.
  pose proof (materials_filter c) as Hf.
  split; [exact Hd|]. split; [exact Hf|].
  rewrite Hf. intros Hin. apply in_map_iff in Hin as (def & Hn & Hin).
  apply List.filter_In in Hin as [_ Hrec].
  unfold receivedTriangles in Hrec. rewrite Hn, Hd in Hrec. discriminate.
Qed.

(** ** Worst-case distances of the summary *)

Lemma DBL_MAX_pos : 0 < DBL_MAX.
Proof. unfold DBL_MAX. apply IZR_lt. reflexivity. Qed.

Lemma dist_nonneg (x y : R) (p : R * R) : 0 <= dist x y p.
Proof. unfold dist. apply sqrt_pos. Qed.

(** The loop of [nearest] keeps the least of [best] and the distances
    seen. *)
Lemma nearest_loop (x y : R) (pts : list (R * R)) (best : R) :
  let r := fold_left (SaveSummary.nearestStep x y) pts best in
  r <= best /\
  (forall p, In p pts -> r <= dist x y p) /\
  (r = best \/ In r (map (dist x y) pts)).
Proof.
  revert best; induction pts as [|p pts IH]; intros best; cbn [fold_left map In].
  - split; [lra|]. split; [contradiction | now left].
  - destruct (IH (SaveSummary.nearestStep x y best p)) as (Hle & Hall & Hin).
    assert (Hs : SaveSummary.nearestStep x y best p <= best /\
                 SaveSummary.nearestStep x y best p <= dist x y p /\
                 (SaveSummary.nearestStep x y best p = best \/
                  SaveSummary.nearestStep x y best p = dist x y p)).
    { unfold SaveSummary.nearestStep. fold (dist x y p).
      destruct (Rlt_dec (dist x y p) best); repeat split; try lra; tauto. }
    destruct Hs as (Hs1 & Hs2 & Hs3).
    cbv zeta. split; [lra|]. split.
    + intros q [<-|Hq]; [lra | now apply Hall].
    + destruct Hin as [Hin|Hin]; [|right; right; exact Hin].
      rewrite Hin. destruct Hs3 as [->| ->]; [now left | right; now left].
Qed.

Lemma nearest_nonneg (x y : R) (pts : list (R * R)) :
  pts <> [] -> 0 <= SaveSummary.nearest x y pts.
Proof.
  intros Hne. unfold SaveSummary.nearest.
  destruct pts as [|p pts]; [congruence|].
  destruct (nearest_loop x y (p :: pts) DBL_MAX) as (_ & _ & [-> | Hin]).
  - pose proof DBL_MAX_pos. lra.
  - apply in_map_iff in Hin as (q & <- & _). apply dist_nonneg.
Qed.

Lemma nearest_isLeast (x y : R) (pts : list (R * R)) :
  (exists p, In p pts /\ dist x y p <= DBL_MAX) ->
  isLeast (SaveSummary.nearest x y pts) (map (dist x y) pts).
Proof.
  intros (p0 & Hp0 & Hd). unfold SaveSummary.nearest.
  destruct pts as [|p pts]; [contradiction|].
  destruct (nearest_loop x y (p :: pts) DBL_MAX) as (Hle & Hall & Hin).
  cbv zeta in *. split.
  - destruct Hin as [Heq | Hin]; [|exact Hin].
    pose proof (Hall p0 Hp0) as H1.
    assert (Heq' : fold_left (SaveSummary.nearestStep x y) (p :: pts) DBL_MAX
                   = dist x y p0) by lra.
    rewrite Heq'. now apply in_map.
  - intros u Hu. apply in_map_iff in Hu as (q & <- & Hq). now apply Hall.
Qed.

(** The update of a worst case over a list of nearest distances. *)
Lemma worst_loop (l : list R) (m0 : R) :
  let r := fold_left (fun m v => if Rgt_dec v m then v else m) l m0 in
  m0 <= r /\ (forall v, In v l -> v <= r) /\ (r = m0 \/ In r l).
Proof.
  revert m0; induction l as [|v l IH]; intros m0; cbn [fold_left In].
  - split; [lra|]. split; [contradiction | now left].
  - destruct (IH (if Rgt_dec v m0 then v else m0)) as (Hle & Hall & Hin).
    cbv zeta. destruct (Rgt_dec v m0) as [Hgt|Hngt].
    + split; [lra|]. split.
      * intros u [<-|Hu]; [lra | now apply Hall].
      * destruct Hin as [->|Hin]; [right; now left | right; right; exact Hin].
    + split; [lra|]. split.
      * intros u [<-|Hu]; [lra | now apply Hall].
      * destruct Hin as [->|Hin]; [now left | right; right; exact Hin].
Qed.

(** Only residential buildings touch the two worst-case distances. *)
Lemma statBuilding_fold (schoolPos hospitalPos : list (R * R))
    (bs : list Building.t) (s : SaveSummary.BuildingStats) :
  let s' := fold_left (SaveSummary.statBuilding schoolPos hospitalPos) bs s in
  SaveSummary.maxDistSchool s' =
    fold_left (fun m b => SaveSummary.worstCase b schoolPos m)
      (List.filter isResidential bs) (SaveSummary.maxDistSchool s) /\
  SaveSummary.maxDistHospital s' =
    fold_left (fun m b => SaveSummary.worstCase b hospitalPos m)
      (List.filter isResidential bs) (SaveSummary.maxDistHospital s).
Proof.
  revert s; induction bs as [|b bs IH]; intros s; cbn [fold_left List.filter].
  - split; reflexivity.
  - destruct (IH (SaveSummary.statBuilding schoolPos hospitalPos s b)) as [H1 H2].
    cbv zeta. rewrite H1, H2.
    unfold SaveSummary.statBuilding, isResidential.
    destruct (Building.zone b); cbn [fold_left SaveSummary.maxDistSchool
                                      SaveSummary.maxDistHospital];
      split; reflexivity.
Qed.

Lemma worstCase_empty (bs : list Building.t) (m : R) :
  fold_left (fun m b => SaveSummary.worstCase b [] m) bs m = m.
Proof. induction bs as [|b bs IH]; cbn [fold_left]; [reflexivity | exact IH]. Qed.

Lemma worstCase_nonempty (pts : list (R * R)) (bs : list Building.t) (m : R) :
  pts <> [] ->
  fold_left (fun m b => SaveSummary.worstCase b pts m) bs m =
  fold_left (fun m v => if Rgt_dec v m then v else m) (map (nearestTo pts) bs) m.
Proof.
  intros Hne. revert m; induction bs as [|b bs IH]; intros m; cbn [fold_left map].
  - reflexivity.
  - rewrite IH. f_equal. unfold SaveSummary.worstCase, nearestTo.
    destruct pts; [congruence | reflexivity].
Qed.

(** The entry of the report as a loop over the residential buildings. *)
Lemma maxDistanceTo_fold (kind : Facility.Type_) (c : City.t) :
  maxDistanceTo kind (SaveSummary.summary c) =
  fold_left
    (fun m b => SaveSummary.worstCase b
                  (SaveSummary.positionsOf kind (City.facilities c)) m)
    (List.filter isResidential (City.buildings c)) (-1).
Proof.
  unfold SaveSummary.summary.
  destruct (statBuilding_fold
              (SaveSummary.positionsOf Facility.School (City.facilities c))
              (SaveSummary.positionsOf Facility.Hospital (City.facilities c))
              (City.buildings c)
              (SaveSummary.mkBuildingStats 0 0 0 0 (-1.0) (-1.0))) as [H1 H2].
  cbv zeta in H1, H2. cbn [SaveSummary.maxDistSchool SaveSummary.maxDistHospital] in H1, H2.
  replace (-1.0) with (-1) in H1, H2 by lra.
  destruct kind; cbn [maxDistanceTo SaveSummary.maxDistanceToSchool
                       SaveSummary.maxDistanceToHospital];
    replace (-1.0) with (-1) by lra; assumption.
Qed.

(** C8.  Without residential buildings both worst-case distances keep
    their initial value -1, whatever the facilities are. *)
Theorem no_residential_sentinel (c : City.t) :
  (forall b, In b (City.buildings c) -> Building.zone b <> Residential) ->
  SaveSummary.maxDistanceToSchool (SaveSummary.summary c) = -1 /\
  SaveSummary.maxDistanceToHospital (SaveSummary.summary c) = -1.
Proof.
  intros Hno.
  assert (Hf : List.filter isResidential (City.buildings c) = []).
  { induction (City.buildings c) as [|b bs IH]; [reflexivity|].
    cbn [List.filter]. unfold isResidential at 1.
    pose proof (Hno b (or_introl eq_refl)) as Hb.
    destruct (Building.zone b); try congruence;
      apply IH; intros b' Hb'; apply Hno; now right. }
  pose proof (maxDistanceTo_fold Facility.School c) as Hs.
  pose proof (maxDistanceTo_fold Facility.Hospital c) as Hh.
  rewrite Hf in Hs, Hh. cbn [fold_left maxDistanceTo] in Hs, Hh.
  split; assumption.
Qed.

Lemma no_residential_sentinel_witness :
  let c := City.mk 2 [Commercial; ZNone; ZNone; ZNone]
             [Building.mk (Rect.mk 0 0 1 1) Commercial 5 true Facility.School]
             [Facility.mk 0.5 0.5 Facility.School; Facility.mk 3 3 Facility.Hospital]
             [] [] in
  (forall b, In b (City.buildings c) -> Building.zone b <> Residential) /\
  SaveSummary.maxDistanceToSchool (SaveSummary.summary c) = -1 /\
  SaveSummary.maxDistanceToHospital (SaveSummary.summary c) = -1.
Proof.
  intros c.
  assert (H : forall b, In b (City.buildings c) -> Building.zone b <> Residential).
  { intros b [<-|[]]. discriminate. }
  split; [exact H|]. exact (no_residential_sentinel c H).
Defined.


Lemma dist_le (x y : R) (p : R * R) (b : R) :
  0 <= b -> (x - fst p) * (x - fst p) + (y - snd p) * (y - snd p) <= b * b ->
  dist x y p <= b.
Proof.
  intros Hb H. unfold dist. rewrite <- (sqrt_square b Hb).
  now apply sqrt_le_1_alt.
Qed.


(** ** The binary container *)

Lemma Z_of_byte_of_Z (z : Z) : Z_of_byte (byte_of_Z z) = (z mod 256)%Z.
Proof.
  unfold Z_of_byte, byte_of_Z.
  assert (Hr : (0 <= z mod 256 < 256)%Z) by (apply Z.mod_pos_bound; lia).
  destruct (Byte.of_N (Z.to_N (z mod 256))) as [b|] eqn:E.
  - apply Byte.to_of_N in E. rewrite E. lia.
  - apply Byte.of_N_None_iff in E. lia.
Qed.

Lemma le32_length (z : Z) : length (le32 z) = 4%nat.
Proof. reflexivity. Qed.

Lemma le32_decode_le32 (z : Z) : le32_decode (le32 z) = uint32_wrap z.
Proof.
  unfold le32_decode, le32, uint32_wrap. rewrite !Z_of_byte_of_Z.
  change (2 ^ 8)%Z with 256%Z. change (2 ^ 16)%Z with 65536%Z.
  change (2 ^ 24)%Z with 16777216%Z. change (2 ^ 32)%Z with 4294967296%Z.
  Z.div_mod_to_equations. lia.
Qed.

(** The padding loop stops within its three rounds with a length that
    is a multiple of 4, having appended fewer than 4 copies of [pad]. *)
Lemma padLoop_spec (pad : byte) (v : list byte) :
  exists k, (k < 4)%nat /\
    padLoop 3 pad v = v ++ repeat pad k /\
    (Z.of_nat (length v + k) mod 4 = 0)%Z.
Proof.
  assert (Hlen : forall l : list byte,
            Z.of_nat (length (l ++ [pad])) = (Z.of_nat (length l) + 1)%Z).
  { intros l. rewrite length_app. cbn [length]. lia. }
  unfold padLoop.
  destruct (Z.of_nat (length v) mod 4 =? 0)%Z eqn:E0.
  { exists 0%nat. rewrite app_nil_r, Nat.add_0_r. apply Z.eqb_eq in E0.
    repeat split; [lia | assumption]. }
  destruct (Z.of_nat (length (v ++ [pad])) mod 4 =? 0)%Z eqn:E1.
  { exists 1%nat. apply Z.eqb_eq in E1. rewrite Hlen in E1.
    repeat split; [lia | rewrite Nat2Z.inj_add; exact E1]. }
  destruct (Z.of_nat (length ((v ++ [pad]) ++ [pad])) mod 4 =? 0)%Z eqn:E2.
  { exists 2%nat. apply Z.eqb_eq in E2. rewrite !Hlen in E2.
    repeat split; [lia | now rewrite <- app_assoc |].
    rewrite Nat2Z.inj_add. rewrite <- E2. f_equal. lia. }
  exists 3%nat. apply Z.eqb_neq in E0, E1, E2. rewrite !Hlen in E1. rewrite !Hlen in E2.
  repeat split; [lia | now rewrite <- !app_assoc |].
  rewrite Nat2Z.inj_add. change (Z.of_nat 3) with 3%Z.
  revert E0 E1 E2. generalize (Z.of_nat (length v)). intros n E0 E1 E2.
  Z.div_mod_to_equations. lia.
Qed.

Lemma padLoop_length_ge (pad : byte) (v : list byte) :
  (length v <= length (padLoop 3 pad v))%nat.
Proof.
  destruct (padLoop_spec pad v) as (k & _ & -> & _). rewrite length_app. lia.
Qed.

(** The layout of the container and the value of its length field. *)
Lemma writeGLB_layout (json binData : list byte) :
  let file := writeGLB json binData in
  exists jsonPad binPad,
    (jsonPad < 4)%nat /\ (binPad < 4)%nat /\
    (Z.of_nat (length json + jsonPad) mod 4 = 0)%Z /\
    (Z.of_nat (length binData + binPad) mod 4 = 0)%Z /\
    file =
      [Byte.x67; Byte.x6c; Byte.x54; Byte.x46] ++ le32 2 ++
      le32 (uint32_wrap (12 + 8 + uint32_wrap (Z.of_nat (length json + jsonPad))
                         + 8 + uint32_wrap (Z.of_nat (length binData + binPad)))) ++
      le32 (uint32_wrap (Z.of_nat (length json + jsonPad))) ++
      le32 0x4E4F534A ++ (json ++ repeat Byte.x20 jsonPad) ++
      le32 (uint32_wrap (Z.of_nat (length binData + binPad))) ++
      le32 0x004E4942 ++ (binData ++ repeat Byte.x00 binPad) /\
    Z.of_nat (length file) =
      (12 + 8 + Z.of_nat (length json + jsonPad)
       + 8 + Z.of_nat (length binData + binPad))%Z /\
    glbMagic file = [Byte.x67; Byte.x6c; Byte.x54; Byte.x46] /\
    glbVersion file = 2%Z /\
    glbTotalLength file = uint32_wrap (Z.of_nat (length file)).
Proof.
  intros file.
  destruct (padLoop_spec Byte.x20 json) as (kj & Hkj & Ej & Mj).
  destruct (padLoop_spec Byte.x00 binData) as (kb & Hkb & Eb & Mb).
  exists kj, kb.
  assert (Hfile : file =
      [Byte.x67; Byte.x6c; Byte.x54; Byte.x46] ++ le32 2 ++
      le32 (uint32_wrap (12 + 8 + uint32_wrap (Z.of_nat (length json + kj))
                         + 8 + uint32_wrap (Z.of_nat (length binData + kb)))) ++
      le32 (uint32_wrap (Z.of_nat (length json + kj))) ++
      le32 0x4E4F534A ++ (json ++ repeat Byte.x20 kj) ++
      le32 (uint32_wrap (Z.of_nat (length binData + kb))) ++
      le32 0x004E4942 ++ (binData ++ repeat Byte.x00 kb)).
  { unfold file, writeGLB, align4. cbv zeta. rewrite Ej, Eb.
    rewrite !length_app, !repeat_length. reflexivity. }
  assert (Hlen : Z.of_nat (length file) =
      (12 + 8 + Z.of_nat (length json + kj)
       + 8 + Z.of_nat (length binData + kb))%Z).
  { rewrite Hfile. rewrite !length_app, !le32_length, !repeat_length.
    cbn [length]. lia. }
  split; [exact Hkj|]. split; [exact Hkb|]. split; [exact Mj|].
  split; [exact Mb|]. split; [exact Hfile|]. split; [exact Hlen|].
  split; [|split].
  - rewrite Hfile. reflexivity.
  - rewrite Hfile. reflexivity.
  - rewrite Hlen. rewrite Hfile. unfold glbTotalLength.
    set (total := uint32_wrap _).
    change (firstn 4 (skipn 8 _)) with (le32 total).
    rewrite le32_decode_le32. unfold total, uint32_wrap.
    change (2 ^ 32)%Z with 4294967296%Z.
    generalize (Z.of_nat (length json + kj)) (Z.of_nat (length binData + kb)).
    intros a b. Z.div_mod_to_equations. lia.
Qed.

Section Container.

Variable float_le : R -> list byte.
Hypothesis float_le_length : forall x, length (float_le x) = 4%nat.
Variable composeJson :
  list MaterialDef -> list MeshPrimitive -> list AccessorInfo ->
  list ViewInfo -> Z -> option string -> list byte.

Lemma floatBytes_length (l : list R) :
  length (floatBytes float_le l) = (4 * length l)%nat.
Proof using float_le_length.
  unfold floatBytes. induction l as [|x l IH]; cbn [map concat length].
  - reflexivity.
  - rewrite length_app, IH, float_le_length. lia.
Qed.

Lemma indexBytes_length (l : list Z) :
  length (indexBytes l) = (4 * length l)%nat.
Proof using Type.
  unfold indexBytes. induction l as [|x l IH]; cbn [map concat length].
  - reflexivity.
  - rewrite length_app, IH, le32_length. lia.
Qed.

Lemma appendBytes_length_ge (bin bytes : list byte) :
  (length bin + length bytes <= length (fst (appendBytes bin bytes)))%nat.
Proof using Type.
  unfold appendBytes, align4. cbn [fst]. rewrite length_app.
  pose proof (padLoop_length_ge Byte.x00 bin). lia.
Qed.

(** A material with triangles adds its three arrays to the buffer. *)
Lemma packMaterial_binData_ge (m : gmap string MeshBuffer) (idx : gmap string Z)
    (st : PackState) (mat : MaterialDef) (buf : MeshBuffer) :
  m !! name mat = Some buf -> indices buf <> [] -> positions buf <> [] ->
  (length (binData st)
   + 4 * (length (positions buf) + length (normals buf) + length (indices buf))
   <= length (binData (packMaterial float_le m idx st mat)))%nat.
Proof using float_le_length.
  intros Hm Hi Hp. unfold packMaterial. rewrite Hm.
  destruct (indices buf) as [|i0 il] eqn:Ei; [congruence|].
  destruct (positions buf) as [|p0 pl] eqn:Ep; [congruence|].
  cbv zeta.
  destruct (appendBytes (binData st) _) as [bin1 o1] eqn:E1.
  destruct (appendBytes bin1 _) as [bin2 o2] eqn:E2.
  destruct (appendBytes bin2 _) as [bin3 o3] eqn:E3.
  cbn [binData].
  pose proof (appendBytes_length_ge (binData st) (floatBytes float_le (p0 :: pl))) as H1.
  pose proof (appendBytes_length_ge bin1 (floatBytes float_le (normals buf))) as H2.
  pose proof (appendBytes_length_ge bin2 (indexBytes (i0 :: il))) as H3.
  rewrite E1 in H1. rewrite E2 in H2. rewrite E3 in H3. cbn [fst] in H1, H2, H3.
  rewrite !floatBytes_length in *. rewrite indexBytes_length in *. lia.
Qed.


End Container.


(** ** A container longer than its length field can say *)

Lemma appendTo_lookup_eq (m : gmap string MeshBuffer) (mat : string)
    (r : Rect.t) (baseZ topZ : R) :
  SaveGLTF.appendTo m mat r baseZ topZ !! mat =
  Some (appendRectPrism (default emptyMeshBuffer (m !! mat)) r baseZ topZ).
Proof. unfold SaveGLTF.appendTo. now rewrite lookup_insert_eq. Qed.

Lemma default_some {A : Type} (d x : A) : default d (Some x) = x.
Proof. reflexivity. Qed.

Lemma residentialBoxes_empty : residentialBoxes 0 ∅.
Proof.
  unfold residentialBoxes. split; [intros; apply lookup_empty|].
  split; [lia|]. rewrite lookup_empty. cbn. lia.
Qed.

Lemma residentialBoxes_step (k : Z) (m : gmap string MeshBuffer) :
  (0 <= k)%Z -> residentialBoxes k m ->
  residentialBoxes (k + 1) (SaveGLTF.emitBuilding m unitBlock).
Proof.
  intros Hk (Hnone & _ & Hp & Hn & Hi).
  change (SaveGLTF.emitBuilding m unitBlock)
    with (SaveGLTF.appendTo m "mat_residential" (Rect.mk 0 0 1 1) 0.0
            (Rmax 1.0 (IZR 3))).
  unfold residentialBoxes.
  split; [intros key Hkey; rewrite appendTo_lookup_ne by congruence; now apply Hnone|].
  rewrite appendTo_lookup_eq. split; [discriminate|].
  rewrite default_some.
  destruct (appendRectPrism_sizes (default emptyMeshBuffer (m !! "mat_residential"))
              (Rect.mk 0 0 1 1) 0.0 (Rmax 1.0 (IZR 3))) as (Hp' & Hn' & Hi').
  cbv zeta in Hp', Hn', Hi'. rewrite Hp', Hn', Hi'. lia.
Qed.

Lemma residentialBoxes_fold (n : nat) (k : Z) (m : gmap string MeshBuffer) :
  (0 <= k)%Z -> residentialBoxes k m ->
  residentialBoxes (k + Z.of_nat n)
    (fold_left SaveGLTF.emitBuilding (repeat unitBlock n) m).
Proof.
  revert k m; induction n as [|n IH]; intros k m Hk H.
  - cbn [repeat fold_left]. now rewrite Z.add_0_r.
  - cbn [repeat fold_left].
    replace (k + Z.of_nat (S n))%Z with (k + 1 + Z.of_nat n)%Z by lia.
    apply IH; [lia|]. now apply residentialBoxes_step.
Qed.

Lemma residentialBoxes_materials (k : Z) (m : gmap string MeshBuffer) :
  (0 < k)%Z -> residentialBoxes k m ->
  exists buf,
    m !! "mat_residential" = Some buf /\
    indices buf <> [] /\ positions buf <> [] /\
    fst (SaveGLTF.collectMaterials m) =
      [mkMaterialDef "mat_residential" 0.83 0.72 0.62 0.08 48.0 0.0 0.55].
Proof.
  intros Hk (Hnone & Hsome & Hp & Hn & Hi).
  destruct (m !! "mat_residential") as [buf|] eqn:Em; [|now specialize (Hsome Hk)].
  rewrite default_some in Hp, Hn, Hi.
  exists buf. split; [reflexivity|].
  assert (Hi' : indices buf <> []) by (intros E; rewrite E in Hi; cbn in Hi; lia).
  assert (Hp' : positions buf <> []) by (intros E; rewrite E in Hp; cbn in Hp; lia).
  split; [exact Hi'|]. split; [exact Hp'|].
  unfold SaveGLTF.collectMaterials. rewrite collectMaterials_filter.
  unfold kMaterialPalette. cbn [List.filter fst app].
  unfold receivedTriangles. cbn [name].
  rewrite (Hnone "mat_default"), (Hnone "mat_commercial"),
    (Hnone "mat_industrial"), (Hnone "mat_green"), (Hnone "mat_road"), Em
    by discriminate.
  destruct (indices buf); [congruence | reflexivity].
Qed.

Section Overflow.

Variable float_le : R -> list byte.
Hypothesis float_le_length : forall x, length (float_le x) = 4%nat.
Variable composeJson :
  list MaterialDef -> list MeshPrimitive -> list AccessorInfo ->
  list ViewInfo -> Z -> option string -> list byte.

(** Each box takes 1008 bytes of the packed buffer. *)
Lemma pack_residentialBoxes (k : Z) (m : gmap string MeshBuffer) :
  (0 < k)%Z -> residentialBoxes k m ->
  (1008 * k <= Z.of_nat (length (binData (pack float_le m))))%Z.
Proof using float_le_length.
  intros Hk H.
  destruct (residentialBoxes_materials k m Hk H) as (buf & Em & Hi & Hp & Hmat).
  destruct H as (_ & _ & Hlp & Hln & Hli). rewrite Em in Hlp, Hln, Hli.
  rewrite default_some in Hlp, Hln, Hli.
  unfold pack. destruct (SaveGLTF.collectMaterials m) as [mats idx].
  cbn [fst] in Hmat. subst mats. cbn [fold_left].
  pose proof (packMaterial_binData_ge float_le float_le_length m idx
                (mkPackState [] [] [] [])
                (mkMaterialDef "mat_residential" 0.83 0.72 0.62 0.08 48.0 0.0 0.55)
                buf Em Hi Hp) as Hge.
  cbn [binData length] in Hge. lia.
Qed.

(** The container holds the packed buffer, and its length field is a
    32-bit value. *)
Lemma glb_length_ge (c : City.t) (binName : string) :
  let file := glbOf (saveGLTF float_le composeJson c binName true) in
  (Z.of_nat (length (binData (pack float_le (SaveGLTF.meshes c))))
   <= Z.of_nat (length file))%Z /\
  (glbTotalLength file < 2 ^ 32)%Z.
Proof using Type.
  intros file. unfold file, saveGLTF. cbv zeta. cbn [glbOf].
  generalize (pack float_le (SaveGLTF.meshes c)). intros st.
  generalize (composeJson (fst (SaveGLTF.collectMaterials (SaveGLTF.meshes c)))
                (primitives st) (accessors st) (views st)
                (Z.of_nat (length (binData st))) None).
  intros json.
  destruct (writeGLB_layout json (binData st))
    as (kj & kb & _ & _ & _ & _ & _ & Hlen & _ & _ & Htot).
  cbv zeta in Hlen, Htot. split.
  - rewrite Hlen. lia.
  - rewrite Htot. unfold uint32_wrap. apply Z.mod_pos_bound. lia.
Qed.

(** Enough residential boxes make the container longer than 2^32
    bytes, whatever the encoding of the floats and the JSON text are. *)
Lemma long_container (c : City.t) (binName : string) (k : Z) :
  (0 < k)%Z -> residentialBoxes k (SaveGLTF.meshes c) ->
  (2 ^ 32 <= 1008 * k)%Z ->
  let file := glbOf (saveGLTF float_le composeJson c binName true) in
  (glbTotalLength file < 2 ^ 32 <= Z.of_nat (length file))%Z.
Proof using float_le_length.
  intros Hk Hboxes Hbig file.
  pose proof (pack_residentialBoxes k (SaveGLTF.meshes c) Hk Hboxes) as Hbin.
  destruct (glb_length_ge c binName) as [Hge Hlt].
  fold file in Hge, Hlt. lia.
Qed.

End Overflow.

Lemma meshes_buildings_only (size : Z) (zones : list ZoneType)
    (bs : list Building.t) (fs : list Facility.t) (blocks : list Block.t) :
  SaveGLTF.meshes (City.mk size zones bs fs [] blocks) =
  fold_left SaveGLTF.emitBuilding bs ∅.
Proof. reflexivity. Qed.

Lemma crowdedCity_boxes :
  residentialBoxes 4300000 (SaveGLTF.meshes crowdedCity).
Proof.
  pose proof (residentialBoxes_fold (Z.to_nat 4300000) 0 ∅ ltac:(lia)
                residentialBoxes_empty) as H.
  rewrite Z2Nat.id, Z.add_0_l in H by lia.
  unfold crowdedCity. rewrite meshes_buildings_only. exact H.
Qed.


(** ** The scenarios of the specification *)

(** One residential building on a 2 x 2 grid: 8 vertex lines and 12
    face lines in the text export. *)
Example oneHouse_text :
  countV (ofs (SaveOBJ.body true "city.mtl" oneHouse)) = 8%Z /\
  countF (ofs (SaveOBJ.body true "city.mtl" oneHouse)) = 12%Z.
Proof.
  assert (H : (1 + 8 * (3 * Z.of_nat (length (City.buildings oneHouse))
                        + Z.of_nat (length (City.roads oneHouse))) < 2 ^ 64)%Z)
    by (cbn; lia).
  destruct (body_objInv true "city.mtl" oneHouse H) as (_ & Hv & Hf & _).
  change (objBoxCount oneHouse) with 1%Z in Hv, Hf. split; assumption.
Qed.

(** The same city in the summary. *)
Example oneHouse_summary :
  let s := SaveSummary.summary oneHouse in
  SaveSummary.gridSize s = 2%Z /\
  SaveSummary.totalBuildings s = 1%Z /\
  SaveSummary.residentialCells s = 1%Z /\
  SaveSummary.undevelopedCells s = 3%Z /\
  SaveSummary.maxResidentialHeight s = 3%Z /\
  SaveSummary.maxDistanceToSchool s = -1 /\
  SaveSummary.maxDistanceToHospital s = -1.
Proof.
  cbv zeta. repeat split; try reflexivity.
  - change (SaveSummary.maxDistanceToSchool (SaveSummary.summary oneHouse))
      with (-1.0). lra.
  - change (SaveSummary.maxDistanceToHospital (SaveSummary.summary oneHouse))
      with (-1.0). lra.
Qed.

(** One park: the lawn and the two planters, 36 triangles under
    [mat_green] and no other buffer. *)
Example onePark_triangles :
  exists buf,
    SaveGLTF.meshes onePark !! "mat_green" = Some buf /\
    length (indices buf) = (3 * 36)%nat /\
    map name (SaveGLTF.materials onePark) = ["mat_green"].
Proof.
  assert (Hm : exists r1 r2 r3 z1 z2 z3 z4 z5 z6,
             SaveGLTF.meshes onePark =
             SaveGLTF.appendTo
               (SaveGLTF.appendTo (SaveGLTF.appendTo ∅ "mat_green" r1 z1 z2)
                  "mat_green" r2 z3 z4) "mat_green" r3 z5 z6).
  { unfold SaveGLTF.meshes, onePark.
    cbn [City.buildings City.roads fold_left].
    unfold SaveGLTF.emitBuilding. cbn [Building.zone Building.footprint].
    unfold SaveGLTF.emitPark. repeat eexists. }
  destruct Hm as (r1 & r2 & r3 & z1 & z2 & z3 & z4 & z5 & z6 & Hm).
  assert (Hb : exists buf, SaveGLTF.meshes onePark !! "mat_green" = Some buf /\
                           length (indices buf) = 108%nat).
  { rewrite Hm, appendTo_lookup_eq. eexists; split; [reflexivity|].
    rewrite appendTo_lookup_eq, default_some.
    rewrite appendTo_lookup_eq, default_some.
    rewrite lookup_empty.
    repeat match goal with
           | |- context [appendRectPrism ?b ?r ?z ?t] =>
               let H := fresh in
               destruct (appendRectPrism_sizes b r z t) as (_ & _ & H);
               cbv zeta in H; rewrite H; clear H
           end.
    reflexivity. }
  destruct Hb as (buf & Hbuf & Hlen). exists buf.
  split; [exact Hbuf|]. split; [exact Hlen|].
  rewrite materials_filter.
  unfold kMaterialPalette, receivedTriangles. cbn [List.filter name].
  rewrite Hbuf. rewrite Hm.
  rewrite !appendTo_lookup_ne by discriminate. rewrite !lookup_empty.
  destruct (indices buf); [discriminate | reflexivity].
Qed.

(** An arterial road from (0,0) to (10,0): a box of length 10 and
    width 1.6 centred on the centreline, 0.05 thick, in both exports. *)
Example arterialRoad_box :
  roadQuad arterialRoad = mkBase (0, 0.8) (0, -0.8) (10, -0.8) (10, 0.8) /\
  roadRect arterialRoad = Rect.mk 0 (-0.8) 10 0.8 /\
  kRoadThickness = 0.05.
Proof.
  assert (Hlen : roadLength arterialRoad = 10).
  { unfold roadLength, arterialRoad.
    cbn [RoadSegment.x1 RoadSegment.x2 RoadSegment.y1 RoadSegment.y2].
    replace ((10 - 0) * (10 - 0) + (0 - 0) * (0 - 0)) with (10 * 10) by lra.
    apply sqrt_square. lra. }
  assert (Hoff : roadOffset arterialRoad = (0, 0.8)).
  { unfold roadOffset. rewrite Hlen. unfold arterialRoad, roadWidth.
    cbn [RoadSegment.x1 RoadSegment.x2 RoadSegment.y1 RoadSegment.y2 RoadSegment.type].
    f_equal; lra. }
  split; [|split; [|reflexivity]].
  - unfold roadQuad. rewrite Hoff. unfold arterialRoad.
    cbn [RoadSegment.x1 RoadSegment.x2 RoadSegment.y1 RoadSegment.y2].
    f_equal; f_equal; lra.
  - unfold roadRect. rewrite Hoff. unfold arterialRoad, SaveGLTF.swapIfGt.
    cbn [RoadSegment.x1 RoadSegment.x2 RoadSegment.y1 RoadSegment.y2].
    destruct (Rgt_dec _ _) as [H|_]; [exfalso; lra|].
    destruct (Rgt_dec _ _) as [_|H]; [|exfalso; lra].
    cbn [fst snd]. f_equal; lra.
Qed.

(** The worst case of a single residential building is the distance
    to the nearer of its two schools; there is no hospital. *)
Example twoSchools_summary :
  SaveSummary.maxDistanceToSchool (SaveSummary.summary twoSchools) = 2 /\
  SaveSummary.maxDistanceToHospital (SaveSummary.summary twoSchools) = -1.
Proof.
  assert (H5 : sqrt (((0 + 2) * 0.5 - 4) * ((0 + 2) * 0.5 - 4)
                     + ((0 + 2) * 0.5 - 5) * ((0 + 2) * 0.5 - 5)) = 5).
  { replace (((0 + 2) * 0.5 - 4) * ((0 + 2) * 0.5 - 4)
             + ((0 + 2) * 0.5 - 5) * ((0 + 2) * 0.5 - 5)) with (5 * 5) by lra.
    apply sqrt_square; lra. }
  assert (H2 : sqrt (((0 + 2) * 0.5 - 1) * ((0 + 2) * 0.5 - 1)
                     + ((0 + 2) * 0.5 - 3) * ((0 + 2) * 0.5 - 3)) = 2).
  { replace (((0 + 2) * 0.5 - 1) * ((0 + 2) * 0.5 - 1)
             + ((0 + 2) * 0.5 - 3) * ((0 + 2) * 0.5 - 3)) with (2 * 2) by lra.
    apply sqrt_square; lra. }
  assert (Hmax : 5 < DBL_MAX) by (unfold DBL_MAX; apply IZR_lt; reflexivity).
  split.
  - change (SaveSummary.maxDistanceToSchool (SaveSummary.summary twoSchools))
      with (maxDistanceTo Facility.School (SaveSummary.summary twoSchools)).
    rewrite maxDistanceTo_fold.
    unfold twoSchools, SaveSummary.worstCase, SaveSummary.nearest,
      SaveSummary.nearestStep, Rect.centreX, Rect.centreY.
    cbn [City.buildings City.facilities List.filter isResidential Building.zone
         Building.footprint SaveSummary.positionsOf flat_map Facility.type
         Facility.x Facility.y app fold_left fst snd
         Rect.x0 Rect.x1 Rect.y0 Rect.y1].
    rewrite H5, H2.
    destruct (Rlt_dec 5 DBL_MAX) as [_|H]; [|exfalso; lra].
    destruct (Rlt_dec 2 5) as [_|H]; [|exfalso; lra].
    destruct (Rgt_dec 2 (-1)) as [_|H]; [reflexivity | exfalso; lra].
  - change (SaveSummary.maxDistanceToHospital (SaveSummary.summary twoSchools))
      with (maxDistanceTo Facility.Hospital (SaveSummary.summary twoSchools)).
    rewrite maxDistanceTo_fold. reflexivity.
Qed.

(** * Further properties of the exporters *)

(** ** Counters of the summary *)

Lemma incr_small (n : Z) : (0 <= n < 2 ^ 64 - 1)%Z -> SaveSummary.incr n = (n + 1)%Z.
Proof. intros H. unfold SaveSummary.incr, size_t_wrap. apply Z.mod_small. lia. Qed.

Lemma countZone_cons (z a : ZoneType) (l : list ZoneType) :
  countZone z (a :: l) = ((if zone_eqb z a then 1 else 0) + countZone z l)%Z.
Proof.
  unfold countZone. cbn [List.filter]. destruct (zone_eqb z a); cbn [length]; lia.
Qed.

Lemma countZone_nonneg (z : ZoneType) (l : list ZoneType) : (0 <= countZone z l)%Z.
Proof. unfold countZone. lia. Qed.

Lemma countZone_total (l : list ZoneType) :
  (countZone Residential l + countZone Commercial l + countZone Industrial l
   + countZone Green l + countZone ZNone l = Z.of_nat (length l))%Z.
Proof.
  induction l as [|a l IH]; [reflexivity|].
  rewrite !countZone_cons. cbn [length]. rewrite Nat2Z.inj_succ.
  destruct a; cbn [zone_eqb]; lia.
Qed.

Lemma countCell_fold (l : list ZoneType) (k : SaveSummary.CellCounts) :
  (0 <= SaveSummary.countResidential k /\ 0 <= SaveSummary.countCommercial k /\
   0 <= SaveSummary.countIndustrial k /\ 0 <= SaveSummary.countGreen k /\
   0 <= SaveSummary.countUndeveloped k)%Z ->
  (SaveSummary.countResidential k + SaveSummary.countCommercial k
   + SaveSummary.countIndustrial k + SaveSummary.countGreen k
   + SaveSummary.countUndeveloped k + Z.of_nat (length l) < 2 ^ 64)%Z ->
  fold_left SaveSummary.countCell l k =
  SaveSummary.mkCellCounts
    (SaveSummary.countResidential k + countZone Residential l)
    (SaveSummary.countCommercial k + countZone Commercial l)
    (SaveSummary.countIndustrial k + countZone Industrial l)
    (SaveSummary.countGreen k + countZone Green l)
    (SaveSummary.countUndeveloped k + countZone ZNone l).
Proof.
  revert k; induction l as [|a l IH]; intros [r c i g u] Hpos Hb;
    cbn [SaveSummary.countResidential SaveSummary.countCommercial
         SaveSummary.countIndustrial SaveSummary.countGreen
         SaveSummary.countUndeveloped] in *.
  - cbn [fold_left]. unfold countZone; cbn. now rewrite !Z.add_0_r.
  - cbn [fold_left length] in *. rewrite Nat2Z.inj_succ in Hb.
    rewrite !countZone_cons.
    destruct a; cbn [SaveSummary.countCell zone_eqb
                     SaveSummary.countResidential SaveSummary.countCommercial
                     SaveSummary.countIndustrial SaveSummary.countGreen
                     SaveSummary.countUndeveloped];
      rewrite incr_small by lia; rewrite IH;
      cbn [SaveSummary.countResidential SaveSummary.countCommercial
           SaveSummary.countIndustrial SaveSummary.countGreen
           SaveSummary.countUndeveloped]; try lia;
      f_equal; lia.
Qed.

(** X1.  Each cell counter of the summary is the number of cells of its
    zone, and the five counters add up to the number of cells of the
    zoning grid (which is below 2^64, the range of the counters). *)
Theorem summary_cell_counts (c : City.t) :
  (Z.of_nat (length (City.zones c)) < 2 ^ 64)%Z ->
  let s := SaveSummary.summary c in
  SaveSummary.residentialCells s = countZone Residential (City.zones c) /\
  SaveSummary.commercialCells s = countZone Commercial (City.zones c) /\
  SaveSummary.industrialCells s = countZone Industrial (City.zones c) /\
  SaveSummary.greenCells s = countZone Green (City.zones c) /\
  SaveSummary.undevelopedCells s = countZone ZNone (City.zones c) /\
  (SaveSummary.residentialCells s + SaveSummary.commercialCells s
   + SaveSummary.industrialCells s + SaveSummary.greenCells s
   + SaveSummary.undevelopedCells s = Z.of_nat (length (City.zones c)))%Z.
Proof.
  intros Hb s. unfold s, SaveSummary.summary.
  cbn [SaveSummary.residentialCells SaveSummary.commercialCells
       SaveSummary.industrialCells SaveSummary.greenCells
       SaveSummary.undevelopedCells].
  rewrite countCell_fold
    by (cbn [SaveSummary.countResidential SaveSummary.countCommercial
             SaveSummary.countIndustrial SaveSummary.countGreen
             SaveSummary.countUndeveloped]; lia).
  cbn [SaveSummary.countResidential SaveSummary.countCommercial
       SaveSummary.countIndustrial SaveSummary.countGreen
       SaveSummary.countUndeveloped].
  pose proof (countZone_total (City.zones c)).
  repeat split; lia.
Qed.

Lemma summary_cell_counts_witness :
  let c := City.mk 2 [Residential; Green; ZNone; Residential] [] [] [] [] in
  (Z.of_nat (length (City.zones c)) < 2 ^ 64)%Z /\
  SaveSummary.residentialCells (SaveSummary.summary c) = 2%Z /\
  SaveSummary.undevelopedCells (SaveSummary.summary c) = 1%Z.
Proof.
  intros c.
  assert (H : (Z.of_nat (length (City.zones c)) < 2 ^ 64)%Z) by (cbn; lia).
  split; [exact H|].
  destruct (summary_cell_counts c H) as (Hr & _ & _ & _ & Hu & _).
  split; [exact Hr | exact Hu].
Defined.

Lemma statBuilding_total (sp hp : list (R * R)) (bs : list Building.t)
    (s : SaveSummary.BuildingStats) :
  (0 <= SaveSummary.st_totalBuildings s)%Z ->
  (SaveSummary.st_totalBuildings s + Z.of_nat (length bs) < 2 ^ 64)%Z ->
  SaveSummary.st_totalBuildings (fold_left (SaveSummary.statBuilding sp hp) bs s) =
  (SaveSummary.st_totalBuildings s + Z.of_nat (length (List.filter isBuilt bs)))%Z.
Proof.
  revert s; induction bs as [|b bs IH]; intros s H0 Hb; cbn [fold_left List.filter length] in *.
  - lia.
  - rewrite Nat2Z.inj_succ in Hb.
    assert (Hs : SaveSummary.st_totalBuildings (SaveSummary.statBuilding sp hp s b) =
                 (SaveSummary.st_totalBuildings s + (if isBuilt b then 1 else 0))%Z).
    { unfold SaveSummary.statBuilding, isBuilt.
      destruct (Building.zone b); cbn [SaveSummary.st_totalBuildings];
        rewrite ?incr_small by lia; lia. }
    rewrite IH; rewrite Hs; destruct (isBuilt b); cbn [length]; lia.
Qed.

Lemma countFacility_fold (kind : Facility.Type_) (fs : list Facility.t) (n : Z) :
  (0 <= n)%Z -> (n + Z.of_nat (length fs) < 2 ^ 64)%Z ->
  fold_left (SaveSummary.countFacility kind) fs n =
  (n + Z.of_nat (length (List.filter (isKind kind) fs)))%Z.
Proof.
  revert n; induction fs as [|f fs IH]; intros n H0 Hb; cbn [fold_left List.filter length] in *.
  - lia.
  - rewrite Nat2Z.inj_succ in Hb.
    assert (Hs : SaveSummary.countFacility kind n f =
                 (n + (if isKind kind f then 1 else 0))%Z).
    { unfold SaveSummary.countFacility, isKind.
      destruct (Facility.type f), kind; rewrite ?incr_small by lia; lia. }
    rewrite IH; rewrite Hs; destruct (isKind kind f); cbn [length]; lia.
Qed.

Lemma positionsOf_length (kind : Facility.Type_) (fs : list Facility.t) :
  length (SaveSummary.positionsOf kind fs) = length (List.filter (isKind kind) fs).
Proof.
  induction fs as [|f fs IH]; [reflexivity|].
  unfold SaveSummary.positionsOf in *. cbn [flat_map List.filter].
  rewrite length_app, IH. unfold isKind.
  destruct (Facility.type f), kind; reflexivity.
Qed.

Lemma isKind_partition (fs : list Facility.t) :
  (length (List.filter (isKind Facility.Hospital) fs)
   + length (List.filter (isKind Facility.School) fs) = length fs)%nat.
Proof.
  induction fs as [|f fs IH]; [reflexivity|].
  cbn [List.filter length].
  assert (E : isKind Facility.Hospital f = negb (isKind Facility.School f))
    by (unfold isKind; destruct (Facility.type f); reflexivity).
  rewrite E. destruct (isKind Facility.School f); cbn [negb length]; lia.
Qed.

(** X2.  [totalBuildings] is the number of buildings whose zone is
    neither None nor Green; [numHospitals] and [numSchools] count the
    facilities by kind and add up to the number of facilities; and
    [numSchools] is the number of points that the distance statistic
    searches.  The lists are shorter than 2^64, the range of the
    counters. *)
Theorem summary_counts (c : City.t) :
  (Z.of_nat (length (City.buildings c)) < 2 ^ 64)%Z ->
  (Z.of_nat (length (City.facilities c)) < 2 ^ 64)%Z ->
  let s := SaveSummary.summary c in
  SaveSummary.totalBuildings s =
    Z.of_nat (length (List.filter isBuilt (City.buildings c))) /\
  SaveSummary.numHospitals s =
    Z.of_nat (length (List.filter (isKind Facility.Hospital) (City.facilities c))) /\
  SaveSummary.numSchools s =
    Z.of_nat (length (List.filter (isKind Facility.School) (City.facilities c))) /\
  (SaveSummary.numHospitals s + SaveSummary.numSchools s =
     Z.of_nat (length (City.facilities c)))%Z /\
  SaveSummary.numSchools s =
    Z.of_nat (length (SaveSummary.positionsOf Facility.School (City.facilities c))) /\
  SaveSummary.gridSize s = City.size c.
Proof.
  intros Hb Hf s. unfold s, SaveSummary.summary.
  cbn [SaveSummary.totalBuildings SaveSummary.numHospitals SaveSummary.numSchools
       SaveSummary.gridSize].
  pose proof (isKind_partition (City.facilities c)) as Hp.
  pose proof (List.filter_length_le (isKind Facility.Hospital) (City.facilities c)).
  pose proof (List.filter_length_le (isKind Facility.School) (City.facilities c)).
  rewrite statBuilding_total by (cbn [SaveSummary.st_totalBuildings]; lia).
  rewrite !countFacility_fold by lia.
  rewrite positionsOf_length.
  cbn [SaveSummary.st_totalBuildings].
  repeat split; lia.
Qed.

Lemma summary_counts_witness :
  let c := City.mk 2 []
             [Building.mk (Rect.mk 0 0 1 1) Commercial 5 true Facility.School;
              Building.mk (Rect.mk 1 0 2 1) Green 0 false Facility.Hospital]
             [Facility.mk 0.5 0.5 Facility.School] [] [] in
  ((Z.of_nat (length (City.buildings c)) < 2 ^ 64)%Z /\
   (Z.of_nat (length (City.facilities c)) < 2 ^ 64)%Z) /\
  SaveSummary.totalBuildings (SaveSummary.summary c) = 1%Z /\
  SaveSummary.numSchools (SaveSummary.summary c) = 1%Z.
Proof.
  intros c.
  assert (Hb : (Z.of_nat (length (City.buildings c)) < 2 ^ 64)%Z) by (cbn; lia).
  assert (Hf : (Z.of_nat (length (City.facilities c)) < 2 ^ 64)%Z) by (cbn; lia).
  split; [tauto|].
  destruct (summary_counts c Hb Hf) as (Ht & _ & Hs & _).
  split; [exact Ht | exact Hs].
Defined.

Lemma max_loop (l : list Z) (m0 : Z) :
  let r := fold_left Z.max l m0 in
  (m0 <= r)%Z /\ (forall v, In v l -> (v <= r)%Z) /\ (r = m0 \/ In r l).
Proof.
  revert m0; induction l as [|v l IH]; intros m0; cbn [fold_left In].
  - split; [lia|]. split; [contradiction | now left].
  - destruct (IH (Z.max m0 v)) as (Hle & Hall & Hin). cbv zeta.
    split; [lia|]. split.
    + intros u [<-|Hu]; [lia | now apply Hall].
    + destruct Hin as [Hin|Hin]; [|right; right; exact Hin].
      rewrite Hin. destruct (Z.max_spec m0 v) as [[_ ->]|[_ ->]];
        [right; now left | now left].
Qed.

Lemma statBuilding_heights (sp hp : list (R * R)) (bs : list Building.t)
    (s : SaveSummary.BuildingStats) :
  let s' := fold_left (SaveSummary.statBuilding sp hp) bs s in
  SaveSummary.st_maxResidentialHeight s' =
    fold_left Z.max (map Building.height (List.filter (inZone Residential) bs))
      (SaveSummary.st_maxResidentialHeight s) /\
  SaveSummary.st_maxCommercialHeight s' =
    fold_left Z.max (map Building.height (List.filter (inZone Commercial) bs))
      (SaveSummary.st_maxCommercialHeight s) /\
  SaveSummary.st_maxIndustrialHeight s' =
    fold_left Z.max (map Building.height (List.filter (inZone Industrial) bs))
      (SaveSummary.st_maxIndustrialHeight s).
Proof.
  revert s; induction bs as [|b bs IH]; intros s; cbn [fold_left List.filter map].
  - repeat split.
  - destruct (IH (SaveSummary.statBuilding sp hp s b)) as (H1 & H2 & H3).
    cbv zeta. rewrite H1, H2, H3.
    unfold SaveSummary.statBuilding, inZone.
    destruct (Building.zone b);
      cbn [zone_eqb map fold_left SaveSummary.st_maxResidentialHeight
           SaveSummary.st_maxCommercialHeight SaveSummary.st_maxIndustrialHeight];
      repeat split.
Qed.

(** X3.  For each of the three built zones the greatest height of the
    summary is the maximum of 0 and the heights of the buildings of
    that zone: it is not negative, no building of the zone is higher,
    and it is 0 or the height of one of them. *)
Theorem summary_max_heights (c : City.t) :
  Forall
    (fun z =>
       let m := maxHeightOf z (SaveSummary.summary c) in
       (0 <= m)%Z /\
       (forall b, In b (City.buildings c) -> Building.zone b = z ->
                  (Building.height b <= m)%Z) /\
       (m = 0%Z \/
        exists b, In b (City.buildings c) /\ Building.zone b = z /\
                  Building.height b = m))
    [Residential; Commercial; Industrial].
Proof.
  destruct (statBuilding_heights
              (SaveSummary.positionsOf Facility.School (City.facilities c))
              (SaveSummary.positionsOf Facility.Hospital (City.facilities c))
              (City.buildings c)
              (SaveSummary.mkBuildingStats 0 0 0 0 (-1.0) (-1.0))) as (H1 & H2 & H3).
  cbv zeta in H1, H2, H3.
  cbn [SaveSummary.st_maxResidentialHeight SaveSummary.st_maxCommercialHeight
       SaveSummary.st_maxIndustrialHeight] in H1, H2, H3.
  assert (Hgen : forall z m,
            m = fold_left Z.max
                  (map Building.height (List.filter (inZone z) (City.buildings c))) 0%Z ->
            (0 <= m)%Z /\
            (forall b, In b (City.buildings c) -> Building.zone b = z ->
                       (Building.height b <= m)%Z) /\
            (m = 0%Z \/
             exists b, In b (City.buildings c) /\ Building.zone b = z /\
                       Building.height b = m)).
  { intros z m ->.
    destruct (max_loop (map Building.height
                          (List.filter (inZone z) (City.buildings c))) 0)
      as (Hle & Hall & Hin). cbv zeta in Hle, Hall, Hin.
    split; [exact Hle|]. split.
    - intros b Hb Hz. apply Hall. apply in_map. apply List.filter_In.
      split; [exact Hb|]. unfold inZone. rewrite Hz. destruct z; reflexivity.
    - destruct Hin as [Hin|Hin]; [now left|]. right.
      apply in_map_iff in Hin as (b & Hh & Hb).
      apply List.filter_In in Hb as [Hb Hz]. exists b.
      split; [exact Hb|]. split; [|exact Hh].
      unfold inZone in Hz. destruct z, (Building.zone b); try discriminate; reflexivity. }
  constructor; [|constructor; [|constructor; [|constructor]]];
    cbv zeta; unfold maxHeightOf, SaveSummary.summary;
    cbn [SaveSummary.maxResidentialHeight SaveSummary.maxCommercialHeight
         SaveSummary.maxIndustrialHeight];
    apply Hgen; assumption.
Qed.

(** ** More facilities, shorter ways *)

Lemma nearest_app_le (x y : R) (pts extra : list (R * R)) :
  pts <> [] -> SaveSummary.nearest x y (pts ++ extra) <= SaveSummary.nearest x y pts.
Proof.
  intros Hne. unfold SaveSummary.nearest.
  destruct pts as [|p pts]; [congruence|]. cbn [app].
  change (p :: pts ++ extra) with ((p :: pts) ++ extra).
  rewrite fold_left_app.
  destruct (nearest_loop x y extra
              (fold_left (SaveSummary.nearestStep x y) (p :: pts) DBL_MAX))
    as (Hle & _). exact Hle.
Qed.

Lemma worst_loop_mono (l l' : list R) (m m' : R) :
  Forall2 Rle l l' -> m <= m' ->
  fold_left (fun m v => if Rgt_dec v m then v else m) l m <=
  fold_left (fun m v => if Rgt_dec v m then v else m) l' m'.
Proof.
  intros HF. revert m m'. induction HF as [|v v' l l' Hv HF IH]; intros m m' Hm;
    cbn [fold_left]; [exact Hm|].
  apply IH. destruct (Rgt_dec v m), (Rgt_dec v' m'); lra.
Qed.

Lemma positionsOf_app (kind : Facility.Type_) (fs gs : list Facility.t) :
  SaveSummary.positionsOf kind (fs ++ gs) =
  SaveSummary.positionsOf kind fs ++ SaveSummary.positionsOf kind gs.
Proof. unfold SaveSummary.positionsOf. apply flat_map_app. Qed.

(** X4.  In a city that has a facility of some kind, appending further
    facilities (of any kind) never increases the worst-case distance
    to that kind. *)
Theorem more_facilities_not_farther (kind : Facility.Type_) (c : City.t)
    (more : list Facility.t) :
  SaveSummary.positionsOf kind (City.facilities c) <> [] ->
  maxDistanceTo kind
    (SaveSummary.summary (withFacilities c (City.facilities c ++ more))) <=
  maxDistanceTo kind (SaveSummary.summary c).
Proof.
  intros Hne. rewrite !maxDistanceTo_fold.
  cbn [withFacilities City.facilities City.buildings].
  rewrite positionsOf_app.
  assert (Hne' : SaveSummary.positionsOf kind (City.facilities c)
                 ++ SaveSummary.positionsOf kind more <> []).
  { intros E. apply app_eq_nil in E as [E _]. contradiction. }
  rewrite !worstCase_nonempty by assumption.
  apply worst_loop_mono; [|lra].
  induction (List.filter isResidential (City.buildings c)) as [|b bs IH];
    cbn [map]; constructor; [|exact IH].
  unfold nearestTo. now apply nearest_app_le.
Qed.

Lemma more_facilities_not_farther_witness :
  maxDistanceTo Facility.School
    (SaveSummary.summary
       (withFacilities twoSchools
          (City.facilities twoSchools ++ [Facility.mk 1 1 Facility.School]))) <=
  maxDistanceTo Facility.School (SaveSummary.summary twoSchools).
Proof.
  apply (more_facilities_not_farther Facility.School twoSchools
           [Facility.mk 1 1 Facility.School]).
  discriminate.
Defined.

(** ** The zoning grid *)

Lemma int_wrap_small (z : Z) : (- 2 ^ 31 <= z < 2 ^ 31)%Z -> int_wrap z = z.
Proof.
  intros H. unfold int_wrap. rewrite Z.mod_small by lia. lia.
Qed.

Lemma size_t_wrap_small (z : Z) : (0 <= z < 2 ^ 64)%Z -> size_t_wrap z = z.
Proof. intros H. unfold size_t_wrap. now apply Z.mod_small. Qed.

(** Inside the grid the index is the row-major position. *)
Lemma zoneIndex_inGrid (c : City.t) (x y : Z) :
  gridOk c -> inGrid c x y ->
  zoneIndex c x y = (y * City.size c + x)%Z /\
  (0 <= y * City.size c + x < City.size c * City.size c)%Z.
Proof.
  intros (H0 & Hs & Hl) [Hx Hy].
  assert (Hr : (0 <= y * City.size c + x < City.size c * City.size c)%Z) by nia.
  assert (Hy' : (0 <= y * City.size c < City.size c * City.size c)%Z) by nia.
  split; [|exact Hr]. unfold zoneIndex.
  rewrite (int_wrap_small (y * City.size c)) by lia.
  rewrite int_wrap_small by lia. apply size_t_wrap_small. lia.
Qed.

Lemma zoneIndex_inj (c : City.t) (x y x' y' : Z) :
  gridOk c -> inGrid c x y -> inGrid c x' y' ->
  zoneIndex c x y = zoneIndex c x' y' -> x = x' /\ y = y'.
Proof.
  intros Hg H1 H2 E.
  destruct (zoneIndex_inGrid c x y Hg H1) as [E1 _].
  destruct (zoneIndex_inGrid c x' y' Hg H2) as [E2 _].
  rewrite E1, E2 in E. destruct H1 as [Hx Hy], H2 as [Hx' Hy'].
  assert (y = y') by nia. subst y'. split; [lia | reflexivity].
Qed.

(** X5.  On a grid of [size * size] cells, assigning a zone through
    [zoneAt(x, y)] succeeds inside the grid, keeps the size of the
    grid and everything else of the city, and a later [zoneAt(x', y')]
    reads the new zone at the same cell and the old zone at every
    other cell: two cells of the grid never share an index. *)
Theorem zoneAt_assign_read (c : City.t) (x y x' y' : Z) (z : ZoneType) :
  gridOk c -> inGrid c x y -> inGrid c x' y' ->
  exists c',
    zoneAt_assign c x y z = Some c' /\
    gridOk c' /\
    City.buildings c' = City.buildings c /\
    City.facilities c' = City.facilities c /\
    City.roads c' = City.roads c /\
    zoneAt c' x y = Some z /\
    (x' <> x \/ y' <> y -> zoneAt c' x' y' = zoneAt c x' y') /\
    exists old, zoneAt c x' y' = Some old.
Proof.
  intros Hg H1 H2.
  destruct (zoneIndex_inGrid c x y Hg H1) as [E1 R1].
  destruct (zoneIndex_inGrid c x' y' Hg H2) as [E2 R2].
  pose proof Hg as (H0 & Hs & Hl).
  unfold zoneAt_assign.
  destruct (Z.ltb_spec (zoneIndex c x y) (Z.of_nat (length (City.zones c))))
    as [Hlt|Hge]; [|lia].
  eexists. split; [reflexivity|].
  assert (Hidx : forall a b, zoneIndex
            {| City.size := City.size c;
               City.zones := <[Z.to_nat (zoneIndex c x y):=z]> (City.zones c);
               City.buildings := City.buildings c;
               City.facilities := City.facilities c;
               City.roads := City.roads c;
               City.blocks := City.blocks c |} a b = zoneIndex c a b)
    by reflexivity.
  split; [|split; [reflexivity|split; [reflexivity|split; [reflexivity|]]]].
  - unfold gridOk; cbn [City.size City.zones]. rewrite length_insert. tauto.
  - unfold zoneAt. rewrite !Hidx. cbn [City.zones]. split; [|split].
    + apply list_lookup_insert_eq. lia.
    + intros Hne. apply list_lookup_insert_ne.
      intros E. apply Z2Nat.inj in E; [|lia|lia].
      destruct (zoneIndex_inj c x y x' y' Hg H1 H2 E). lia.
    + apply lookup_lt_is_Some_2. lia.
Qed.

Lemma zoneAt_assign_read_witness :
  let c := City_ctor 3 in
  (gridOk c /\ inGrid c 1 2 /\ inGrid c 2 1) /\
  exists c', zoneAt_assign c 1 2 Green = Some c' /\
             zoneAt c' 1 2 = Some Green /\ zoneAt c' 2 1 = zoneAt c 2 1.
Proof.
  intros c.
  assert (Hg : gridOk c)
    by (unfold gridOk, c; vm_compute; repeat split; congruence).
  assert (H1 : inGrid c 1 2)
    by (unfold inGrid, c; vm_compute; repeat split; congruence).
  assert (H2 : inGrid c 2 1)
    by (unfold inGrid, c; vm_compute; repeat split; congruence).
  split; [tauto|].
  destruct (zoneAt_assign_read c 1 2 2 1 Green Hg H1 H2)
    as (c' & Ha & _ & _ & _ & _ & Hr & Ho & _).
  exists c'. split; [exact Ha|]. split; [exact Hr|]. apply Ho. left; lia.
Defined.

Lemma lookup_repeat {A : Type} (x : A) (n i : nat) :
  (i < n)%nat -> repeat x n !! i = Some x.
Proof.
  revert i; induction n as [|n IH]; intros i Hi; [lia|].
  destruct i as [|i]; cbn [repeat]; [reflexivity|]. apply IH. lia.
Qed.

Lemma countZone_repeat (n : nat) :
  countZone ZNone (repeat ZNone n) = Z.of_nat n /\
  countZone Residential (repeat ZNone n) = 0%Z /\
  countZone Commercial (repeat ZNone n) = 0%Z /\
  countZone Industrial (repeat ZNone n) = 0%Z /\
  countZone Green (repeat ZNone n) = 0%Z.
Proof.
  induction n as [|n IH]; [repeat split|].
  cbn [repeat]. rewrite !countZone_cons. cbn [zone_eqb].
  rewrite Nat2Z.inj_succ. lia.
Qed.

(** X6.  A city built by the constructor for a size [s >= 0] whose
    square is an [int] has [s * s] cells, every one of them
    undeveloped ([zoneAt] reads None everywhere in the grid), and its
    summary reports [s * s] undeveloped cells, no other cell, no
    building, no facility, heights 0 and both distances -1. *)
Theorem City_ctor_fresh (s : Z) :
  (0 <= s)%Z -> (s * s < 2 ^ 31)%Z ->
  let c := City_ctor s in
  gridOk c /\
  (forall x y, inGrid c x y -> zoneAt c x y = Some ZNone) /\
  SaveSummary.summary c =
    SaveSummary.mkSummary s 0 0 0 0 0 (s * s) 0 0 (-1.0) (-1.0) 0 0 0.
Proof.
  intros H0 Hs c.
  assert (Hn : Z.to_nat (size_t_wrap (int_wrap (s * s))) = Z.to_nat (s * s)).
  { rewrite int_wrap_small by nia. rewrite size_t_wrap_small by nia. reflexivity. }
  assert (Hg : gridOk c).
  { unfold gridOk, c, City_ctor; cbn [City.size City.zones].
    rewrite Hn, repeat_length, Z2Nat.id by nia. lia. }
  split; [exact Hg|]. split.
  - intros x y Hxy. unfold zoneAt.
    destruct (zoneIndex_inGrid c x y Hg Hxy) as [-> Hr].
    unfold c, City_ctor in *; cbn [City.zones City.size] in *. rewrite Hn.
    apply lookup_repeat. lia.
  - unfold SaveSummary.summary, c, City_ctor.
    cbn [City.zones City.size City.buildings City.facilities fold_left].
    rewrite Hn. rewrite countCell_fold.
    + destruct (countZone_repeat (Z.to_nat (s * s))) as (-> & -> & -> & -> & ->).
      cbn [SaveSummary.countResidential SaveSummary.countCommercial
           SaveSummary.countIndustrial SaveSummary.countGreen
           SaveSummary.countUndeveloped SaveSummary.st_totalBuildings
           SaveSummary.st_maxResidentialHeight SaveSummary.st_maxCommercialHeight
           SaveSummary.st_maxIndustrialHeight SaveSummary.maxDistSchool
           SaveSummary.maxDistHospital].
      rewrite Z2Nat.id by nia. reflexivity.
    + cbn. lia.
    + cbn [SaveSummary.countResidential SaveSummary.countCommercial
           SaveSummary.countIndustrial SaveSummary.countGreen
           SaveSummary.countUndeveloped].
      rewrite repeat_length, Z2Nat.id by nia. lia.
Qed.

Lemma City_ctor_fresh_witness :
  ((0 <= 100)%Z /\ (100 * 100 < 2 ^ 31)%Z) /\
  SaveSummary.undevelopedCells (SaveSummary.summary (City_ctor 100)) = 10000%Z.
Proof.
  assert (H0 : (0 <= 100)%Z) by lia.
  assert (Hs : (100 * 100 < 2 ^ 31)%Z) by lia.
  split; [tauto|].
  destruct (City_ctor_fresh 100 H0 Hs) as (_ & _ & E).
  rewrite E. reflexivity.
Defined.

(** ** Mesh buffers: indices and bounds *)

Lemma trianglesOk_empty : trianglesOk emptyMeshBuffer.
Proof.
  unfold trianglesOk; cbn. repeat split; try reflexivity. now exists 0%nat.
Qed.

Lemma seq_snoc3 (n : nat) :
  seq 0 (n + 3) = seq 0 n ++ [n; S n; S (S n)].
Proof.
  rewrite seq_app. cbn [seq]. rewrite Nat.add_0_l. reflexivity.
Qed.

Lemma appendTriangle_trianglesOk (buf : MeshBuffer) (p0 p1 p2 n : Vec3.t) :
  trianglesOk buf -> trianglesOk (appendTriangle buf p0 p1 p2 n).
Proof.
  intros (Hp & Hn & (k & Hk) & Hseq).
  destruct (appendTriangle_sizes buf p0 p1 p2 n) as (Hp' & Hn' & Hi').
  unfold trianglesOk. rewrite Hp', Hn', Hi'.
  split; [lia|]. split; [lia|]. split; [exists (S k); lia|].
  intros Hb. rewrite indices_appendTriangle. cbv zeta.
  rewrite seq_snoc3, map_app. cbn [map].
  rewrite <- Hseq by lia.
  assert (Hbase : uint32_wrap (Z.of_nat (length (positions buf)) / 3) =
                  Z.of_nat (length (indices buf))).
  { rewrite Hp, Nat2Z.inj_mul. change (Z.of_nat 3) with 3%Z.
    rewrite Z.mul_comm, Z.div_mul by lia.
    unfold uint32_wrap. apply Z.mod_small. lia. }
  rewrite Hbase. unfold uint32_add, uint32_wrap.
  rewrite !Z.mod_small by lia.
  repeat f_equal; lia.
Qed.

Lemma appendRectPrism_trianglesOk (buf : MeshBuffer) (r : Rect.t) (baseZ topZ : R) :
  trianglesOk buf -> trianglesOk (appendRectPrism buf r baseZ topZ).
Proof.
  unfold appendRectPrism. generalize (prismTriangles r baseZ topZ).
  intros ts; revert buf; induction ts as [|[[[p0 p1] p2] n] ts IH]; intros buf H;
    cbn [fold_left appendTri]; [exact H|].
  apply IH. now apply appendTriangle_trianglesOk.
Qed.

(** *** Bounds *)

Lemma updateBounds_bounds (buf : MeshBuffer) (p : Vec3.t) :
  minPos (updateBounds buf p) =
    (if hasBounds buf
     then (Rmin (fst (fst (minPos buf))) (Vec3.x p),
           Rmin (snd (fst (minPos buf))) (Vec3.y p),
           Rmin (snd (minPos buf)) (Vec3.z p))
     else (Vec3.x p, Vec3.y p, Vec3.z p)) /\
  maxPos (updateBounds buf p) =
    (if hasBounds buf
     then (Rmax (fst (fst (maxPos buf))) (Vec3.x p),
           Rmax (snd (fst (maxPos buf))) (Vec3.y p),
           Rmax (snd (maxPos buf)) (Vec3.z p))
     else (Vec3.x p, Vec3.y p, Vec3.z p)).
Proof.
  unfold updateBounds. destruct (hasBounds buf).
  - destruct (minPos buf) as [[m0 m1] m2], (maxPos buf) as [[M0 M1] M2].
    split; reflexivity.
  - split; reflexivity.
Qed.

Lemma pushPos_bounds (buf : MeshBuffer) (p : Vec3.t) :
  hasBounds (pushPos buf p) = true /\
  minPos (pushPos buf p) =
    (if hasBounds buf
     then (Rmin (fst (fst (minPos buf))) (Vec3.x p),
           Rmin (snd (fst (minPos buf))) (Vec3.y p),
           Rmin (snd (minPos buf)) (Vec3.z p))
     else (Vec3.x p, Vec3.y p, Vec3.z p)) /\
  maxPos (pushPos buf p) =
    (if hasBounds buf
     then (Rmax (fst (fst (maxPos buf))) (Vec3.x p),
           Rmax (snd (fst (maxPos buf))) (Vec3.y p),
           Rmax (snd (maxPos buf)) (Vec3.z p))
     else (Vec3.x p, Vec3.y p, Vec3.z p)).
Proof.
  unfold pushPos.
  set (b := mkMeshBuffer _ _ _ _ _ _).
  destruct (updateBounds_fields b p) as (_ & _ & _ & Hh).
  destruct (updateBounds_bounds b p) as (Hmin & Hmax).
  split; [exact Hh|]. split; assumption.
Qed.

Lemma isLeast_single (v : R) : isLeast v [v].
Proof. split; [now left|]. intros u [<-|[]]. lra. Qed.

Lemma isGreatest_single (v : R) : isGreatest v [v].
Proof. split; [now left|]. intros u [<-|[]]. lra. Qed.

Lemma isLeast_snoc (m v : R) (l : list R) :
  isLeast m l -> isLeast (Rmin m v) (l ++ [v]).
Proof.
  intros [Hin Hle]. unfold Rmin. destruct (Rle_dec m v) as [H|H]; split.
  - apply in_or_app; now left.
  - intros u Hu. apply in_app_or in Hu as [Hu|[<-|[]]]; [now apply Hle | exact H].
  - apply in_or_app; right; now left.
  - intros u Hu. apply in_app_or in Hu as [Hu|[<-|[]]]; [|lra].
    specialize (Hle u Hu). lra.
Qed.

Lemma isGreatest_snoc (m v : R) (l : list R) :
  isGreatest m l -> isGreatest (Rmax m v) (l ++ [v]).
Proof.
  intros [Hin Hle]. unfold Rmax. destruct (Rle_dec m v) as [H|H]; split.
  - apply in_or_app; right; now left.
  - intros u Hu. apply in_app_or in Hu as [Hu|[<-|[]]]; [|lra].
    specialize (Hle u Hu). lra.
  - apply in_or_app; now left.
  - intros u Hu. apply in_app_or in Hu as [Hu|[<-|[]]]; [now apply Hle | lra].
Qed.

Lemma pushPos_bufferOk (vs : list Vec3.t) (buf : MeshBuffer) (p : Vec3.t) :
  bufferOk vs buf -> bufferOk (vs ++ [p]) (pushPos buf p).
Proof.
  intros [Hpos Hb]. destruct (pushPos_fields buf p) as (Hp & _ & _).
  destruct (pushPos_bounds buf p) as (Hh & Hmin & Hmax).
  split.
  - rewrite Hp, Hpos, flat_map_app. cbn [flat_map coords]. now rewrite app_nil_r.
  - right. split; [now destruct vs|].
    unfold boundsOf. rewrite Hh, Hmin, Hmax, !map_app. cbn [map].
    destruct Hb as [[Hf ->] | [Hne (Hf & B1 & B2 & B3 & B4 & B5 & B6)]];
      rewrite Hf; cbn [fst snd map app].
    + repeat split; try apply isLeast_single; try apply isGreatest_single;
        try (now left); intros u [<-|[]]; lra.
    + split; [reflexivity|].
      repeat split; try (apply isLeast_snoc; assumption);
        try (apply isGreatest_snoc; assumption);
        first [ apply (isLeast_snoc _ _ _ B1) | apply (isLeast_snoc _ _ _ B2)
              | apply (isLeast_snoc _ _ _ B3) | apply (isGreatest_snoc _ _ _ B4)
              | apply (isGreatest_snoc _ _ _ B5) | apply (isGreatest_snoc _ _ _ B6) ].
Qed.

Lemma appendTriangle_bounds_fields (buf : MeshBuffer) (p0 p1 p2 n : Vec3.t) :
  positions (appendTriangle buf p0 p1 p2 n) =
    positions (pushPos (pushPos (pushPos buf p0) p1) p2) /\
  hasBounds (appendTriangle buf p0 p1 p2 n) =
    hasBounds (pushPos (pushPos (pushPos buf p0) p1) p2) /\
  minPos (appendTriangle buf p0 p1 p2 n) =
    minPos (pushPos (pushPos (pushPos buf p0) p1) p2) /\
  maxPos (appendTriangle buf p0 p1 p2 n) =
    maxPos (pushPos (pushPos (pushPos buf p0) p1) p2).
Proof. repeat split. Qed.

Lemma bufferOk_fields (vs : list Vec3.t) (a b : MeshBuffer) :
  positions a = positions b -> hasBounds a = hasBounds b ->
  minPos a = minPos b -> maxPos a = maxPos b ->
  bufferOk vs b -> bufferOk vs a.
Proof.
  intros Hp Hh Hmin Hmax. unfold bufferOk, boundsOf.
  rewrite Hp, Hh, Hmin, Hmax. tauto.
Qed.

Lemma appendTriangle_bufferOk (vs : list Vec3.t) (buf : MeshBuffer)
    (p0 p1 p2 n : Vec3.t) :
  bufferOk vs buf ->
  bufferOk (vs ++ [p0; p1; p2]) (appendTriangle buf p0 p1 p2 n).
Proof.
  intros H.
  destruct (appendTriangle_bounds_fields buf p0 p1 p2 n) as (Hp & Hh & Hmin & Hmax).
  apply (bufferOk_fields _ _ _ Hp Hh Hmin Hmax).
  change (vs ++ [p0; p1; p2]) with (vs ++ [p0] ++ [p1] ++ [p2]).
  rewrite !app_assoc.
  now repeat apply pushPos_bufferOk.
Qed.

Lemma appendRectPrism_bufferOk (vs : list Vec3.t) (buf : MeshBuffer)
    (r : Rect.t) (baseZ topZ : R) :
  bufferOk vs buf ->
  bufferOk (vs ++ flat_map triCorners (prismTriangles r baseZ topZ))
           (appendRectPrism buf r baseZ topZ).
Proof.
  unfold appendRectPrism. generalize (prismTriangles r baseZ topZ).
  intros ts; revert vs buf; induction ts as [|[[[p0 p1] p2] n] ts IH];
    intros vs buf H; cbn [fold_left appendTri flat_map triCorners].
  - now rewrite app_nil_r.
  - rewrite app_assoc. apply IH. now apply appendTriangle_bufferOk.
Qed.

Lemma bufferOk_empty : bufferOk [] emptyMeshBuffer.
Proof. split; [reflexivity|]. left. split; reflexivity. Qed.

Lemma vertices_flat_map (vs : list Vec3.t) : vertices (flat_map coords vs) = vs.
Proof.
  induction vs as [|[x y z] vs IH]; [reflexivity|].
  cbn [flat_map coords app vertices Vec3.x Vec3.y Vec3.z]. now rewrite IH.
Qed.

(** One more box in a buffer that is new or well formed. *)
Lemma appendRectPrism_meshOk (old : option MeshBuffer) (r : Rect.t) (baseZ topZ : R) :
  (forall buf, old = Some buf -> meshOk buf) ->
  meshOk (appendRectPrism (default emptyMeshBuffer old) r baseZ topZ).
Proof.
  intros Hold.
  assert (H0 : trianglesOk (default emptyMeshBuffer old) /\
               (exists k, length (indices (default emptyMeshBuffer old)) = (36 * k)%nat) /\
               exists vs, bufferOk vs (default emptyMeshBuffer old)).
  { destruct old as [buf|].
    - destruct (Hold buf eq_refl) as (Ht & (k & _ & Hk) & vs & _ & Hb).
      rewrite default_some. split; [exact Ht|]. split; [now exists k | now exists vs].
    - split; [apply trianglesOk_empty|].
      split; [now exists 0%nat | exists []; apply bufferOk_empty]. }
  destruct H0 as (Ht & (k & Hk) & vs & Hb).
  split; [now apply appendRectPrism_trianglesOk|]. split.
  - destruct (appendRectPrism_sizes (default emptyMeshBuffer old) r baseZ topZ)
      as (_ & _ & Hi). cbv zeta in Hi.
    exists (S k). split; [lia|]. rewrite Hi, Hk. lia.
  - exists (vs ++ flat_map triCorners (prismTriangles r baseZ topZ)).
    split; [|now apply appendRectPrism_bufferOk].
    intros E. apply app_eq_nil in E as [_ E]. discriminate E.
Qed.

Lemma appendTo_meshOk (m : gmap string MeshBuffer) (mat : string)
    (r : Rect.t) (baseZ topZ : R) :
  map_Forall (fun _ buf => meshOk buf) m ->
  map_Forall (fun _ buf => meshOk buf) (SaveGLTF.appendTo m mat r baseZ topZ).
Proof.
  intros H. unfold SaveGLTF.appendTo. apply map_Forall_insert_2; [|exact H].
  apply appendRectPrism_meshOk. intros buf Hb. exact (H _ _ Hb).
Qed.

Lemma fold_appendBox_meshOk (mat : string) (boxes : list (Rect.t * R * R))
    (m : gmap string MeshBuffer) :
  map_Forall (fun _ buf => meshOk buf) m ->
  map_Forall (fun _ buf => meshOk buf) (fold_left (appendBox mat) boxes m).
Proof.
  revert m; induction boxes as [|[[r bz] tz] boxes IH]; intros m H;
    cbn [fold_left appendBox]; [exact H|].
  apply IH. now apply appendTo_meshOk.
Qed.

Lemma meshes_meshOk (c : City.t) :
  map_Forall (fun _ buf => meshOk buf) (SaveGLTF.meshes c).
Proof.
  unfold SaveGLTF.meshes.
  assert (Hb : forall bs (m : gmap string MeshBuffer),
             map_Forall (fun _ buf => meshOk buf) m ->
             map_Forall (fun _ buf => meshOk buf)
               (fold_left SaveGLTF.emitBuilding bs m)).
  { induction bs as [|b bs IH]; intros m Hm; cbn [fold_left]; [exact Hm|].
    apply IH. rewrite SaveGLTF_emitBuilding_boxes. now apply fold_appendBox_meshOk. }
  assert (Hr : forall rs (m : gmap string MeshBuffer),
             map_Forall (fun _ buf => meshOk buf) m ->
             map_Forall (fun _ buf => meshOk buf)
               (fold_left SaveGLTF.emitRoad rs m)).
  { induction rs as [|r rs IH]; intros m Hm; cbn [fold_left]; [exact Hm|].
    apply IH. unfold SaveGLTF.emitRoad.
    destruct (Rlt_dec _ _); [exact Hm|].
    destruct (SaveGLTF.swapIfGt _ _) as [bx0 bx1].
    destruct (SaveGLTF.swapIfGt _ _) as [by0 by1].
    now apply appendTo_meshOk. }
  apply Hr, Hb. apply map_Forall_empty.
Qed.

(** X7.  Every buffer that [saveGLTF] accumulates holds whole boxes,
    at least one: 36 indices per box, three coordinates and three
    normal components per index.  While the vertices fit the 32-bit
    indices, the indices are 0, 1, 2, ... in order, so each refers to
    the vertex pushed with it. *)
Theorem mesh_buffers_wellformed (c : City.t) (mat : string) (buf : MeshBuffer) :
  SaveGLTF.meshes c !! mat = Some buf ->
  (Z.of_nat (length (indices buf)) <= 2 ^ 32)%Z ->
  (exists k, (0 < k)%nat /\ length (indices buf) = (36 * k)%nat) /\
  length (positions buf) = (3 * length (indices buf))%nat /\
  length (normals buf) = (3 * length (indices buf))%nat /\
  indices buf = map Z.of_nat (seq 0 (length (indices buf))) /\
  Forall (fun i => (0 <= i < Z.of_nat (length (positions buf)) / 3)%Z) (indices buf).
Proof.
  intros Hm Hb.
  destruct (meshes_meshOk c mat buf Hm) as ((Hp & Hn & _ & Hseq) & Hk & _).
  specialize (Hseq Hb).
  split; [exact Hk|]. split; [exact Hp|]. split; [exact Hn|]. split; [exact Hseq|].
  rewrite Hseq at 1. apply List.Forall_forall. intros i Hi.
  apply List.in_map_iff in Hi as (j & <- & Hj). apply List.in_seq in Hj.
  rewrite Hp, Nat2Z.inj_mul. change (Z.of_nat 3) with 3%Z.
  rewrite Z.mul_comm, Z.div_mul by lia. lia.
Qed.


Lemma mesh_buffers_wellformed_witness :
  exists buf,
    SaveGLTF.meshes onePark !! "mat_green" = Some buf /\
    length (positions buf) = (3 * length (indices buf))%nat /\
    indices buf = map Z.of_nat (seq 0 (length (indices buf))).
Proof.
  destruct onePark_triangles as (buf & Hbuf & Hlen & _).
  exists buf. split; [exact Hbuf|].
  assert (Hb : (Z.of_nat (length (indices buf)) <= 2 ^ 32)%Z)
    by (rewrite Hlen; vm_compute; discriminate).
  destruct (mesh_buffers_wellformed onePark "mat_green" buf Hbuf Hb)
    as (_ & Hp & _ & Hseq & _).
  split; [exact Hp | exact Hseq].
Defined.


(** ** The same triangles in both formats *)

Lemma indexCount_cons (m : gmap string MeshBuffer) (def : MaterialDef)
    (defs : list MaterialDef) :
  indexCount m (def :: defs) =
  (length (indices (default emptyMeshBuffer (m !! name def))) + indexCount m defs)%nat.
Proof. reflexivity. Qed.

Lemma indexCount_appendTo_other (m : gmap string MeshBuffer) (mat : string)
    (r : Rect.t) (baseZ topZ : R) (defs : list MaterialDef) :
  ~ In mat (map name defs) ->
  indexCount (SaveGLTF.appendTo m mat r baseZ topZ) defs = indexCount m defs.
Proof.
  induction defs as [|def defs IH]; intros Hn; [reflexivity|].
  cbn [map] in Hn. rewrite !indexCount_cons.
  rewrite appendTo_lookup_ne by (intros E; apply Hn; left; now symmetry).
  rewrite IH; [reflexivity|]. intros Hin. apply Hn. now right.
Qed.

Lemma indexCount_appendTo (m : gmap string MeshBuffer) (mat : string)
    (r : Rect.t) (baseZ topZ : R) (defs : list MaterialDef) :
  List.NoDup (map name defs) -> In mat (map name defs) ->
  indexCount (SaveGLTF.appendTo m mat r baseZ topZ) defs =
  (indexCount m defs + 36)%nat.
Proof.
  induction defs as [|def defs IH]; intros Hnd Hin; [destruct Hin|].
  cbn [map] in Hnd, Hin. apply List.NoDup_cons_iff in Hnd as [Hhd Hnd].
  rewrite !indexCount_cons.
  destruct (decide (name def = mat)) as [E|E].
  - subst mat.
    rewrite (indexCount_appendTo_other m (name def) r baseZ topZ defs Hhd).
    rewrite appendTo_lookup_eq, default_some.
    destruct (appendRectPrism_sizes (default emptyMeshBuffer (m !! name def))
                r baseZ topZ) as (_ & _ & Hi). cbv zeta in Hi. rewrite Hi. lia.
  - destruct Hin as [Hin|Hin]; [contradiction|].
    rewrite (IH Hnd Hin).
    rewrite appendTo_lookup_ne by congruence. lia.
Qed.

Lemma kMaterialPalette_NoDup : List.NoDup (map name kMaterialPalette).
Proof.
  unfold kMaterialPalette. cbn [map name].
  repeat (apply List.NoDup_cons;
          [cbn [In]; intros H;
           repeat (destruct H as [H|H]; [discriminate H|]); exact H|]).
  apply List.NoDup_nil.
Qed.

Lemma materialForZone_palette (z : ZoneType) :
  In (materialForZone z) (map name kMaterialPalette).
Proof. destruct z; cbn; tauto. Qed.

Lemma mat_road_palette : In "mat_road" (map name kMaterialPalette).
Proof. cbn; tauto. Qed.

Lemma fold_appendBox_indexCount (mat : string) (boxes : list (Rect.t * R * R))
    (m : gmap string MeshBuffer) :
  In mat (map name kMaterialPalette) ->
  indexCount (fold_left (appendBox mat) boxes m) kMaterialPalette =
  (indexCount m kMaterialPalette + 36 * length boxes)%nat.
Proof.
  intros Hin. revert m; induction boxes as [|[[r bz] tz] boxes IH]; intros m;
    cbn [fold_left appendBox length]; [lia|].
  rewrite IH, indexCount_appendTo by
    (try apply kMaterialPalette_NoDup; exact Hin). lia.
Qed.

Lemma emitRoad_indexCount (m : gmap string MeshBuffer) (road : RoadSegment.t) :
  indexCount (SaveGLTF.emitRoad m road) kMaterialPalette =
  (indexCount m kMaterialPalette + 36 * length (roadBoxes road))%nat.
Proof.
  unfold roadBoxes. destruct (Rlt_dec (roadLength road) 1e-6) as [Hd|Hd].
  - unfold SaveGLTF.emitRoad. unfold roadLength in Hd. cbv zeta in Hd |- *.
    destruct (Rlt_dec _ _); [cbn [length]; lia | contradiction].
  - rewrite SaveGLTF_emitRoad_rect by exact Hd.
    rewrite indexCount_appendTo by
      (try apply kMaterialPalette_NoDup; apply mat_road_palette).
    cbn [length]. lia.
Qed.

Lemma meshes_indexCount (c : City.t) :
  Z.of_nat (indexCount (SaveGLTF.meshes c) kMaterialPalette) =
  (36 * objBoxCount c)%Z.
Proof.
  unfold SaveGLTF.meshes, objBoxCount.
  assert (Hb : forall bs (m : gmap string MeshBuffer),
             indexCount (fold_left SaveGLTF.emitBuilding bs m) kMaterialPalette =
             (indexCount m kMaterialPalette
              + 36 * length (flat_map archetypeBoxes bs))%nat).
  { induction bs as [|b bs IH]; intros m; cbn [fold_left flat_map length]; [lia|].
    rewrite IH, SaveGLTF_emitBuilding_boxes, fold_appendBox_indexCount
      by apply materialForZone_palette.
    rewrite length_app. lia. }
  assert (Hr : forall rs (m : gmap string MeshBuffer),
             indexCount (fold_left SaveGLTF.emitRoad rs m) kMaterialPalette =
             (indexCount m kMaterialPalette
              + 36 * length (flat_map roadBoxes rs))%nat).
  { induction rs as [|r rs IH]; intros m; cbn [fold_left flat_map length]; [lia|].
    rewrite IH, emitRoad_indexCount, length_app. lia. }
  rewrite Hr, Hb.
  assert (H0 : indexCount (∅ : gmap string MeshBuffer) kMaterialPalette = 0%nat).
  { unfold kMaterialPalette. rewrite !indexCount_cons, !lookup_empty. reflexivity. }
  rewrite H0. lia.
Qed.

Lemma indexCount_filter (m : gmap string MeshBuffer) (defs : list MaterialDef) :
  indexCount m (List.filter (receivedTriangles m) defs) = indexCount m defs.
Proof.
  induction defs as [|def defs IH]; [reflexivity|].
  cbn [List.filter]. unfold receivedTriangles at 1.
  rewrite (indexCount_cons m def defs).
  destruct (m !! name def) as [buf|] eqn:E.
  - rewrite default_some.
    destruct (indices buf) eqn:Ei.
    + rewrite IH. reflexivity.
    + rewrite indexCount_cons, IH, E, default_some, Ei. reflexivity.
  - rewrite IH. reflexivity.
Qed.

(** X9.  Both exports hold the same number of triangles: the indices
    of the primitives of the binary export, three per triangle, are
    36 per box, and the text export has as many face records as the
    binary export has triangles. *)
Theorem exports_same_triangle_count (hasMtl : bool) (mtlName : string) (c : City.t) :
  (1 + 8 * (3 * Z.of_nat (length (City.buildings c))
            + Z.of_nat (length (City.roads c))) < 2 ^ 64)%Z ->
  Z.of_nat (indexCount (SaveGLTF.meshes c) (SaveGLTF.materials c)) =
    (36 * objBoxCount c)%Z /\
  Z.of_nat (indexCount (SaveGLTF.meshes c) (SaveGLTF.materials c)) =
    (3 * countF (ofs (SaveOBJ.body hasMtl mtlName c)))%Z.
Proof.
  intros Hb. rewrite materials_filter, indexCount_filter, meshes_indexCount.
  destruct (body_objInv hasMtl mtlName c Hb) as (_ & _ & HF & _).
  rewrite HF. split; lia.
Qed.

Lemma exports_same_triangle_count_witness :
  Z.of_nat (indexCount (SaveGLTF.meshes onePark) (SaveGLTF.materials onePark)) =
  (3 * countF (ofs (SaveOBJ.body true "city.mtl" onePark)))%Z.
Proof.
  apply (exports_same_triangle_count true "city.mtl" onePark).
  vm_compute. reflexivity.
Defined.

(** ** The layout of the packed buffer *)

Lemma align4_aligned (v : list byte) :
  (Z.of_nat (length v) mod 4 = 0)%Z -> align4 v = v.
Proof. intros H. unfold align4. cbn [padLoop]. rewrite H. reflexivity. Qed.

Lemma viewBytes_mid (pre bytes post : list byte) (off len tgt : Z) :
  off = Z.of_nat (length pre) -> len = Z.of_nat (length bytes) ->
  viewBytes (pre ++ bytes ++ post) (mkViewInfo off len tgt) = bytes.
Proof.
  intros -> ->. unfold viewBytes. cbn [offset length_]. rewrite !Nat2Z.id.
  rewrite List.skipn_app, List.skipn_all, Nat.sub_diag, List.skipn_O. cbn [app].
  rewrite List.firstn_app, List.firstn_all, Nat.sub_diag, List.firstn_O.
  now rewrite app_nil_r.
Qed.

Lemma slice_app_l {A : Type} (l more : list A) (k n : nat) :
  (k + n <= length l)%nat ->
  firstn n (skipn k (l ++ more)) = firstn n (skipn k l).
Proof.
  intros H. rewrite List.skipn_app, List.firstn_app, List.length_skipn.
  replace (k - length l)%nat with 0%nat by lia.
  replace (n - (length l - k))%nat with 0%nat by lia.
  rewrite List.skipn_O, List.firstn_O. now rewrite app_nil_r.
Qed.

Lemma slice_app_r {A : Type} (l more : list A) :
  firstn (length more) (skipn (length l) (l ++ more)) = more.
Proof.
  rewrite List.skipn_app, List.skipn_all, Nat.sub_diag, List.skipn_O. cbn [app].
  apply List.firstn_all.
Qed.

Lemma indexedBy_collect (m : gmap string MeshBuffer) (pal : list MaterialDef)
    (acc : list MaterialDef * gmap string Z) :
  List.NoDup (map name pal) ->
  (forall def, In def (fst acc) -> ~ In (name def) (map name pal)) ->
  indexedBy acc ->
  indexedBy (fold_left (SaveGLTF.collectMaterial m) pal acc).
Proof.
  revert acc; induction pal as [|def pal IH]; intros [mats idx] Hnd Hfresh Hacc;
    cbn [fold_left]; [exact Hacc|].
  cbn [map] in Hnd, Hfresh. apply List.NoDup_cons_iff in Hnd as [Hhd Hnd].
  cbn [fst] in Hfresh.
  assert (Hkeep : forall d, In d mats -> ~ In (name d) (map name pal)).
  { intros d Hd Hin. apply (Hfresh d Hd). now right. }
  unfold SaveGLTF.collectMaterial at 2.
  destruct (m !! name def) as [buf|]; [destruct (indices buf)|];
    try (apply IH; assumption).
  apply IH; [exact Hnd | |].
  - cbn [fst]. intros d Hd. apply in_app_or in Hd as [Hd|[<-|[]]];
      [now apply Hkeep | exact Hhd].
  - intros i d. cbn [fst snd]. intros Hi.
    destruct (decide (i < length mats)%nat) as [Hlt|Hge].
    + rewrite lookup_app_l in Hi by exact Hlt.
      rewrite lookup_insert_ne; [exact (Hacc i d Hi)|].
      intros E. apply (Hfresh d); [|left; exact E].
      apply list_elem_of_In. eapply list_elem_of_lookup_2. exact Hi.
    + rewrite lookup_app_r in Hi by lia.
      destruct (i - length mats)%nat as [|k] eqn:Ek; [|destruct k; discriminate Hi].
      cbn in Hi. injection Hi as <-.
      rewrite lookup_insert_eq. f_equal. f_equal. lia.
Qed.

Lemma collectMaterials_indexedBy (m : gmap string MeshBuffer) :
  indexedBy (SaveGLTF.collectMaterials m).
Proof.
  unfold SaveGLTF.collectMaterials.
  apply indexedBy_collect; [apply kMaterialPalette_NoDup | intros def [] |].
  intros i def Hi. cbn [fst] in Hi. now rewrite lookup_nil in Hi.
Qed.

Section Layout.

Variable float_le : R -> list byte.
Hypothesis float_le_length : forall x, length (float_le x) = 4%nat.

Lemma chunkOf_length (buf : MeshBuffer) :
  length (chunkOf float_le buf) =
  (4 * (length (positions buf) + length (normals buf) + length (indices buf)))%nat.
Proof using float_le_length.
  unfold chunkOf.
  rewrite !length_app, !(floatBytes_length _ float_le_length), indexBytes_length.
  lia.
Qed.

Lemma appendBytes_aligned (bin bytes : list byte) :
  (Z.of_nat (length bin) mod 4 = 0)%Z -> (Z.of_nat (length bin) < 2 ^ 64)%Z ->
  appendBytes bin bytes = (bin ++ bytes, Z.of_nat (length bin)).
Proof using Type.
  intros Ha Hb. unfold appendBytes. rewrite align4_aligned by exact Ha.
  rewrite size_t_wrap_small by lia. reflexivity.
Qed.

(** One iteration of the packing loop on an aligned buffer. *)
Lemma packMaterial_layout (m : gmap string MeshBuffer) (idx : gmap string Z)
    (st : PackState) (mat : MaterialDef) (buf : MeshBuffer) :
  m !! name mat = Some buf -> indices buf <> [] -> positions buf <> [] ->
  (Z.of_nat (length (binData st)) mod 4 = 0)%Z ->
  (Z.of_nat (length (binData st ++ chunkOf float_le buf)) < 2 ^ 64)%Z ->
  (Z.of_nat (length (views st)) + 3 < 2 ^ 64)%Z ->
  packMaterial float_le m idx st mat =
  mkPackState
    (binData st ++ chunkOf float_le buf)
    (views st ++ viewsOf (Z.of_nat (length (binData st))) buf)
    (accessors st ++ accessorsOf (Z.of_nat (length (views st))) buf)
    (primitives st ++
       [mkMeshPrimitive (Z.of_nat (length (accessors st)))
          (Z.of_nat (length (accessors st)) + 1)
          (Z.of_nat (length (accessors st)) + 2)
          (default 0%Z (idx !! name mat)) (name mat)]).
Proof using float_le_length.
  intros Hm Hi Hp Ha Hb Hv.
  rewrite length_app, chunkOf_length in Hb.
  set (P := floatBytes float_le (positions buf)).
  set (N := floatBytes float_le (normals buf)).
  set (I := indexBytes (indices buf)).
  assert (HP : length P = (4 * length (positions buf))%nat)
    by apply (floatBytes_length _ float_le_length).
  assert (HN : length N = (4 * length (normals buf))%nat)
    by apply (floatBytes_length _ float_le_length).
  assert (E1 : appendBytes (binData st) P =
               (binData st ++ P, Z.of_nat (length (binData st))))
    by (apply appendBytes_aligned; [exact Ha | lia]).
  assert (E2 : appendBytes (binData st ++ P) N =
               ((binData st ++ P) ++ N,
                (Z.of_nat (length (binData st))
                 + 4 * Z.of_nat (length (positions buf)))%Z)).
  { rewrite appendBytes_aligned; rewrite ?length_app, ?HP.
    - f_equal. lia.
    - rewrite Nat2Z.inj_add, Nat2Z.inj_mul, Z.add_mod, Z.mul_comm, Z.mod_mul, Ha by lia.
      reflexivity.
    - lia. }
  assert (E3 : appendBytes ((binData st ++ P) ++ N) I =
               (((binData st ++ P) ++ N) ++ I,
                (Z.of_nat (length (binData st))
                 + 4 * Z.of_nat (length (positions buf))
                 + 4 * Z.of_nat (length (normals buf)))%Z)).
  { rewrite appendBytes_aligned; rewrite ?length_app, ?HP, ?HN.
    - f_equal. lia.
    - rewrite !Nat2Z.inj_add, !Nat2Z.inj_mul.
      change (Z.of_nat 4) with 4%Z.
      replace (Z.of_nat (length (binData st)) + 4 * Z.of_nat (length (positions buf))
               + 4 * Z.of_nat (length (normals buf)))%Z
        with (Z.of_nat (length (binData st))
              + (Z.of_nat (length (positions buf))
                 + Z.of_nat (length (normals buf))) * 4)%Z by lia.
      rewrite Z.mod_add by lia. exact Ha.
    - lia. }
  unfold packMaterial. rewrite Hm.
  destruct (indices buf) as [|i0 il] eqn:Ei; [congruence|].
  destruct (positions buf) as [|p0 pl] eqn:Ep; [congruence|].
  cbv beta iota zeta. fold P N I.
  rewrite E1. cbv beta iota. rewrite E2. cbv beta iota. rewrite E3. cbv beta iota.
  unfold chunkOf, viewsOf, accessorsOf. rewrite ?Ei, ?Ep. fold P N I. cbv zeta.
  rewrite !length_app. cbn [length] in Hb |- *.
  unfold sizeofFloat, sizeofUint32.
  rewrite !size_t_wrap_small by lia.
  rewrite <- !app_assoc. cbn [app].
  f_equal; repeat (f_equal; try lia).
Qed.

Lemma chunks_length (m : gmap string MeshBuffer) (l : list MaterialDef) :
  exists k, length (concat (map (chunkAt float_le m) l)) = (4 * k)%nat.
Proof using float_le_length.
  induction l as [|def l [k IH]]; [now exists 0%nat|].
  cbn [map concat]. rewrite length_app, IH. unfold chunkAt.
  rewrite chunkOf_length. eexists. rewrite <- Nat.mul_add_distr_l. reflexivity.
Qed.

Lemma chunks_snoc (m : gmap string MeshBuffer) (l : list MaterialDef)
    (def : MaterialDef) :
  concat (map (chunkAt float_le m) (l ++ [def])) =
  concat (map (chunkAt float_le m) l) ++ chunkAt float_le m def.
Proof using Type.
  rewrite map_app, concat_app. cbn [map concat]. now rewrite app_nil_r.
Qed.

(** What is packed stays packed when the loop goes on. *)
Lemma packedAt_app (m : gmap string MeshBuffer) (idx : gmap string Z)
    (st : PackState) (b : list byte) (v : list ViewInfo) (a : list AccessorInfo)
    (p : list MeshPrimitive) (i : nat) (def : MaterialDef) :
  (3 * i + 3 <= length (views st))%nat ->
  (3 * i + 3 <= length (accessors st))%nat ->
  packedAt float_le m idx st i def ->
  packedAt float_le m idx
    (mkPackState (binData st ++ b) (views st ++ v) (accessors st ++ a)
       (primitives st ++ p)) i def.
Proof using Type.
  intros Hv Ha (buf & pre & post & Hm & Hbin & Hal & Hvs & Has & Hp).
  exists buf, pre, (post ++ b). cbn [binData views accessors primitives].
  split; [exact Hm|]. split; [rewrite Hbin, <- !app_assoc; reflexivity|].
  split; [exact Hal|].
  split; [rewrite slice_app_l by lia; exact Hvs|].
  split; [rewrite slice_app_l by lia; exact Has|].
  apply lookup_app_l_Some. exact Hp.
Qed.

Lemma packInv_step (m : gmap string MeshBuffer) (idx : gmap string Z)
    (done : list MaterialDef) (st : PackState) (mat : MaterialDef)
    (buf : MeshBuffer) :
  m !! name mat = Some buf -> indices buf <> [] -> positions buf <> [] ->
  packInv float_le m idx done st ->
  (Z.of_nat (length (concat (map (chunkAt float_le m) (done ++ [mat])))) < 2 ^ 64)%Z ->
  (Z.of_nat (length done) < 2 ^ 60)%Z ->
  packInv float_le m idx (done ++ [mat]) (packMaterial float_le m idx st mat).
Proof using float_le_length.
  intros Hm Hi Hp (Hbin & Hv & Ha & Hpr & Hall) Hb Hd.
  assert (Hchunk : chunkAt float_le m mat = chunkOf float_le buf)
    by (unfold chunkAt; rewrite Hm, default_some; reflexivity).
  rewrite chunks_snoc, Hchunk, <- Hbin in Hb.
  destruct (chunks_length m done) as [k Hk]. rewrite <- Hbin in Hk.
  assert (Hal : (Z.of_nat (length (binData st)) mod 4 = 0)%Z).
  { rewrite Hk, Nat2Z.inj_mul, Z.mul_comm. apply Z.mod_mul. lia. }
  rewrite (packMaterial_layout m idx st mat buf Hm Hi Hp Hal Hb) by lia.
  split; [|split; [|split; [|split]]]; cbn [binData views accessors primitives].
  - rewrite chunks_snoc, Hchunk, Hbin. reflexivity.
  - rewrite !length_app, Hv. cbn [viewsOf length]. lia.
  - rewrite !length_app, Ha. cbn [accessorsOf length]. lia.
  - rewrite !length_app, Hpr. reflexivity.
  - intros i def Hl.
    destruct (decide (i < length done)%nat) as [Hlt|Hge].
    + rewrite lookup_app_l in Hl by exact Hlt.
      apply packedAt_app; [lia | lia | exact (Hall i def Hl)].
    + rewrite lookup_app_r in Hl by lia.
      destruct (i - length done)%nat as [|j] eqn:Ej; [|destruct j; discriminate Hl].
      cbn in Hl. injection Hl as <-.
      assert (Ei : i = length done) by lia. subst i.
      exists buf, (binData st), []. cbn [binData views accessors primitives].
      split; [exact Hm|]. split; [now rewrite app_nil_r|]. split; [exact Hal|].
      split; [rewrite <- Hv; exact (slice_app_r (views st) (viewsOf _ buf))|].
      split.
      * rewrite Hv, <- Ha. exact (slice_app_r (accessors st) (accessorsOf _ buf)).
      * rewrite <- Hpr at 1. rewrite list_lookup_middle by reflexivity.
        rewrite Ha. reflexivity.
Qed.

Lemma fold_packMaterial_layout (m : gmap string MeshBuffer) (idx : gmap string Z)
    (rest done : list MaterialDef) (st : PackState) :
  (forall def, In def rest ->
     exists buf, m !! name def = Some buf /\ indices buf <> [] /\ positions buf <> []) ->
  packInv float_le m idx done st ->
  (Z.of_nat (length (concat (map (chunkAt float_le m) (done ++ rest)))) < 2 ^ 64)%Z ->
  (Z.of_nat (length (done ++ rest)) < 2 ^ 60)%Z ->
  packInv float_le m idx (done ++ rest)
    (fold_left (packMaterial float_le m idx) rest st).
Proof using float_le_length.
  revert done st; induction rest as [|mat rest IH]; intros done st Hall Hinv Hb Hd;
    cbn [fold_left].
  - now rewrite app_nil_r.
  - replace (done ++ mat :: rest) with ((done ++ [mat]) ++ rest) in *
      by (rewrite <- app_assoc; reflexivity).
    destruct (Hall mat (or_introl eq_refl)) as (buf & Hm & Hi & Hp).
    apply IH; [intros def Hin; apply Hall; now right | | exact Hb | exact Hd].
    apply (packInv_step m idx done st mat buf Hm Hi Hp Hinv).
    + rewrite map_app, concat_app, length_app in Hb. lia.
    + rewrite !length_app in Hd. lia.
Qed.

(** The bytes of well-formed buffers: 28 per index. *)
Lemma chunks_indexCount (m : gmap string MeshBuffer) (l : list MaterialDef) :
  (forall def, In def l -> exists buf, m !! name def = Some buf /\ trianglesOk buf) ->
  length (concat (map (chunkAt float_le m) l)) = (28 * indexCount m l)%nat.
Proof using float_le_length.
  induction l as [|def l IH]; intros Hall; [reflexivity|].
  cbn [map concat]. rewrite length_app, indexCount_cons, IH
    by (intros d Hd; apply Hall; now right).
  destruct (Hall def (or_introl eq_refl)) as (buf & Hm & Hp & Hn & _).
  unfold chunkAt. rewrite Hm, default_some, chunkOf_length, Hp, Hn. lia.
Qed.

Lemma materials_packable (c : City.t) (def : MaterialDef) :
  In def (SaveGLTF.materials c) ->
  exists buf, SaveGLTF.meshes c !! name def = Some buf /\ meshOk buf /\
              indices buf <> [] /\ positions buf <> [].
Proof using Type.
  rewrite materials_filter. intros Hin. apply List.filter_In in Hin as [_ Hr].
  unfold receivedTriangles in Hr.
  destruct (SaveGLTF.meshes c !! name def) as [buf|] eqn:Hm; [|discriminate Hr].
  exists buf. split; [reflexivity|].
  pose proof (meshes_meshOk c _ _ Hm) as Hok. split; [exact Hok|].
  destruct Hok as ((Hp & _) & _).
  destruct (indices buf) as [|i0 il] eqn:Ei; [discriminate Hr|].
  split; [discriminate|]. intros E. rewrite E in Hp. discriminate Hp.
Qed.

Lemma pack_packInv (c : City.t) :
  (1008 * objBoxCount c < 2 ^ 64)%Z ->
  exists idx,
    indexedBy (SaveGLTF.materials c, idx) /\
    packInv float_le (SaveGLTF.meshes c) idx (SaveGLTF.materials c)
      (pack float_le (SaveGLTF.meshes c)) /\
    Z.of_nat (length (binData (pack float_le (SaveGLTF.meshes c)))) =
      (1008 * objBoxCount c)%Z.
Proof using float_le_length.
  intros Hb. unfold pack, SaveGLTF.materials.
  pose proof (collectMaterials_indexedBy (SaveGLTF.meshes c)) as Hidx.
  pose proof (materials_packable c) as Hpk.
  pose proof (materials_filter c) as Hf.
  unfold SaveGLTF.materials in Hpk, Hf.
  destruct (SaveGLTF.collectMaterials (SaveGLTF.meshes c)) as [mats idx].
  cbn [fst] in Hpk, Hf |- *. exists idx. split; [exact Hidx|].
  assert (Hlen : length (concat (map (chunkAt float_le (SaveGLTF.meshes c)) mats)) =
                 (28 * indexCount (SaveGLTF.meshes c) mats)%nat).
  { apply chunks_indexCount. intros def Hd.
    destruct (Hpk def Hd) as (buf & Hm & (Ht & _) & _). now exists buf. }
  assert (Hcount : Z.of_nat (indexCount (SaveGLTF.meshes c) mats) =
                   (36 * objBoxCount c)%Z)
    by (rewrite Hf, indexCount_filter; apply meshes_indexCount).
  assert (Hinv : packInv float_le (SaveGLTF.meshes c) idx ([] ++ mats)
                   (fold_left (packMaterial float_le (SaveGLTF.meshes c) idx) mats
                      (mkPackState [] [] [] []))).
  { apply fold_packMaterial_layout.
    - intros def Hd. destruct (Hpk def Hd) as (buf & Hm & _ & Hi & Hp). now exists buf.
    - split; [reflexivity|]. repeat (split; [reflexivity|]).
      intros i def Hl. now rewrite lookup_nil in Hl.
    - cbn [app]. rewrite Hlen. lia.
    - cbn [app]. rewrite Hf.
      pose proof (List.filter_length_le
                    (receivedTriangles (SaveGLTF.meshes c)) kMaterialPalette) as Hle.
      cbn [kMaterialPalette length] in Hle. lia. }
  cbn [app] in Hinv. split; [exact Hinv|].
  destruct Hinv as (-> & _). rewrite Hlen. lia.
Qed.

(** X10.  The packed buffer of [saveGLTF]: the arrays of the
    materials, in the order of the material list, laid end to end
    without padding, 1008 bytes per box.  For the [i]-th material the
    views [3i], [3i+1], [3i+2] start at an offset that is a multiple of
    4 and select the bytes of its positions, normals and indices; the
    accessors [3i .. 3i+2] refer to these views, the position accessor
    carries the bounds; the [i]-th primitive refers to these accessors
    and to the material [i] and bears its name. *)
Theorem pack_layout (c : City.t) :
  (1008 * objBoxCount c < 2 ^ 64)%Z ->
  let m := SaveGLTF.meshes c in
  let mats := SaveGLTF.materials c in
  let st := pack float_le m in
  binData st = concat (map (chunkAt float_le m) mats) /\
  Z.of_nat (length (binData st)) = (1008 * objBoxCount c)%Z /\
  length (views st) = (3 * length mats)%nat /\
  length (accessors st) = (3 * length mats)%nat /\
  length (primitives st) = length mats /\
  forall i def, mats !! i = Some def ->
    exists buf o,
      m !! name def = Some buf /\ hasBounds buf = true /\
      (o mod 4 = 0)%Z /\
      firstn 3 (skipn (3 * i) (views st)) = viewsOf o buf /\
      map (viewBytes (binData st)) (viewsOf o buf) =
        [ floatBytes float_le (positions buf);
          floatBytes float_le (normals buf);
          indexBytes (indices buf) ] /\
      firstn 3 (skipn (3 * i) (accessors st)) = accessorsOf (Z.of_nat (3 * i)) buf /\
      primitives st !! i =
        Some (mkMeshPrimitive (Z.of_nat (3 * i)) (Z.of_nat (3 * i) + 1)
                (Z.of_nat (3 * i) + 2) (Z.of_nat i) (name def)).
Proof using float_le_length.
  intros Hb m mats st.
  destruct (pack_packInv c Hb) as (idx & Hidx & (Hbin & Hv & Ha & Hp & Hall) & Hlen).
  fold m mats st in Hbin, Hv, Ha, Hp, Hall, Hlen, Hidx.
  split; [exact Hbin|]. split; [exact Hlen|]. split; [exact Hv|].
  split; [exact Ha|]. split; [exact Hp|].
  intros i def Hl.
  destruct (Hall i def Hl) as (buf & pre & post & Hm & Hpre & Hal & Hvs & Has & Hpr).
  exists buf, (Z.of_nat (length pre)).
  split; [exact Hm|].
  pose proof (meshes_meshOk c _ _ Hm) as (_ & _ & vs & Hne & _ & Hbd).
  split; [destruct Hbd as [[_ E]|[_ (E & _)]]; [contradiction | exact E]|].
  split; [exact Hal|]. split; [exact Hvs|]. split; [|split; [exact Has|]].
  - rewrite Hpre. unfold viewsOf, chunkOf. cbv zeta. cbn [map].
    rewrite <- !app_assoc.
    pose proof (floatBytes_length _ float_le_length (positions buf)) as HP.
    pose proof (floatBytes_length _ float_le_length (normals buf)) as HN.
    pose proof (indexBytes_length (indices buf)) as HI.
    revert HP HN HI.
    generalize (floatBytes float_le (positions buf))
               (floatBytes float_le (normals buf)) (indexBytes (indices buf)).
    intros P N I HP HN HI.
    f_equal; [|f_equal; [|f_equal]].
    + apply viewBytes_mid; lia.
    + rewrite (app_assoc pre P). apply viewBytes_mid; rewrite ?length_app; lia.
    + rewrite (app_assoc pre P), (app_assoc (pre ++ P) N).
      apply viewBytes_mid; rewrite ?length_app; lia.
  - rewrite Hpr. pose proof (Hidx i def Hl) as Hi. cbn [snd] in Hi.
    rewrite Hi. reflexivity.
Qed.

End Layout.

Lemma pack_layout_witness :
  let st := pack fourBytes (SaveGLTF.meshes onePark) in
  Z.of_nat (length (binData st)) = 3024%Z /\
  length (views st) = (3 * length (SaveGLTF.materials onePark))%nat.
Proof.
  assert (H : (1008 * objBoxCount onePark < 2 ^ 64)%Z) by (vm_compute; reflexivity).
  destruct (pack_layout fourBytes (fun _ => eq_refl) onePark H)
    as (_ & Hlen & Hv & _).
  split; [exact Hlen | exact Hv].
Defined.

Section Output.

Variable float_le : R -> list byte.
Hypothesis float_le_length : forall x, length (float_le x) = 4%nat.
Variable composeJson :
  list MaterialDef -> list MeshPrimitive -> list AccessorInfo ->
  list ViewInfo -> Z -> option string -> list byte.

(** X11.  Both output modes carry the packed buffer itself: its
    length is a multiple of 4, so the final alignment adds no byte.
    The sibling file of the text mode is the buffer, the binary chunk
    of the container is the buffer behind its length and type fields,
    and the byte length that the JSON text is composed with is the
    length of that payload, 1008 bytes per box. *)
Theorem gltf_buffer_unpadded (c : City.t) (binName : string) :
  (1008 * objBoxCount c < 2 ^ 64)%Z ->
  let st := pack float_le (SaveGLTF.meshes c) in
  let json (uri : option string) :=
    composeJson (SaveGLTF.materials c) (primitives st) (accessors st) (views st)
      (Z.of_nat (length (binData st))) uri in
  Z.of_nat (length (binData st)) = (1008 * objBoxCount c)%Z /\
  saveGLTF float_le composeJson c binName false =
    GltfPair (binData st) (json (Some binName)) /\
  exists head,
    saveGLTF float_le composeJson c binName true =
    GlbFile (head ++ le32 (uint32_wrap (1008 * objBoxCount c))
               ++ le32 0x004E4942 ++ binData st).
Proof using float_le_length.
  intros Hb st json.
  destruct (pack_packInv float_le float_le_length c Hb) as (idx & _ & (Hbin & _) & Hlen).
  fold st in Hbin, Hlen.
  assert (Hal : align4 (binData st) = binData st).
  { apply align4_aligned.
    destruct (chunks_length float_le float_le_length (SaveGLTF.meshes c)
                (SaveGLTF.materials c)) as [k Hk].
    rewrite Hbin, Hk, Nat2Z.inj_mul, Z.mul_comm. apply Z.mod_mul. lia. }
  split; [exact Hlen|]. split.
  - unfold saveGLTF. cbv zeta. fold st. rewrite Hal. reflexivity.
  - unfold saveGLTF, writeGLB. cbv zeta. fold st. rewrite Hal, Hlen.
    match goal with
    | |- exists head, GlbFile (?a ++ ?b ++ ?c ++ ?d ++ ?e ++ ?f ++ _) = _ =>
        exists (a ++ b ++ c ++ d ++ e ++ f)
    end.
    rewrite <- !app_assoc. reflexivity.
Qed.

End Output.

Lemma gltf_buffer_unpadded_witness :
  exists bin json,
    saveGLTF fourBytes braces onePark "city.bin" false = GltfPair bin json /\
    Z.of_nat (length bin) = 3024%Z.
Proof.
  assert (H : (1008 * objBoxCount onePark < 2 ^ 64)%Z) by (vm_compute; reflexivity).
  destruct (gltf_buffer_unpadded fourBytes (fun _ => eq_refl) braces onePark
              "city.bin" H) as (Hlen & Hpair & _).
  eexists _, _. split; [exact Hpair | exact Hlen].
Defined.

(** ** The boxes of the archetypes *)

Ltac split_reals :=
  repeat match goal with
         | |- context [Rle_dec ?a ?b] => destruct (Rle_dec a b)
         | |- context [Rlt_dec ?a ?b] => destruct (Rlt_dec a b)
         | |- context [Rgt_dec ?a ?b] => destruct (Rgt_dec a b)
         | |- context [Rge_dec ?a ?b] => destruct (Rge_dec a b)
         end.

(** The bounds of every maximum and minimum of the goal. *)
Ltac pose_bounds :=
  repeat match goal with
         | |- context [Rmax ?a ?b] =>
             lazymatch goal with
             | _ : a <= Rmax a b |- _ => fail
             | _ => pose proof (Rmax_l a b); pose proof (Rmax_r a b)
             end
         | |- context [Rmin ?a ?b] =>
             lazymatch goal with
             | _ : Rmin a b <= a |- _ => fail
             | _ => pose proof (Rmin_l a b); pose proof (Rmin_r a b)
             end
         end.

Ltac box_arith :=
  cbn [Rect.x0 Rect.y0 Rect.x1 Rect.y1 fst snd];
  unfold Rect.centreX, Rect.centreY, Rect.width, Rect.height in *;
  pose_bounds; repeat split; lra.

Lemma insetRect_form (r : Rect.t) (k : R) :
  0 <= Rect.width r -> 0 <= Rect.height r -> 0 <= k ->
  exists a,
    0 <= a /\ a <= k /\ a <= 0.49 * Rect.width r /\ a <= 0.49 * Rect.height r /\
    insetRect r k =
      Rect.mk (Rect.x0 r + a) (Rect.y0 r + a) (Rect.x1 r - a) (Rect.y1 r - a).
Proof.
  intros Hw Hh Hk. exists (clamp k 0 (maxInset r)).
  pose proof (clamp_inset_range r Hw Hh k) as [H0 H1].
  pose proof (maxInset_le_width r). pose proof (maxInset_le_height r).
  split; [exact H0|]. split; [|split; [lra|split; [lra|reflexivity]]].
  unfold clamp in *. split_reals; lra.
Qed.

Lemma inset_margin_nonneg (r : Rect.t) (k : R) :
  0 <= Rect.width r -> 0 <= Rect.height r -> 0 <= k ->
  0 <= Rmin (Rect.width r) (Rect.height r) * k.
Proof.
  intros Hw Hh Hk. apply Rmult_le_pos; [apply Rmin_glb|]; assumption.
Qed.

Lemma clamp_planter (side : R) :
  clamp (side * 0.2) 0.2 (side * 0.45) = Rmax 0.2 (side * 0.2).
Proof. unfold clamp, Rmax. split_reals; lra. Qed.

Lemma shiftInside_id (lo hi maxHi : R) :
  hi <= maxHi -> shiftInside lo hi maxHi = (lo, hi).
Proof. intros H. unfold shiftInside. destruct (Rgt_dec hi maxHi); [lra | reflexivity]. Qed.

Lemma school_fits (b : Building.t) :
  0 <= Rect.width (Building.footprint b) ->
  0 <= Rect.height (Building.footprint b) ->
  let fp := Building.footprint b in
  let w := Rect.width fp in
  let h := Rect.height fp in
  let wide := Rgeb w h in
  Rect.x0 fp + w * 0.08 + (if wide then w * 0.45 else w * 0.6)
    <= Rect.x1 fp - w * 0.05 /\
  Rect.y0 fp + h * (if wide then 0.2 else 0.08) + (if wide then h * 0.6 else h * 0.45)
    <= Rect.y1 fp - h * 0.05.
Proof.
  intros Hw Hh fp w h wide. subst w h fp.
  unfold Rect.width, Rect.height in *. destruct wide; split; lra.
Qed.

(** The boxes of a building on a footprint that is not inverted, with
    the insets, the planter size and the school shift worked out. *)
Lemma archetypeBoxes_cases (b : Building.t) :
  0 <= Rect.width (Building.footprint b) ->
  0 <= Rect.height (Building.footprint b) ->
  let fp := Building.footprint b in
  let w := Rect.width fp in
  let h := Rect.height fp in
  let top := IZR (Building.height b) in
  archetypeBoxes b = [] \/
  archetypeBoxes b = [(fp, 0.0, Rmax 1.0 top)] \/
  (exists a,
     0 <= a <= Rmin w h * 0.08 /\ a <= 0.49 * w /\ a <= 0.49 * h /\
     Building.zone b = Green /\
     let lawn := Rect.mk (Rect.x0 fp + a) (Rect.y0 fp + a)
                         (Rect.x1 fp - a) (Rect.y1 fp - a) in
     archetypeBoxes b =
       parkBoxes lawn (Rmax 0.2 (Rmin (Rect.width lawn) (Rect.height lawn) * 0.2))) \/
  (exists a,
     0 <= a /\ a <= 0.49 * w /\ a <= 0.49 * h /\
     archetypeBoxes b =
       [ (Rect.mk (Rect.x0 fp + a) (Rect.y0 fp + a) (Rect.x1 fp - a) (Rect.y1 fp - a),
          0.0, 0.05);
         (Rect.mk (Rect.x0 fp + w * 0.08)
                  (Rect.y0 fp + h * (if Rgeb w h then 0.2 else 0.08))
                  (Rect.x0 fp + w * 0.08 + (if Rgeb w h then w * 0.45 else w * 0.6))
                  (Rect.y0 fp + h * (if Rgeb w h then 0.2 else 0.08)
                   + (if Rgeb w h then h * 0.6 else h * 0.45)),
          0.0, Rmax 2.0 top) ]) \/
  (exists a mainW mainH wingW wingH,
     0 <= a /\ a <= 0.49 * w /\ a <= 0.49 * h /\
     ((mainW = w * 0.7 /\ mainH = h * 0.45 /\ wingW = w * 0.28 /\ wingH = h * 0.85) \/
      (mainW = w * 0.45 /\ mainH = h * 0.7 /\ wingW = w * 0.85 /\ wingH = h * 0.28)) /\
     let podiumTop := Rmax 1.2 (top * 0.25) in
     let mainTop := Rmax (podiumTop + 2.0) top in
     let cx := Rect.centreX fp in
     let cy := Rect.centreY fp in
     archetypeBoxes b =
       [ (Rect.mk (Rect.x0 fp + a) (Rect.y0 fp + a) (Rect.x1 fp - a) (Rect.y1 fp - a),
          0.0, podiumTop);
         (Rect.mk (cx - mainW * 0.5) (cy - mainH * 0.5)
                  (cx + mainW * 0.5) (cy + mainH * 0.5), podiumTop, mainTop);
         (Rect.mk (cx - wingW * 0.5) (cy - wingH * 0.5)
                  (cx + wingW * 0.5) (cy + wingH * 0.5), podiumTop,
          Rmax (podiumTop + 1.2) (mainTop * 0.9)) ]).
Proof.
  intros Hw Hh fp w h top.
  destruct (insetRect_form fp (Rmin w h * 0.08) Hw Hh
              (inset_margin_nonneg fp 0.08 Hw Hh ltac:(lra)))
    as (a8 & H80 & H8k & H8w & H8h & E8).
  destruct (insetRect_form fp (Rmin w h * 0.07) Hw Hh
              (inset_margin_nonneg fp 0.07 Hw Hh ltac:(lra)))
    as (a7 & H70 & H7k & H7w & H7h & E7).
  destruct (school_fits b Hw Hh) as [Hx Hy]. cbv zeta in Hx, Hy.
  fold fp in Hx, Hy. fold w h in Hx, Hy.
  unfold archetypeBoxes. cbv zeta. fold fp. fold w h. fold top.
  rewrite !E8, !E7, clamp_planter, !shiftInside_id by assumption.
  cbn [fst snd].
  destruct (Building.zone b) eqn:Ez; [now left | | | |].
  1-3: destruct (Building.facility b);
       [destruct (Building.facilityType b)|];
       [ right; right; right; right; exists a8;
         destruct (Rgeb w h); do 4 eexists;
         (split; [exact H80|]); (split; [exact H8w|]); (split; [exact H8h|]);
         (split; [|reflexivity]); [left | right]; repeat split
       | right; right; right; left; exists a7; repeat (split; [assumption|]);
         reflexivity
       | right; left; reflexivity ].
  right; right; left. exists a8. split; [split; assumption|].
  split; [assumption|]. split; [assumption|]. split; reflexivity.
Qed.

Lemma archetypeBoxes_Forall_solid (b : Building.t) :
  0 < Rect.width (Building.footprint b) ->
  0 < Rect.height (Building.footprint b) ->
  Forall solid (archetypeBoxes b).
Proof.
  intros Hw Hh.
  destruct (archetypeBoxes_cases b ltac:(lra) ltac:(lra))
    as [E | [E | [(a & Ha & Haw & Hah & _ & E) | [(a & Ha & Haw & Hah & E)
       | (a & mainW & mainH & wingW & wingH & Ha & Haw & Hah & Hwide & E)]]]];
    cbv zeta in E; rewrite E; clear E; unfold parkBoxes.
  - apply List.Forall_nil.
  - repeat (apply List.Forall_cons; [unfold solid; box_arith|]). apply List.Forall_nil.
  - repeat (apply List.Forall_cons; [unfold solid; box_arith|]). apply List.Forall_nil.
  - destruct (Rgeb _ _);
      repeat (apply List.Forall_cons; [unfold solid; box_arith|]); apply List.Forall_nil.
  - destruct Hwide as [(-> & -> & -> & ->) | (-> & -> & -> & ->)];
      repeat (apply List.Forall_cons; [unfold solid; box_arith|]); apply List.Forall_nil.
Qed.

Lemma archetypeBoxes_Forall_inside (b : Building.t) :
  0 <= Rect.width (Building.footprint b) ->
  0 <= Rect.height (Building.footprint b) ->
  (Building.zone b = Green ->
   0.2 <= 0.84 * Rmin (Rect.width (Building.footprint b))
                      (Rect.height (Building.footprint b))) ->
  Forall (insideOf (Building.footprint b)) (archetypeBoxes b).
Proof.
  intros Hw Hh Hg.
  destruct (archetypeBoxes_cases b Hw Hh)
    as [E | [E | [(a & Ha & Haw & Hah & Hz & E) | [(a & Ha & Haw & Hah & E)
       | (a & mainW & mainH & wingW & wingH & Ha & Haw & Hah & Hwide & E)]]]];
    cbv zeta in E; rewrite E; clear E; unfold parkBoxes.
  - apply List.Forall_nil.
  - repeat (apply List.Forall_cons; [unfold insideOf; box_arith|]). apply List.Forall_nil.
  - specialize (Hg Hz).
    set (side := Rmin (Rect.width (Rect.mk _ _ _ _)) (Rect.height (Rect.mk _ _ _ _))).
    assert (Hside : 0.2 <= side).
    { subst side. apply Rmin_glb;
        unfold Rect.width, Rect.height in *;
        cbn [Rect.x0 Rect.y0 Rect.x1 Rect.y1];
        pose proof (Rmin_l (Rect.x1 (Building.footprint b) - Rect.x0 (Building.footprint b))
                           (Rect.y1 (Building.footprint b) - Rect.y0 (Building.footprint b)));
        pose proof (Rmin_r (Rect.x1 (Building.footprint b) - Rect.x0 (Building.footprint b))
                           (Rect.y1 (Building.footprint b) - Rect.y0 (Building.footprint b)));
        lra. }
    assert (Hs : Rmax 0.2 (side * 0.2) <= side) by (apply Rmax_lub; lra).
    assert (Hs0 : 0.2 <= Rmax 0.2 (side * 0.2)) by apply Rmax_l.
    assert (Hsw : side <= Rect.x1 (Building.footprint b) - a
                          - (Rect.x0 (Building.footprint b) + a))
      by (subst side; apply Rmin_l).
    assert (Hsh : side <= Rect.y1 (Building.footprint b) - a
                          - (Rect.y0 (Building.footprint b) + a))
      by (subst side; apply Rmin_r).
    generalize dependent (Rmax 0.2 (side * 0.2)). intros s Hs Hs0.
    clear Hg. unfold Rect.width, Rect.height in *.
    repeat (apply List.Forall_cons;
            [unfold insideOf; cbn [Rect.x0 Rect.y0 Rect.x1 Rect.y1];
             repeat split; lra|]).
    apply List.Forall_nil.
  - destruct (Rgeb _ _);
      repeat (apply List.Forall_cons; [unfold insideOf; box_arith|]);
      apply List.Forall_nil.
  - destruct Hwide as [(-> & -> & -> & ->) | (-> & -> & -> & ->)];
      repeat (apply List.Forall_cons; [unfold insideOf; box_arith|]);
      apply List.Forall_nil.
Qed.

Lemma building_boxes (b : Building.t) :
  (forall m, SaveGLTF.emitBuilding m b =
             fold_left (appendBox (materialForZone (Building.zone b)))
               (archetypeBoxes b) m) /\
  (forall st, List.filter isV (ofs (SaveOBJ.emitBuilding st b)) =
              List.filter isV (ofs st) ++ flat_map boxVertices (archetypeBoxes b)).
Proof.
  split; [intros m; apply SaveGLTF_emitBuilding_boxes
         | intros st; apply SaveOBJ_emitBuilding_vertices].
Qed.

(** X12.  On a footprint of positive width and height every box that
    the two exporters emit for a building has positive extent along
    the three axes and does not reach below the ground: no archetype
    yields a flat or inverted box. *)
Theorem archetype_boxes_solid (b : Building.t) :
  0 < Rect.width (Building.footprint b) ->
  0 < Rect.height (Building.footprint b) ->
  exists boxes,
    (forall m, SaveGLTF.emitBuilding m b =
               fold_left (appendBox (materialForZone (Building.zone b))) boxes m) /\
    (forall st, List.filter isV (ofs (SaveOBJ.emitBuilding st b)) =
                List.filter isV (ofs st) ++ flat_map boxVertices boxes) /\
    Forall solid boxes.
Proof.
  intros Hw Hh. exists (archetypeBoxes b).
  destruct (building_boxes b) as [Hg Ho].
  split; [exact Hg|]. split; [exact Ho|].
  now apply archetypeBoxes_Forall_solid.
Qed.

Lemma archetype_boxes_solid_witness :
  exists boxes,
    (forall m, SaveGLTF.emitBuilding m unitBlock =
               fold_left (appendBox "mat_residential") boxes m) /\
    Forall solid boxes.
Proof.
  assert (Hw : 0 < Rect.width (Building.footprint unitBlock))
    by (unfold unitBlock, Rect.width; cbn; lra).
  assert (Hh : 0 < Rect.height (Building.footprint unitBlock))
    by (unfold unitBlock, Rect.height; cbn; lra).
  destruct (archetype_boxes_solid unitBlock Hw Hh) as (boxes & Hg & _ & Hs).
  exists boxes. split; [exact Hg | exact Hs].
Defined.

(** X13.  On a footprint that is not inverted every box that the two
    exporters emit for a building lies within the footprint and is
    not inverted itself; for a park this needs a lawn at least 0.2
    wide and high (the lawn keeps 84% of the shorter side). *)
Theorem archetype_boxes_inside (b : Building.t) :
  0 <= Rect.width (Building.footprint b) ->
  0 <= Rect.height (Building.footprint b) ->
  (Building.zone b = Green ->
   0.2 <= 0.84 * Rmin (Rect.width (Building.footprint b))
                      (Rect.height (Building.footprint b))) ->
  exists boxes,
    (forall m, SaveGLTF.emitBuilding m b =
               fold_left (appendBox (materialForZone (Building.zone b))) boxes m) /\
    (forall st, List.filter isV (ofs (SaveOBJ.emitBuilding st b)) =
                List.filter isV (ofs st) ++ flat_map boxVertices boxes) /\
    Forall (insideOf (Building.footprint b)) boxes.
Proof.
  intros Hw Hh Hgreen. exists (archetypeBoxes b).
  destruct (building_boxes b) as [Hg Ho].
  split; [exact Hg|]. split; [exact Ho|].
  now apply archetypeBoxes_Forall_inside.
Qed.

Lemma archetype_boxes_inside_witness :
  exists boxes,
    (forall m, SaveGLTF.emitBuilding m unitBlock =
               fold_left (appendBox "mat_residential") boxes m) /\
    Forall (insideOf (Rect.mk 0 0 1 1)) boxes.
Proof.
  assert (Hw : 0 <= Rect.width (Building.footprint unitBlock))
    by (unfold unitBlock, Rect.width; cbn; lra).
  assert (Hh : 0 <= Rect.height (Building.footprint unitBlock))
    by (unfold unitBlock, Rect.height; cbn; lra).
  assert (Hz : Building.zone unitBlock = Green ->
               0.2 <= 0.84 * Rmin (Rect.width (Building.footprint unitBlock))
                                  (Rect.height (Building.footprint unitBlock)))
    by (unfold unitBlock; cbn; discriminate).
  destruct (archetype_boxes_inside unitBlock Hw Hh Hz) as (boxes & Hg & _ & Hs).
  exists boxes. split; [exact Hg | exact Hs].
Defined.


(** X15.  On a footprint that is not inverted the school building is
    never shifted: it starts 8% of the width from the left edge (and
    20% or 8% of the height from the lower edge) and ends before the
    5% margin of the far edges, so both corrections of [emitSchool] are
    dead there, in both exporters. *)
Theorem school_never_shifted (b : Building.t) :
  0 <= Rect.width (Building.footprint b) ->
  0 <= Rect.height (Building.footprint b) ->
  (forall m, SaveGLTF.emitSchool m b =
             fold_left (appendBox (materialForZone (Building.zone b)))
               (schoolBoxes b) m) /\
  (forall st, SaveOBJ.emitSchool st b = fold_left writeBox (schoolBoxes b) st).
Proof.
  intros Hw Hh. destruct (school_fits b Hw Hh) as [Hx Hy]. cbv zeta in Hx, Hy.
  split.
  - intros m. unfold SaveGLTF.emitSchool, schoolBoxes. cbv zeta.
    rewrite !shiftInside_id by assumption. reflexivity.
  - intros st. unfold SaveOBJ.emitSchool, schoolBoxes. cbv zeta.
    rewrite !shiftInside_id by assumption. reflexivity.
Qed.

Lemma school_never_shifted_witness :
  SaveGLTF.emitSchool ∅ unitBlock =
  fold_left (appendBox "mat_residential") (schoolBoxes unitBlock) ∅.
Proof.
  assert (Hw : 0 <= Rect.width (Building.footprint unitBlock))
    by (unfold unitBlock, Rect.width; cbn; lra).
  assert (Hh : 0 <= Rect.height (Building.footprint unitBlock))
    by (unfold unitBlock, Rect.height; cbn; lra).
  exact (proj1 (school_never_shifted unitBlock Hw Hh) ∅).
Defined.

(** ** The box of a road *)

Lemma roadLength_sqr (road : RoadSegment.t) :
  roadLength road * roadLength road =
  (RoadSegment.x2 road - RoadSegment.x1 road) * (RoadSegment.x2 road - RoadSegment.x1 road)
  + (RoadSegment.y2 road - RoadSegment.y1 road) * (RoadSegment.y2 road - RoadSegment.y1 road).
Proof.
  unfold roadLength. cbv zeta. apply sqrt_sqrt.
  pose proof (Rle_0_sqr (RoadSegment.x2 road - RoadSegment.x1 road)).
  pose proof (Rle_0_sqr (RoadSegment.y2 road - RoadSegment.y1 road)).
  unfold Rsqr in *. lra.
Qed.

Lemma roadWidth_pos (t : RoadType) : 0 < roadWidth t.
Proof. destruct t; unfold roadWidth; lra. Qed.

(** The offset of a road that is not skipped: the direction turned by
    a right angle and scaled by [k], half the width over the length. *)
Lemma roadOffset_form (road : RoadSegment.t) :
  ~ roadLength road < 1e-6 ->
  exists k,
    0 < k /\
    k * roadLength road = 0.5 * roadWidth (RoadSegment.type road) /\
    roadOffset road =
      (- (RoadSegment.y2 road - RoadSegment.y1 road) * k,
       (RoadSegment.x2 road - RoadSegment.x1 road) * k).
Proof.
  intros Hlen.
  assert (HL : 0 < roadLength road) by lra.
  pose proof (roadWidth_pos (RoadSegment.type road)) as Hwd.
  exists (1.0 / roadLength road * (0.5 * roadWidth (RoadSegment.type road))).
  split; [|split].
  - apply Rmult_lt_0_compat; [|lra].
    apply Rdiv_lt_0_compat; [lra | exact HL].
  - assert (E : roadLength road * / roadLength road = 1) by (apply Rinv_r; lra).
    unfold Rdiv. generalize dependent (/ roadLength road). intros i E.
    generalize (0.5 * roadWidth (RoadSegment.type road)). intros h.
    replace 1.0 with 1 by lra.
    replace (1 * i * h * roadLength road) with ((roadLength road * i) * h) by ring.
    rewrite E. ring.
  - unfold roadOffset. cbv zeta.
    generalize (1.0 / roadLength road) (0.5 * roadWidth (RoadSegment.type road)).
    intros i h. f_equal; ring.
Qed.

Lemma sqrt_of_square (e a : R) : 0 <= a -> e = a * a -> sqrt e = a.
Proof. intros Ha ->. now apply sqrt_square. Qed.

(** X16.  The base of the box that [saveOBJ] writes for a road that
    is not skipped is a rectangle around the segment: its two short
    sides have the width of the road type and the endpoints of the
    segment as their midpoints, its two long sides have the length of
    the segment, and adjacent sides are perpendicular. *)
Theorem road_quad_rectangle (road : RoadSegment.t) :
  ~ roadLength road < 1e-6 ->
  let q := roadQuad road in
  (forall st, SaveOBJ.emitRoad st road =
              writePrism (SaveOBJ.usemtl st "mat_road") q 0.0 kRoadThickness) /\
  midpoint (base0 q) (base1 q) = roadStart road /\
  midpoint (base3 q) (base2 q) = roadEnd road /\
  dist2 (base0 q) (base1 q) = roadWidth (RoadSegment.type road) /\
  dist2 (base3 q) (base2 q) = roadWidth (RoadSegment.type road) /\
  dist2 (base0 q) (base3 q) = roadLength road /\
  dist2 (base1 q) (base2 q) = roadLength road /\
  (fst (base1 q) - fst (base0 q)) * (fst (base3 q) - fst (base0 q))
  + (snd (base1 q) - snd (base0 q)) * (snd (base3 q) - snd (base0 q)) = 0.
Proof.
  intros Hlen q.
  split; [intros st; now apply SaveOBJ_emitRoad_quad|].
  destruct (roadOffset_form road Hlen) as (k & Hk & HkL & Hoff).
  pose proof (roadLength_sqr road) as HL.
  pose proof (roadWidth_pos (RoadSegment.type road)) as Hwd.
  assert (HL0 : 0 <= roadLength road) by lra.
  subst q. unfold roadQuad. rewrite Hoff.
  cbn [base0 base1 base2 base3]. unfold midpoint, dist2, dist, roadStart, roadEnd.
  cbn [fst snd].
  set (dx := RoadSegment.x2 road - RoadSegment.x1 road) in *.
  set (dy := RoadSegment.y2 road - RoadSegment.y1 road) in *.
  set (L := roadLength road) in *.
  set (wd := roadWidth (RoadSegment.type road)) in *.
  assert (Hw2 : 4 * (k * k) * (dx * dx + dy * dy) = wd * wd).
  { rewrite <- HL.
    replace (4 * (k * k) * (L * L)) with ((2 * (k * L)) * (2 * (k * L))) by ring.
    rewrite HkL. nra. }
  split; [f_equal; lra|]. split; [f_equal; lra|].
  split; [apply sqrt_of_square; [lra | rewrite <- Hw2; ring]|].
  split; [apply sqrt_of_square; [lra | rewrite <- Hw2; ring]|].
  split; [apply sqrt_of_square; [lra | rewrite HL; subst dx dy; ring]|].
  split; [apply sqrt_of_square; [lra | rewrite HL; subst dx dy; ring]|].
  subst dx dy. ring.
Qed.

Lemma roadLength_arterialRoad : roadLength arterialRoad = 10.
Proof.
  unfold roadLength, arterialRoad.
  cbn [RoadSegment.x1 RoadSegment.x2 RoadSegment.y1 RoadSegment.y2].
  replace ((10 - 0) * (10 - 0) + (0 - 0) * (0 - 0)) with (10 * 10) by lra.
  apply sqrt_square. lra.
Qed.

Lemma road_quad_rectangle_witness :
  dist2 (base0 (roadQuad arterialRoad)) (base1 (roadQuad arterialRoad)) = 1.6.
Proof.
  assert (H : ~ roadLength arterialRoad < 1e-6)
    by (rewrite roadLength_arterialRoad; lra).
  exact (proj1 (proj2 (proj2 (proj2 (road_quad_rectangle arterialRoad H))))).
Defined.

Lemma swapIfGt_cases (a b : R) :
  SaveGLTF.swapIfGt a b = (a, b) \/ SaveGLTF.swapIfGt a b = (b, a).
Proof. unfold SaveGLTF.swapIfGt. destruct (Rgt_dec a b); [now right | now left]. Qed.

Ltac pick_corner :=
  solve [left; f_equal; lra] || (right; pick_corner).

(** X17.  For a road that is not skipped the two exporters draw the
    same box exactly when the segment is parallel to an axis: the
    corners of the axis-aligned rectangle of [saveGLTF] are the corners
    of the oriented rectangle of [saveOBJ] if and only if the endpoints
    agree in x or in y. *)
Theorem road_boxes_agree_iff_axis_parallel (road : RoadSegment.t) :
  ~ roadLength road < 1e-6 ->
  (forall m, SaveGLTF.emitRoad m road =
             SaveGLTF.appendTo m "mat_road" (roadRect road) 0.0 kRoadThickness) /\
  (forall st, SaveOBJ.emitRoad st road =
              writePrism (SaveOBJ.usemtl st "mat_road") (roadQuad road)
                0.0 kRoadThickness) /\
  ((forall p, In p (baseCorners (roadQuad road)) <->
              In p (baseCorners (rectBase (roadRect road)))) <->
   (RoadSegment.x1 road = RoadSegment.x2 road \/
    RoadSegment.y1 road = RoadSegment.y2 road)).
Proof.
  intros Hlen.
  split; [intros m; now apply SaveGLTF_emitRoad_rect|].
  split; [intros st; now apply SaveOBJ_emitRoad_quad|].
  destruct (roadOffset_form road Hlen) as (k & Hk & _ & Hoff).
  unfold roadQuad, roadRect. rewrite Hoff.
  set (x1 := RoadSegment.x1 road). set (x2 := RoadSegment.x2 road).
  set (y1 := RoadSegment.y1 road). set (y2 := RoadSegment.y2 road).
  unfold baseCorners, rectBase.
  cbn [base0 base1 base2 base3 Rect.x0 Rect.y0 Rect.x1 Rect.y1].
  destruct (swapIfGt_cases (x1 + - (y2 - y1) * k) (x2 - - (y2 - y1) * k)) as [-> | ->];
    destruct (swapIfGt_cases (y1 + (x2 - x1) * k) (y2 - (x2 - x1) * k)) as [-> | ->];
    cbn [fst snd In];
    (split;
    [ intros Hall;
      destruct (proj1 (Hall (x1 - - (y2 - y1) * k, y1 - (x2 - x1) * k))
                  ltac:(right; left; reflexivity)) as [E|[E|[E|[E|[]]]]];
      injection E as Ex Ey;
      assert (Hcase : (y2 - y1) * k = 0 \/ x1 = x2) by lra;
      (destruct Hcase as [Hz|Hz];
       [ apply Rmult_integral in Hz as [Hz|Hz]; [right; lra | lra]
       | now left ])
    | intros [Hx|Hy]; intros p;
      [ replace x2 with x1 by exact Hx;
        replace ((x1 - x1) * k) with 0 by ring
      | replace y2 with y1 by exact Hy;
        replace (- (y1 - y1) * k) with 0 by ring ];
      (split; intros [<-|[<-|[<-|[<-|[]]]]]; pick_corner) ]).
Qed.

Lemma road_boxes_agree_iff_axis_parallel_witness :
  In (base0 (roadQuad arterialRoad))
     (baseCorners (rectBase (roadRect arterialRoad))).
Proof.
  assert (H : ~ roadLength arterialRoad < 1e-6)
    by (rewrite roadLength_arterialRoad; lra).
  apply (proj2 (proj2 (proj2 (road_boxes_agree_iff_axis_parallel arterialRoad H)))
           (or_intror eq_refl)).
  left. reflexivity.
Defined.

(** ** Paths *)

Lemma freeOf_app (set a b : list ascii) :
  freeOf set (a ++ b) <-> freeOf set a /\ freeOf set b.
Proof. unfold freeOf. apply List.Forall_app. Qed.

Lemma find_last_of_app (set a b : list ascii) :
  find_last_of set (a ++ b) =
  match find_last_of set b with
  | Some i => Some (length a + i)%nat
  | None => find_last_of set a
  end.
Proof.
  induction a as [|c a IH]; cbn [app find_last_of length].
  - destruct (find_last_of set b); reflexivity.
  - rewrite IH. destruct (find_last_of set b) as [i|]; [|reflexivity].
    f_equal.
Qed.

Lemma find_last_of_free (set s : list ascii) :
  freeOf set s -> find_last_of set s = None.
Proof.
  induction 1 as [|c s Hc _ IH]; cbn [find_last_of]; [reflexivity|].
  now rewrite IH, Hc.
Qed.

Lemma find_last_of_None (set s : list ascii) :
  find_last_of set s = None -> freeOf set s.
Proof.
  induction s as [|c s IH]; cbn [find_last_of]; intros H; [constructor|].
  destruct (find_last_of set s); [discriminate|].
  destruct (isOneOf set c) eqn:Ec; [discriminate|].
  constructor; [exact Ec | now apply IH].
Qed.

Lemma find_last_of_Some (set s : list ascii) (i : nat) :
  find_last_of set s = Some i ->
  exists pre c post,
    s = pre ++ c :: post /\ length pre = i /\ isOneOf set c = true /\
    freeOf set post.
Proof.
  revert i; induction s as [|c s IH]; cbn [find_last_of]; intros i H;
    [discriminate|].
  destruct (find_last_of set s) as [j|] eqn:Ej.
  - injection H as <-. destruct (IH j eq_refl) as (pre & c' & post & -> & <- & Hc & Hp).
    exists (c :: pre), c', post. repeat split; assumption.
  - destruct (isOneOf set c) eqn:Ec; [|discriminate]. injection H as <-.
    exists [], c, s. repeat split; [exact Ec | now apply find_last_of_None].
Qed.

Lemma find_last_of_split (set pre post : list ascii) (c : ascii) :
  isOneOf set c = true -> freeOf set post ->
  find_last_of set (pre ++ c :: post) = Some (length pre).
Proof.
  intros Hc Hp. rewrite find_last_of_app. cbn [find_last_of].
  rewrite (find_last_of_free _ _ Hp), Hc. f_equal. lia.
Qed.

Lemma filenameOnly_free (name : list ascii) :
  freeOf separators name -> filenameOnly name = name /\ dirOf name = [].
Proof.
  intros H. unfold dirOf, filenameOnly. rewrite (find_last_of_free _ _ H).
  split; [reflexivity|]. now rewrite Nat.sub_diag.
Qed.

(** What [filenameOnly] and [dirOf] give on a path put together from a
    directory prefix and a name. *)
Lemma filenameOnly_app (dir name : list ascii) :
  isDir dir -> freeOf separators name ->
  filenameOnly (dir ++ name) = name /\ dirOf (dir ++ name) = dir.
Proof.
  intros [-> | (d & c & -> & Hc)] Hn.
  - now apply filenameOnly_free.
  - assert (E : filenameOnly ((d ++ [c]) ++ name) = name).
    { unfold filenameOnly. rewrite <- app_assoc. cbn [app].
      rewrite (find_last_of_split _ d name c Hc Hn).
      rewrite List.skipn_app, List.skipn_all2 by lia.
      replace (length d + 1 - length d)%nat with 1%nat by lia. reflexivity. }
    split; [exact E|]. unfold dirOf. rewrite E, length_app.
    replace (length (d ++ [c]) + length name - length name)%nat
      with (length (d ++ [c])) by lia.
    rewrite List.firstn_app, List.firstn_all, Nat.sub_diag, List.firstn_O.
    apply app_nil_r.
Qed.

(** Every path is a directory prefix followed by a name. *)
Lemma path_split (path : list ascii) :
  exists dir name,
    path = dir ++ name /\ isDir dir /\ freeOf separators name.
Proof.
  destruct (find_last_of separators path) as [i|] eqn:E.
  - destruct (find_last_of_Some _ _ _ E) as (pre & c & post & -> & _ & Hc & Hp).
    exists (pre ++ [c]), post. rewrite <- app_assoc.
    split; [reflexivity|]. split; [right; now exists pre, c | exact Hp].
  - exists [], path. split; [reflexivity|].
    split; [now left | now apply find_last_of_None].
Qed.

(** X18.  [filenameOnly] cuts a path behind its last separator ([/]
    or [\]): the path is the directory part followed by the result,
    the result holds no separator, the directory part is empty or
    ends with a separator, a path without separators is returned
    whole, and a second application changes nothing. *)
Theorem filenameOnly_splits (path : list ascii) :
  path = dirOf path ++ filenameOnly path /\
  freeOf separators (filenameOnly path) /\
  isDir (dirOf path) /\
  (freeOf separators path -> filenameOnly path = path) /\
  filenameOnly (filenameOnly path) = filenameOnly path.
Proof.
  destruct (path_split path) as (dir & name & -> & Hd & Hn).
  destruct (filenameOnly_app dir name Hd Hn) as [-> ->].
  split; [reflexivity|]. split; [exact Hn|]. split; [exact Hd|].
  split; [|now apply filenameOnly_free].
  intros Hfree. apply freeOf_app in Hfree as [Hdir _].
  destruct Hd as [-> | (d & c & -> & Hc)]; [reflexivity|].
  apply freeOf_app in Hdir as [_ Hc']. inversion Hc' as [|? ? Hc'' _]; subst.
  congruence.
Qed.

Lemma isOneOf_dot (c : ascii) : isOneOf [dotChar] c = true -> c = dotChar.
Proof.
  unfold isOneOf. cbn [existsb]. rewrite orb_false_r. apply Ascii.eqb_eq.
Qed.

Lemma separator_not_dot (c : ascii) :
  isOneOf separators c = true -> isOneOf [dotChar] c = false.
Proof.
  unfold isOneOf, separators. cbn [existsb]. rewrite !orb_false_r.
  intros H. apply orb_true_iff in H as [H|H]; apply Ascii.eqb_eq in H; subst c;
    reflexivity.
Qed.

Lemma find_last_of_lt (set s : list ascii) (i : nat) :
  find_last_of set s = Some i -> (i < length s)%nat.
Proof.
  intros H. destruct (find_last_of_Some _ _ _ H) as (pre & c & post & -> & <- & _).
  rewrite length_app. cbn [length]. lia.
Qed.

Lemma freeOf_firstn (set s : list ascii) (n : nat) :
  freeOf set s -> freeOf set (firstn n s).
Proof.
  intros H. rewrite <- (List.firstn_skipn n s) in H.
  now apply freeOf_app in H as [H _].
Qed.

(** [replaceExtension] on a name without separators: the part before
    the last dot, or the whole name, with the new extension. *)
Lemma replaceExtension_name (name ext : list ascii) :
  freeOf separators name ->
  replaceExtension name ext =
  match find_last_of [dotChar] name with
  | Some i => firstn i name
  | None => name
  end ++ ext.
Proof.
  intros Hn. unfold replaceExtension. cbv zeta.
  rewrite (find_last_of_free _ _ Hn). fold dotChar.
  destruct (find_last_of [dotChar] name); [reflexivity|].
  now rewrite List.firstn_all.
Qed.

Lemma replaceExtension_app (dir name ext : list ascii) :
  isDir dir -> freeOf separators name ->
  replaceExtension (dir ++ name) ext = dir ++ replaceExtension name ext.
Proof.
  intros Hd Hn. rewrite (replaceExtension_name name ext Hn).
  destruct Hd as [-> | (d & c & -> & Hc)].
  - cbn [app]. now apply replaceExtension_name.
  - unfold replaceExtension. cbv zeta. fold dotChar.
    assert (Hs : find_last_of separators ((d ++ [c]) ++ name) = Some (length d)).
    { rewrite <- app_assoc. cbn [app]. now apply find_last_of_split. }
    rewrite Hs. rewrite (find_last_of_app [dotChar] (d ++ [c]) name).
    destruct (find_last_of [dotChar] name) as [i|] eqn:Ei.
    + assert (Hlt : (length (d ++ [c]) + i <? length d)%nat = false)
        by (apply Nat.ltb_ge; rewrite length_app; lia).
      rewrite Hlt. rewrite List.firstn_app, List.firstn_all2 by lia.
      replace (length (d ++ [c]) + i - length (d ++ [c]))%nat with i by lia.
      now rewrite <- app_assoc.
    + rewrite (find_last_of_app [dotChar] d [c]). cbn [find_last_of].
      rewrite (separator_not_dot c Hc).
      destruct (find_last_of [dotChar] d) as [j|] eqn:Ej.
      * apply find_last_of_lt in Ej. apply Nat.ltb_lt in Ej. rewrite Ej.
        now rewrite List.firstn_all, <- app_assoc.
      * now rewrite List.firstn_all, <- app_assoc.
Qed.

(** The name that [replaceExtension] makes of a name. *)
Lemma replaceExtension_stem (name ext : list ascii) :
  freeOf separators name ->
  exists stem,
    replaceExtension name ext = stem ++ ext /\
    freeOf separators stem /\
    (name = stem /\ freeOf [dotChar] stem \/
     exists old, name = stem ++ dotChar :: old /\ freeOf [dotChar] old).
Proof.
  intros Hn. rewrite (replaceExtension_name name ext Hn).
  destruct (find_last_of [dotChar] name) as [i|] eqn:Ei.
  - destruct (find_last_of_Some _ _ _ Ei) as (pre & c & post & -> & <- & Hc & Hp).
    apply isOneOf_dot in Hc. subst c.
    rewrite List.firstn_app, List.firstn_all, Nat.sub_diag, List.firstn_O, app_nil_r.
    exists pre. split; [reflexivity|].
    split; [now apply freeOf_app in Hn as [Hn _]|].
    right. now exists post.
  - exists name. split; [reflexivity|]. split; [exact Hn|].
    left. split; [reflexivity | now apply find_last_of_None].
Qed.

(** The new path lies in the directory of the old one. *)
Lemma replaceExtension_in_dir (path ext : list ascii) :
  freeOf separators ext ->
  replaceExtension path ext =
  dirOf path ++ filenameOnly (replaceExtension path ext).
Proof.
  intros He.
  destruct (path_split path) as (dir & name & -> & Hd & Hn).
  destruct (filenameOnly_app dir name Hd Hn) as [_ ->].
  rewrite (replaceExtension_app dir name ext Hd Hn).
  destruct (replaceExtension_stem name ext Hn) as (stem & Enew & Hstem & _).
  assert (Hnew : freeOf separators (replaceExtension name ext))
    by (rewrite Enew; apply freeOf_app; now split).
  now rewrite (proj1 (filenameOnly_app dir _ Hd Hnew)).
Qed.

(** X19.  [replaceExtension] with an extension that holds no separator
    changes the file name only: the directory part of the path stays,
    a dot in the directory part is never taken for the start of the
    extension, and the new name is the old name up to its last dot (or
    the whole name when it has none) followed by the extension.  With
    an extension of the form [.e], [e] free of dots, a second
    application changes nothing. *)
Theorem replaceExtension_keeps_directory (path ext : list ascii) :
  freeOf separators ext ->
  replaceExtension path ext =
    dirOf path ++ replaceExtension (filenameOnly path) ext /\
  filenameOnly (replaceExtension path ext) =
    replaceExtension (filenameOnly path) ext /\
  dirOf (replaceExtension path ext) = dirOf path /\
  (exists stem,
     replaceExtension (filenameOnly path) ext = stem ++ ext /\
     (filenameOnly path = stem /\ freeOf [dotChar] stem \/
      exists old, filenameOnly path = stem ++ dotChar :: old /\
                  freeOf [dotChar] old)) /\
  (forall e, ext = dotChar :: e -> freeOf [dotChar] e ->
     replaceExtension (replaceExtension path ext) ext = replaceExtension path ext).
Proof.
  intros He.
  destruct (path_split path) as (dir & name & -> & Hd & Hn).
  destruct (filenameOnly_app dir name Hd Hn) as [-> ->].
  rewrite (replaceExtension_app dir name ext Hd Hn).
  destruct (replaceExtension_stem name ext Hn) as (stem & Enew & Hstem & Hold).
  assert (Hnew : freeOf separators (replaceExtension name ext))
    by (rewrite Enew; apply freeOf_app; now split).
  destruct (filenameOnly_app dir _ Hd Hnew) as [Ef Edir].
  split; [reflexivity|]. split; [exact Ef|]. split; [exact Edir|].
  split; [exists stem; now split|].
  intros e -> Hfree.
  rewrite (replaceExtension_app dir _ _ Hd Hnew). f_equal.
  rewrite Enew at 1. rewrite replaceExtension_name by (rewrite <- Enew; exact Hnew).
  rewrite (find_last_of_split [dotChar] stem e dotChar eq_refl Hfree).
  rewrite List.firstn_app, List.firstn_all, Nat.sub_diag, List.firstn_O, app_nil_r.
  now rewrite Enew.
Qed.

Lemma replaceExtension_keeps_directory_witness :
  replaceExtension (String.list_ascii_of_string "out.d/city.obj")
                   (String.list_ascii_of_string ".mtl") =
  String.list_ascii_of_string "out.d/city.mtl".
Proof.
  assert (He : freeOf separators (String.list_ascii_of_string ".mtl"))
    by (repeat constructor).
  destruct (replaceExtension_keeps_directory
              (String.list_ascii_of_string "out.d/city.obj") _ He) as (E & _).
  rewrite E. reflexivity.
Defined.

(** ** The material library and its references *)

Lemma usedMaterials_app (a b : list ObjLine) :
  usedMaterials (a ++ b) = usedMaterials a ++ usedMaterials b.
Proof. unfold usedMaterials. apply flat_map_app. Qed.

Lemma usedMaterials_writePrism (st : ObjState) (base : Base) (baseZ topZ : R) :
  usedMaterials (ofs (writePrism st base baseZ topZ)) = usedMaterials (ofs st).
Proof.
  unfold writePrism. cbn [ofs]. rewrite usedMaterials_app.
  cbn [usedMaterials flat_map app]. apply app_nil_r.
Qed.

Lemma usedMaterials_fold_writeBox (boxes : list (Rect.t * R * R)) (st : ObjState) :
  usedMaterials (ofs (fold_left writeBox boxes st)) = usedMaterials (ofs st).
Proof.
  revert st; induction boxes as [|[[r bz] tz] boxes IH]; intros st;
    cbn [fold_left writeBox]; [reflexivity|].
  rewrite IH. apply usedMaterials_writePrism.
Qed.

Lemma usedMaterials_emitBuilding (st : ObjState) (b : Building.t) :
  usedMaterials (ofs (SaveOBJ.emitBuilding st b)) =
  usedMaterials (ofs st) ++ buildingMaterial b.
Proof.
  rewrite SaveOBJ_emitBuilding_boxes. unfold buildingMaterial.
  destruct (Building.zone b); [now rewrite app_nil_r | | | |];
    rewrite usedMaterials_fold_writeBox; unfold SaveOBJ.usemtl; cbn [ofs];
    now rewrite usedMaterials_app.
Qed.

Lemma usedMaterials_emitRoad (st : ObjState) (road : RoadSegment.t) :
  usedMaterials (ofs (SaveOBJ.emitRoad st road)) =
  usedMaterials (ofs st) ++ ["mat_road"].
Proof.
  destruct (Rlt_dec (roadLength road) 1e-6) as [Hd|Hd].
  - destruct (emitRoad_degenerate road st ∅ Hd) as [-> _].
    unfold SaveOBJ.usemtl. cbn [ofs]. now rewrite usedMaterials_app.
  - rewrite SaveOBJ_emitRoad_quad by exact Hd. rewrite usedMaterials_writePrism.
    unfold SaveOBJ.usemtl. cbn [ofs]. now rewrite usedMaterials_app.
Qed.

Lemma usedMaterials_body (hasMtl : bool) (mtlName : string) (c : City.t) :
  usedMaterials (ofs (SaveOBJ.body hasMtl mtlName c)) = usemtlSequence c.
Proof.
  unfold SaveOBJ.body, usemtlSequence. cbv zeta.
  assert (Hb : forall bs st,
             usedMaterials (ofs (fold_left SaveOBJ.emitBuilding bs st)) =
             usedMaterials (ofs st) ++ flat_map buildingMaterial bs).
  { induction bs as [|b bs IH]; intros st; cbn [fold_left flat_map];
      [now rewrite app_nil_r|].
    rewrite IH, usedMaterials_emitBuilding. now rewrite <- app_assoc. }
  assert (Hr : forall rs st,
             usedMaterials (ofs (fold_left SaveOBJ.emitRoad rs st)) =
             usedMaterials (ofs st) ++ map (fun _ => "mat_road") rs).
  { induction rs as [|r rs IH]; intros st; cbn [fold_left map];
      [now rewrite app_nil_r|].
    rewrite IH, usedMaterials_emitRoad. now rewrite <- app_assoc. }
  rewrite Hr, Hb. cbn [ofs]. destruct hasMtl; reflexivity.
Qed.

Lemma aheadBy_writePrism (x : ObjLine) (st1 st2 : ObjState) (base : Base)
    (baseZ topZ : R) :
  aheadBy x st1 st2 ->
  aheadBy x (writePrism st1 base baseZ topZ) (writePrism st2 base baseZ topZ).
Proof.
  intros [Ho Hv]. unfold aheadBy, writePrism. cbn [ofs vertexOffset].
  rewrite Ho, Hv. split; reflexivity.
Qed.

Lemma aheadBy_usemtl (x : ObjLine) (st1 st2 : ObjState) (n : string) :
  aheadBy x st1 st2 -> aheadBy x (SaveOBJ.usemtl st1 n) (SaveOBJ.usemtl st2 n).
Proof.
  intros [Ho Hv]. unfold aheadBy, SaveOBJ.usemtl. cbn [ofs vertexOffset].
  rewrite Ho. split; [reflexivity | exact Hv].
Qed.

Lemma aheadBy_fold_writeBox (x : ObjLine) (boxes : list (Rect.t * R * R))
    (st1 st2 : ObjState) :
  aheadBy x st1 st2 ->
  aheadBy x (fold_left writeBox boxes st1) (fold_left writeBox boxes st2).
Proof.
  revert st1 st2; induction boxes as [|[[r bz] tz] boxes IH]; intros st1 st2 H;
    cbn [fold_left writeBox]; [exact H|].
  apply IH. now apply aheadBy_writePrism.
Qed.

Lemma aheadBy_emitBuilding (x : ObjLine) (st1 st2 : ObjState) (b : Building.t) :
  aheadBy x st1 st2 ->
  aheadBy x (SaveOBJ.emitBuilding st1 b) (SaveOBJ.emitBuilding st2 b).
Proof.
  intros H. rewrite !SaveOBJ_emitBuilding_boxes.
  destruct (Building.zone b); [exact H | | | |];
    now apply aheadBy_fold_writeBox, aheadBy_usemtl.
Qed.

Lemma aheadBy_emitRoad (x : ObjLine) (st1 st2 : ObjState) (road : RoadSegment.t) :
  aheadBy x st1 st2 ->
  aheadBy x (SaveOBJ.emitRoad st1 road) (SaveOBJ.emitRoad st2 road).
Proof.
  intros H. destruct (Rlt_dec (roadLength road) 1e-6) as [Hd|Hd].
  - destruct (emitRoad_degenerate road st1 ∅ Hd) as [-> _].
    destruct (emitRoad_degenerate road st2 ∅ Hd) as [-> _].
    now apply aheadBy_usemtl.
  - rewrite !SaveOBJ_emitRoad_quad by exact Hd.
    now apply aheadBy_writePrism, aheadBy_usemtl.
Qed.

(** The model file with and without the reference to the library. *)
Lemma body_mtllib (mtlName : string) (c : City.t) :
  ofs (SaveOBJ.body true mtlName c) =
  Mtllib mtlName :: ofs (SaveOBJ.body false mtlName c).
Proof.
  unfold SaveOBJ.body. cbv zeta.
  assert (Hb : forall bs st1 st2, aheadBy (Mtllib mtlName) st1 st2 ->
             aheadBy (Mtllib mtlName) (fold_left SaveOBJ.emitBuilding bs st1)
                     (fold_left SaveOBJ.emitBuilding bs st2)).
  { induction bs as [|b bs IH]; intros st1 st2 H; cbn [fold_left]; [exact H|].
    apply IH. now apply aheadBy_emitBuilding. }
  assert (Hr : forall rs st1 st2, aheadBy (Mtllib mtlName) st1 st2 ->
             aheadBy (Mtllib mtlName) (fold_left SaveOBJ.emitRoad rs st1)
                     (fold_left SaveOBJ.emitRoad rs st2)).
  { induction rs as [|r rs IH]; intros st1 st2 H; cbn [fold_left]; [exact H|].
    apply IH. now apply aheadBy_emitRoad. }
  apply Hr, Hb. split; reflexivity.
Qed.

Lemma definedMaterials_writeMaterials (pal : list MaterialDef) (acc : list MtlLine) :
  definedMaterials
    (fold_left
       (fun mtl m =>
          writeMaterial mtl (name m) (mat_r m) (mat_g m) (mat_b m) (ks m) (shininess m))
       pal acc) =
  definedMaterials acc ++ map name pal.
Proof.
  revert acc; induction pal as [|m pal IH]; intros acc; cbn [fold_left map];
    [now rewrite app_nil_r|].
  rewrite IH. unfold writeMaterial, definedMaterials. cbv zeta.
  rewrite flat_map_app. cbn [flat_map app]. now rewrite <- app_assoc.
Qed.

Lemma usemtlSequence_palette (c : City.t) (n : string) :
  In n (usemtlSequence c) ->
  In n (map name kMaterialPalette) /\ n <> "mat_default" /\
  exists def, findMaterialDef n = Some def /\ name def = n.
Proof.
  intros Hin.
  assert (Hn : n = "mat_commercial" \/ n = "mat_residential" \/
               n = "mat_industrial" \/ n = "mat_green" \/ n = "mat_road").
  { unfold usemtlSequence in Hin. apply in_app_or in Hin as [Hin|Hin].
    - apply in_flat_map in Hin as (b & _ & Hb). unfold buildingMaterial in Hb.
      destruct (Building.zone b); cbn [In materialForZone] in Hb;
        try (destruct Hb as [<-|[]]; tauto); destruct Hb.
    - apply in_map_iff in Hin as (r & <- & _). tauto. }
  destruct Hn as [->|[->|[->|[->| ->]]]];
    (split; [cbn; tauto|]); (split; [discriminate|]);
    eexists; split; reflexivity.
Qed.

(** X20.  The two files of [saveOBJ].  When both streams open, the
    model file starts with the [mtllib] line, which names the library
    by its file name; the library lies in the directory of the model
    file and defines the materials of the palette, in order; every
    [usemtl] line of the model - one for each building with a zone,
    then one for each road, skipped or not - names a material that the
    library defines and that [findMaterialDef] finds, never
    [mat_default].  When the library cannot be opened the model is
    the same without its first line, so its [usemtl] lines refer to
    no library; the library is written whether or not the model file
    can be opened. *)
Theorem obj_materials_defined (filename : list ascii) (c : City.t) :
  let files := saveOBJ_files filename true true c in
  exists mtl lines,
    mtlFile files = Some mtl /\
    objFile files =
      Some (Mtllib (String.string_of_list_ascii (filenameOnly (mtlPath files)))
              :: lines) /\
    mtlPath files = dirOf filename ++ filenameOnly (mtlPath files) /\
    definedMaterials mtl = map name kMaterialPalette /\
    usedMaterials lines = usemtlSequence c /\
    (forall n, In n (usedMaterials lines) ->
       In n (definedMaterials mtl) /\ n <> "mat_default" /\
       exists def, findMaterialDef n = Some def /\ name def = n) /\
    objFile (saveOBJ_files filename false true c) = Some lines /\
    mtlFile (saveOBJ_files filename false true c) = None /\
    mtlFile (saveOBJ_files filename true false c) = Some mtl /\
    objFile (saveOBJ_files filename true false c) = None.
Proof.
  intros files. subst files. unfold saveOBJ_files, writeMaterialsFile. cbv zeta.
  cbn [mtlFile objFile mtlPath SaveOBJ.saveOBJ].
  set (mtlName := String.string_of_list_ascii _).
  eexists _, (ofs (SaveOBJ.body false mtlName c)).
  split; [reflexivity|]. split; [now rewrite body_mtllib|].
  assert (He : freeOf separators (String.list_ascii_of_string ".mtl"))
    by (repeat constructor).
  split; [now apply replaceExtension_in_dir|].
  assert (Hdef : definedMaterials
                   (fold_left
                      (fun mtl m =>
                         writeMaterial mtl (name m) (mat_r m) (mat_g m) (mat_b m)
                           (ks m) (shininess m)) kMaterialPalette []) =
                 map name kMaterialPalette)
    by apply definedMaterials_writeMaterials.
  split; [exact Hdef|]. split; [apply usedMaterials_body|].
  split; [|repeat split].
  intros n Hn. rewrite usedMaterials_body in Hn. rewrite Hdef.
  exact (usemtlSequence_palette c n Hn).
Qed.

(** ** The configuration and its parsers *)

(** X21.  [Config::normalize] brings every field into its range
    (population, hospitals, schools and green area not negative, grid
    size at least 10, radius in (0, 1]), leaves a configuration that
    is in range as it is, so that a second call changes nothing, and
    never touches the seed, the transport mode, the output prefix and
    the export format. *)
Theorem normalize_ranges (c : Config.t) :
  let n := Config.normalize c in
  configOk n /\
  (configOk c -> n = c) /\
  Config.normalize n = n /\
  Config.seed n = Config.seed c /\
  Config.transport_mode n = Config.transport_mode c /\
  Config.output_prefix n = Config.output_prefix c /\
  Config.export_format n = Config.export_format c.
Proof.
  assert (Hok : forall c, configOk (Config.normalize c)).
  { intros [sd p g r h s gr t o e]. unfold configOk, Config.normalize.
    cbn [Config.seed Config.population Config.grid_size Config.city_radius
         Config.hospitals Config.schools Config.green_m2_per_capita
         Config.transport_mode Config.output_prefix Config.export_format].
    destruct (Z.ltb_spec p 0), (Z.ltb_spec g 10), (Z.ltb_spec h 0),
      (Z.ltb_spec s 0), (Rle_dec r 0.0), (Rlt_dec gr 0.0);
      repeat match goal with
             | |- context [Rgt_dec ?a ?b] => destruct (Rgt_dec a b)
             end;
      repeat split; try lia; try lra. }
  assert (Hid : forall c, configOk c -> Config.normalize c = c).
  { intros [sd p g r h s gr t o e] (Hp & Hg & Hr & Hh & Hs & Hgr).
    cbn [Config.seed Config.population Config.grid_size Config.city_radius
         Config.hospitals Config.schools Config.green_m2_per_capita] in *.
    unfold Config.normalize.
    cbn [Config.seed Config.population Config.grid_size Config.city_radius
         Config.hospitals Config.schools Config.green_m2_per_capita
         Config.transport_mode Config.output_prefix Config.export_format].
    destruct (Z.ltb_spec p 0), (Z.ltb_spec g 10), (Z.ltb_spec h 0),
      (Z.ltb_spec s 0); try lia.
    destruct (Rle_dec r 0.0); [lra|]. destruct (Rgt_dec r 1.0); [lra|].
    destruct (Rlt_dec gr 0.0); [lra|]. reflexivity. }
  intros n. split; [apply Hok|]. split; [apply Hid|].
  split; [apply Hid, Hok|]. repeat split.
Qed.

Lemma tolower_idem (c : ascii) : tolower (tolower c) = tolower c.
Proof. destruct c as [[] [] [] [] [] [] [] []]; reflexivity. Qed.

Lemma map_tolower_idem (s : list ascii) :
  map tolower (map tolower s) = map tolower s.
Proof.
  rewrite map_map. apply map_ext. intros c. apply tolower_idem.
Qed.

Lemma equals_iff (s : list ascii) (literal : string) :
  equals s literal = true <-> s = chars literal.
Proof.
  unfold equals, chars. rewrite String.eqb_eq. split.
  - intros <-. now rewrite String.list_ascii_of_string_of_list_ascii.
  - intros ->. apply String.string_of_list_ascii_of_string.
Qed.

Lemma equals_dec (l : list ascii) (literal : string) :
  (l = chars literal /\ equals l literal = true) \/
  (l <> chars literal /\ equals l literal = false).
Proof.
  destruct (equals l literal) eqn:E.
  - left. split; [now apply equals_iff | reflexivity].
  - right. split; [|reflexivity]. intros H. apply equals_iff in H. congruence.
Qed.

Ltac literal_clash :=
  match goal with
  | H1 : ?l = chars ?a, H2 : ?l = chars ?b |- _ =>
      rewrite H1 in H2; vm_compute in H2; discriminate H2
  end.

Ltac parser_case :=
  cbn [orb]; repeat split; intros;
  repeat match goal with
         | H : _ \/ _ |- _ => destruct H
         end;
  try discriminate; try contradiction; try literal_clash; try tauto;
  try (match goal with H : inr _ = inr _ |- _ => injection H as <- end; reflexivity).

Lemma exportFormat_cases (s : list ascii) :
  let l := map tolower s in
  (exportFormatFromString s = inl OBJ <-> l = chars "obj") /\
  (exportFormatFromString s = inl GLTF <-> l = chars "gltf") /\
  (exportFormatFromString s = inl GLB <-> l = chars "glb") /\
  (forall what, exportFormatFromString s = inr what ->
     what = chars "Unknown export format: " ++ l).
Proof.
  intros l. unfold exportFormatFromString. cbv zeta. fold l.
  destruct (equals_dec l "obj") as [[E1 ->]|[N1 ->]]; [parser_case|].
  destruct (equals_dec l "gltf") as [[E2 ->]|[N2 ->]]; [parser_case|].
  destruct (equals_dec l "glb") as [[E3 ->]|[N3 ->]]; parser_case.
Qed.

Lemma transportMode_cases (s : list ascii) :
  let l := map tolower s in
  (transportModeFromString s = inl Car <-> l = chars "car") /\
  (transportModeFromString s = inl PublicTransit <->
   l = chars "public" \/ l = chars "public_transit" \/ l = chars "transit") /\
  (transportModeFromString s = inl Walk <->
   l = chars "walk" \/ l = chars "pedestrian") /\
  (forall what, transportModeFromString s = inr what ->
     what = chars "Unknown transport mode: " ++ l).
Proof.
  intros l. unfold transportModeFromString. cbv zeta. fold l.
  destruct (equals_dec l "car") as [[E1 ->]|[N1 ->]]; [parser_case|].
  destruct (equals_dec l "public") as [[E2 ->]|[N2 ->]]; [parser_case|].
  destruct (equals_dec l "public_transit") as [[E3 ->]|[N3 ->]]; [parser_case|].
  destruct (equals_dec l "transit") as [[E4 ->]|[N4 ->]]; [parser_case|].
  destruct (equals_dec l "walk") as [[E5 ->]|[N5 ->]]; [parser_case|].
  destruct (equals_dec l "pedestrian") as [[E6 ->]|[N6 ->]]; parser_case.
Qed.

(** X22.  The two parsers of the configuration fold the case of
    their argument before they compare it: the result for a text is
    the result for its lower-case form.  [exportFormatFromString]
    accepts the lower-case forms [obj], [gltf] and [glb] and nothing
    else; [transportModeFromString] accepts [car]; [public],
    [public_transit], [transit]; [walk], [pedestrian].  The message of
    the exception carries the lower-case form, not the text given. *)
Theorem parsers_fold_case (s : list ascii) :
  let l := map tolower s in
  exportFormatFromString l = exportFormatFromString s /\
  transportModeFromString l = transportModeFromString s /\
  (exportFormatFromString s = inl OBJ <-> l = chars "obj") /\
  (exportFormatFromString s = inl GLTF <-> l = chars "gltf") /\
  (exportFormatFromString s = inl GLB <-> l = chars "glb") /\
  (transportModeFromString s = inl Car <-> l = chars "car") /\
  (transportModeFromString s = inl PublicTransit <->
   l = chars "public" \/ l = chars "public_transit" \/ l = chars "transit") /\
  (transportModeFromString s = inl Walk <->
   l = chars "walk" \/ l = chars "pedestrian") /\
  (forall what, exportFormatFromString s = inr what ->
     what = chars "Unknown export format: " ++ l) /\
  (forall what, transportModeFromString s = inr what ->
     what = chars "Unknown transport mode: " ++ l).
Proof.
  intros l.
  destruct (exportFormat_cases s) as (H1 & H2 & H3 & H4).
  destruct (transportMode_cases s) as (H5 & H6 & H7 & H8).
  split; [unfold exportFormatFromString; cbv zeta; subst l;
          now rewrite map_tolower_idem|].
  split; [unfold transportModeFromString; cbv zeta; subst l;
          now rewrite map_tolower_idem|].
  repeat (split; [assumption|]). assumption.
Qed.

(** ** The command line *)

Lemma starts_with_iff (prefix arg : list ascii) :
  starts_with prefix arg = true <-> exists value, arg = prefix ++ value.
Proof.
  revert arg; induction prefix as [|p prefix IH]; intros arg; cbn [starts_with app].
  - split; [intros _; now exists arg | reflexivity].
  - destruct arg as [|a arg]; [split; [discriminate | intros [v Hv]; discriminate Hv]|].
    rewrite andb_true_iff, Ascii.eqb_eq, IH. split.
    + intros [-> [v ->]]. now exists v.
    + intros [v Hv]. injection Hv as -> ->. split; [reflexivity | now exists v].
Qed.

Lemma parseArg_app (prefix value : list ascii) :
  parseArg (prefix ++ value) prefix = value.
Proof.
  unfold parseArg.
  rewrite (proj2 (starts_with_iff prefix (prefix ++ value))) by now exists value.
  rewrite List.skipn_app, List.skipn_all, Nat.sub_diag, List.skipn_O. reflexivity.
Qed.

Lemma nonempty_parseArg (arg prefix : list ascii) :
  nonempty (parseArg arg prefix) = true -> exists value, arg = prefix ++ value.
Proof.
  unfold parseArg. destruct (starts_with prefix arg) eqn:E; [|discriminate].
  intros _. now apply starts_with_iff.
Qed.

(** X23.  [parseArg] returns what follows the prefix when the
    argument starts with it, and the empty string otherwise; an
    argument that is the prefix itself gives the empty string too, so
    the caller cannot tell an option with an empty value from another
    option. *)
Theorem parseArg_value (arg prefix : list ascii) :
  (forall value, arg = prefix ++ value -> parseArg arg prefix = value) /\
  ((forall value, arg <> prefix ++ value) -> parseArg arg prefix = []) /\
  (parseArg arg prefix <> [] -> arg = prefix ++ parseArg arg prefix) /\
  parseArg prefix prefix = [].
Proof.
  split; [intros value ->; apply parseArg_app|].
  split; [|split].
  - intros Hno. unfold parseArg. destruct (starts_with prefix arg) eqn:E; [|reflexivity].
    apply starts_with_iff in E as [v Hv]. now destruct (Hno v).
  - intros Hne. unfold parseArg in *. destruct (starts_with prefix arg) eqn:E;
      [|contradiction].
    apply starts_with_iff in E as [v ->].
    rewrite List.skipn_app, List.skipn_all, Nat.sub_diag, List.skipn_O. reflexivity.
  - rewrite <- (app_nil_r prefix) at 1. apply parseArg_app.
Qed.

Lemma slash_isDir (outDir : list ascii) : isDir (outDir ++ chars "/").
Proof. right. exists outDir, (Ascii.ascii_of_nat 47). split; reflexivity. Qed.

(** The names that the exporters derive from the paths of [main]. *)
Lemma sidecar_names (outDir : list ascii) :
  replaceExtension (outDir ++ chars "/city.obj") (chars ".mtl") =
    outDir ++ chars "/city.mtl" /\
  filenameOnly (outDir ++ chars "/city.mtl") = chars "city.mtl" /\
  binFilename (outDir ++ chars "/city.gltf") = outDir ++ chars "/city.bin" /\
  bufferUri (outDir ++ chars "/city.gltf") = "city.bin".
Proof.
  pose proof (slash_isDir outDir) as Hd.
  assert (Hobj : freeOf separators (chars "city.obj")) by (repeat constructor).
  assert (Hgltf : freeOf separators (chars "city.gltf")) by (repeat constructor).
  assert (Hmtl : freeOf separators (chars "city.mtl")) by (repeat constructor).
  assert (Hbin : freeOf separators (chars "city.bin")) by (repeat constructor).
  assert (E1 : replaceExtension (outDir ++ chars "/city.obj") (chars ".mtl") =
               outDir ++ chars "/city.mtl").
  { change (chars "/city.obj") with (chars "/" ++ chars "city.obj").
    rewrite app_assoc, (replaceExtension_app _ _ _ Hd Hobj), <- app_assoc.
    reflexivity. }
  assert (E2 : binFilename (outDir ++ chars "/city.gltf") =
               outDir ++ chars "/city.bin").
  { unfold binFilename.
    change (chars "/city.gltf") with (chars "/" ++ chars "city.gltf").
    rewrite app_assoc.
    change (String.list_ascii_of_string ".bin") with (chars ".bin").
    rewrite (replaceExtension_app _ _ _ Hd Hgltf), <- app_assoc. reflexivity. }
  split; [exact E1|]. split; [|split; [exact E2|]].
  - change (chars "/city.mtl") with (chars "/" ++ chars "city.mtl").
    rewrite app_assoc. apply (filenameOnly_app _ _ Hd Hmtl).
  - unfold bufferUri. rewrite E2.
    change (chars "/city.bin") with (chars "/" ++ chars "city.bin").
    rewrite app_assoc, (proj1 (filenameOnly_app _ _ Hd Hbin)). reflexivity.
Qed.

Section CommandLineProperties.

Variable strtoul : list ascii -> Z.
Variable strtol : list ascii -> Z.
Variable strtod : list ascii -> R.

Lemma parseArgs_app (st : Config.t * list ascii) (a b : list (list ascii)) :
  parseArgs strtoul strtol strtod st (a ++ b) =
  match parseArgs strtoul strtol strtod st a with
  | inl st' => parseArgs strtoul strtol strtod st' b
  | inr e => inr e
  end.
Proof using Type.
  revert st; induction a as [|x a IH]; intros st; cbn [app parseArgs]; [reflexivity|].
  destruct (parseStep strtoul strtol strtod st x); [apply IH | reflexivity].
Qed.

(** X24.  An option of the command line given without a value
    ([--output=], [--seed=], ...) is not recognised: once the loop
    reaches it, [main] reports it as an unknown argument and returns
    1, whatever follows. *)
Theorem option_needs_value (key : list ascii) (pre rest : list (list ascii))
    (st st' : Config.t * list ascii) :
  In key knownKeys ->
  parseArgs strtoul strtol strtod st pre = inl st' ->
  parseArgs strtoul strtol strtod st (pre ++ key :: rest) =
  inr (Failure (chars "Unknown argument: " ++ key)).
Proof using Type.
  intros Hkey Hpre. rewrite parseArgs_app, Hpre. cbn [parseArgs].
  destruct st' as [cfg outDir].
  unfold knownKeys in Hkey. cbn [map In] in Hkey.
  repeat (destruct Hkey as [<- | Hkey]; [vm_compute; reflexivity|]).
  destruct Hkey.
Qed.

Lemma parseStep_outDir (cfg cfg' : Config.t) (outDir outDir' arg : list ascii) :
  parseStep strtoul strtol strtod (cfg, outDir) arg = inl (cfg', outDir') ->
  outDir' =
  if nonempty (parseArg arg (chars "--output=")) then parseArg arg (chars "--output=")
  else outDir.
Proof using Type.
  unfold parseStep. intros H.
  repeat match type of H with
         | (if nonempty (parseArg arg (chars "--output=")) then _ else _) = _ =>
             destruct (nonempty (parseArg arg (chars "--output="))) eqn:E;
             [injection H as <- <-; reflexivity|]
         | (if nonempty (parseArg arg ?p) then _ else _) = _ =>
             let E := fresh "E" in
             destruct (nonempty (parseArg arg p)) eqn:E;
             [ apply nonempty_parseArg in E as [v ->];
               repeat match type of H with
                      | match ?x with inl _ => _ | inr _ => _ end = _ =>
                          destruct x; [|discriminate H]
                      end;
               injection H as <- <-; reflexivity
             | ]
         end.
  destruct (_ || _); discriminate H.
Qed.

Lemma parseArgs_outDir (args : list (list ascii)) (cfg cfg' : Config.t)
    (outDir outDir' : list ascii) :
  parseArgs strtoul strtol strtod (cfg, outDir) args = inl (cfg', outDir') ->
  outDir' = outputOf args outDir.
Proof using Type.
  revert cfg outDir; induction args as [|arg args IH]; intros cfg outDir H;
    cbn [parseArgs] in H; unfold outputOf; cbn [fold_left].
  - now injection H as <- <-.
  - destruct (parseStep strtoul strtol strtod (cfg, outDir) arg) as [[cfg1 out1]|e] eqn:E;
      [|discriminate H].
    apply parseStep_outDir in E. rewrite <- E. exact (IH _ _ H).
Qed.


End CommandLineProperties.

Lemma option_needs_value_witness :
  parseArgs (fun _ => 0%Z) (fun _ => 0%Z) (fun _ => 0) (Config.initial, [])
    ([chars "--seed=7"] ++ chars "--output=" :: [chars "--format=glb"]) =
  inr (Failure (chars "Unknown argument: --output=")).
Proof.
  apply (option_needs_value (fun _ => 0%Z) (fun _ => 0%Z) (fun _ => 0)
           (chars "--output=") [chars "--seed=7"] [chars "--format=glb"]
           (Config.initial, [])
           (Config.mk 0 100000 100 0.8 1 5 8.0 Car (chars "city") OBJ, [])).
  - unfold knownKeys. cbn [map In]. do 8 right. left. reflexivity.
  - reflexivity.
Defined.


(** ** The winding of the triangles *)

Lemma dot_scale (k : R) (a b : Vec3.t) : dot (scale k a) b = k * dot a b.
Proof. unfold dot, scale. cbn [Vec3.x Vec3.y Vec3.z]. ring. Qed.

Lemma prismTriangles_winding (r : Rect.t) (baseZ topZ : R)
    (p0 p1 p2 n : Vec3.t) :
  Rect.x0 r < Rect.x1 r -> Rect.y0 r < Rect.y1 r -> baseZ < topZ ->
  In (p0, p1, p2, n) (prismTriangles r baseZ topZ) ->
  exists k, 0 < k /\ windingNormal p0 p1 p2 = scale (- k) n.
Proof.
  intros Hx Hy Hz Ht.
  destruct r as [x0 y0 x1 y1]. cbn [Rect.x0 Rect.y0 Rect.x1 Rect.y1] in *.
  assert (Hxy : 0 < (x1 - x0) * (y1 - y0)) by (apply Rmult_lt_0_compat; lra).
  assert (Hxz : 0 < (x1 - x0) * (topZ - baseZ)) by (apply Rmult_lt_0_compat; lra).
  assert (Hyz : 0 < (y1 - y0) * (topZ - baseZ)) by (apply Rmult_lt_0_compat; lra).
  unfold prismTriangles in Ht. cbn [In Rect.x0 Rect.y0 Rect.x1 Rect.y1] in Ht.
  repeat (destruct Ht as [Ht | Ht];
    [ injection Ht as <- <- <- <-;
      first
        [ exists ((x1 - x0) * (y1 - y0)); split; [exact Hxy|];
          unfold windingNormal, cross, vsub, scale, toGltfCoords;
          cbn [Vec3.x Vec3.y Vec3.z]; f_equal; nra
        | exists ((x1 - x0) * (topZ - baseZ)); split; [exact Hxz|];
          unfold windingNormal, cross, vsub, scale, toGltfCoords;
          cbn [Vec3.x Vec3.y Vec3.z]; f_equal; nra
        | exists ((y1 - y0) * (topZ - baseZ)); split; [exact Hyz|];
          unfold windingNormal, cross, vsub, scale, toGltfCoords;
          cbn [Vec3.x Vec3.y Vec3.z]; f_equal; nra ]
    | ]).
  destruct Ht.
Qed.

(** X26.  Every triangle that [appendRectPrism] appends for a box of
    positive extent lists its corners clockwise about the normal
    stored with it: the normal that the order of the corners gives by
    the right-hand rule is a negative multiple of the stored normal.
    The stored normals point outward, the windings inward. *)
Theorem triangles_wound_against_normals (r : Rect.t) (baseZ topZ : R) :
  Rect.x0 r < Rect.x1 r -> Rect.y0 r < Rect.y1 r -> baseZ < topZ ->
  forall p0 p1 p2 n,
    In (p0, p1, p2, n) (prismTriangles r baseZ topZ) ->
    (exists k, 0 < k /\ windingNormal p0 p1 p2 = scale (- k) n) /\
    outward (centroid (prismCorners r baseZ topZ)) (p0, p1, p2, n) /\
    woundInward (centroid (prismCorners r baseZ topZ)) p0 p1 p2.
Proof.
  intros Hx Hy Hz p0 p1 p2 n Ht.
  destruct (prismTriangles_winding r baseZ topZ p0 p1 p2 n Hx Hy Hz Ht)
    as (k & Hk & E).
  pose proof (prismTriangles_outward r baseZ topZ _ Hx Hy Hz Ht) as Hout.
  split; [now exists k|]. split; [exact Hout|].
  unfold woundInward. rewrite E. unfold outward in Hout.
  cbn [triCorners triNormal snd] in Hout.
  eapply List.Forall_impl; [|exact Hout].
  intros p Hp. cbv beta in Hp |- *. rewrite dot_scale. nra.
Qed.

Lemma triangles_wound_against_normals_witness :
  let r := Rect.mk 0 0 1 1 in
  woundInward (centroid (prismCorners r 0 3))
    (toGltfCoords 0 0 0) (toGltfCoords 1 1 0) (toGltfCoords 1 0 0).
Proof.
  intros r.
  assert (Hx : Rect.x0 r < Rect.x1 r) by (cbn; lra).
  assert (Hy : Rect.y0 r < Rect.y1 r) by (cbn; lra).
  assert (Hz : 0 < 3) by lra.
  apply (triangles_wound_against_normals r 0 3 Hx Hy Hz _ _ _
           (Vec3.mk 0.0 (-1.0) 0.0)).
  left. reflexivity.
Defined.

Lemma vertexList_app (a b : list ObjLine) :
  vertexList (a ++ b) = vertexList a ++ vertexList b.
Proof. unfold vertexList. apply flat_map_app. Qed.

Lemma centroid_boxCorners (r : Rect.t) (baseZ topZ : R) :
  centroid (boxCorners r baseZ topZ) =
  Vec3.mk (Rect.centreX r) (Rect.centreY r) ((baseZ + topZ) * 0.5).
Proof.
  unfold centroid, boxCorners, vadd, Rect.centreX, Rect.centreY.
  cbn [fold_right length Vec3.x Vec3.y Vec3.z].
  replace (INR 8) with 8 by (simpl; lra).
  f_equal; lra.
Qed.

(** The corner that a face record of a new box refers to. *)
Lemma faceCorner_lookup (old box : list Vec3.t) (v k : Z) :
  v = (1 + Z.of_nat (length old))%Z -> (v + 8 < 2 ^ 64)%Z -> (0 <= k < 8)%Z ->
  (old ++ box) !! Z.to_nat (size_t_add v k - 1) = box !! Z.to_nat k.
Proof.
  intros Hv Hb Hk. rewrite size_t_add_small by lia.
  replace (Z.to_nat (v + k - 1)) with (length old + Z.to_nat k)%nat by lia.
  rewrite lookup_app_r by lia. f_equal. lia.
Qed.

Lemma faceCorner_lookup0 (old box : list Vec3.t) (v : Z) :
  v = (1 + Z.of_nat (length old))%Z ->
  (old ++ box) !! Z.to_nat (v - 1) = box !! 0%nat.
Proof.
  intros Hv. replace (Z.to_nat (v - 1)) with (length old + 0)%nat by lia.
  rewrite lookup_app_r by lia. f_equal. lia.
Qed.

Ltac pick_member := solve [left; reflexivity] || (right; pick_member).

(** X27.  Every face record that [writeRectPrism] writes for a box of
    positive extent refers to three of the eight vertices written
    just before it, and lists them clockwise for who looks at the box
    from outside: the normal of the winding points into the box.  The
    text export stores no normals, so a reader derives them from this
    order.  (The vertex counter agrees with the number of vertex lines
    and does not wrap.) *)
Theorem obj_faces_wound_inward (st : ObjState) (r : Rect.t) (baseZ topZ : R) :
  Rect.x0 r < Rect.x1 r -> Rect.y0 r < Rect.y1 r -> baseZ < topZ ->
  vertexOffset st = (1 + Z.of_nat (length (vertexList (ofs st))))%Z ->
  (vertexOffset st + 8 < 2 ^ 64)%Z ->
  let st' := writeRectPrism st r baseZ topZ in
  exists vs fs,
    ofs st' = ofs st ++ vs ++ fs /\
    vertexList vs = boxCorners r baseZ topZ /\
    vertexList fs = [] /\
    length fs = 12%nat /\
    forall f, In f fs ->
      exists a b c,
        faceCorners (vertexList (ofs st')) f = Some (a, b, c) /\
        In a (boxCorners r baseZ topZ) /\ In b (boxCorners r baseZ topZ) /\
        In c (boxCorners r baseZ topZ) /\
        woundInward (centroid (boxCorners r baseZ topZ)) a b c.
Proof.
  intros Hx Hy Hz Hv Hb st'. subst st'.
  unfold writeRectPrism, writePrism. cbv zeta. cbn [ofs].
  match goal with
  | |- exists vs fs, ofs st ++ ?L = _ /\ _ =>
      exists (firstn 8 L), (skipn 8 L)
  end.
  cbn [firstn skipn].
  split; [reflexivity|]. split; [reflexivity|]. split; [reflexivity|].
  split; [reflexivity|].
  set (v := vertexOffset st) in *.
  set (old := vertexList (ofs st)) in *.
  assert (Hall : vertexList
                   (ofs st ++
                    [V (fst (base0 (rectBase r))) (snd (base0 (rectBase r))) baseZ;
                     V (fst (base1 (rectBase r))) (snd (base1 (rectBase r))) baseZ;
                     V (fst (base2 (rectBase r))) (snd (base2 (rectBase r))) baseZ;
                     V (fst (base3 (rectBase r))) (snd (base3 (rectBase r))) baseZ;
                     V (fst (base0 (rectBase r))) (snd (base0 (rectBase r))) topZ;
                     V (fst (base1 (rectBase r))) (snd (base1 (rectBase r))) topZ;
                     V (fst (base2 (rectBase r))) (snd (base2 (rectBase r))) topZ;
                     V (fst (base3 (rectBase r))) (snd (base3 (rectBase r))) topZ;
                     F v (size_t_add v 1) (size_t_add v 2);
                     F v (size_t_add v 2) (size_t_add v 3);
                     F (size_t_add v 4) (size_t_add v 7) (size_t_add v 6);
                     F (size_t_add v 4) (size_t_add v 6) (size_t_add v 5);
                     F v (size_t_add v 4) (size_t_add v 5);
                     F v (size_t_add v 5) (size_t_add v 1);
                     F (size_t_add v 1) (size_t_add v 5) (size_t_add v 6);
                     F (size_t_add v 1) (size_t_add v 6) (size_t_add v 2);
                     F (size_t_add v 2) (size_t_add v 6) (size_t_add v 7);
                     F (size_t_add v 2) (size_t_add v 7) (size_t_add v 3);
                     F (size_t_add v 3) (size_t_add v 7) (size_t_add v 4);
                     F (size_t_add v 3) (size_t_add v 4) v]) =
                 old ++ boxCorners r baseZ topZ).
  { rewrite vertexList_app. reflexivity. }
  rewrite Hall. rewrite centroid_boxCorners.
  destruct r as [x0 y0 x1 y1]. cbn [Rect.x0 Rect.y0 Rect.x1 Rect.y1] in *.
  assert (Hvol : 0 < (x1 - x0) * (y1 - y0) * (topZ - baseZ))
    by (repeat apply Rmult_lt_0_compat; lra).
  intros f Hf. cbn [In] in Hf.
  repeat (destruct Hf as [<- | Hf];
    [ unfold faceCorners;
      rewrite ?(faceCorner_lookup0 old _ v Hv),
              ?(faceCorner_lookup old _ v 1 Hv Hb ltac:(lia)),
              ?(faceCorner_lookup old _ v 2 Hv Hb ltac:(lia)),
              ?(faceCorner_lookup old _ v 3 Hv Hb ltac:(lia)),
              ?(faceCorner_lookup old _ v 4 Hv Hb ltac:(lia)),
              ?(faceCorner_lookup old _ v 5 Hv Hb ltac:(lia)),
              ?(faceCorner_lookup old _ v 6 Hv Hb ltac:(lia)),
              ?(faceCorner_lookup old _ v 7 Hv Hb ltac:(lia));
      eexists _, _, _; split; [reflexivity|];
      split; [pick_member|]; split; [pick_member|]; split; [pick_member|];
      unfold woundInward, windingNormal, cross, vsub, dot, Rect.centreX, Rect.centreY;
      repeat constructor;
      cbn [Vec3.x Vec3.y Vec3.z Rect.x0 Rect.y0 Rect.x1 Rect.y1]; nra
    | ]).
  destruct Hf.
Qed.

Lemma obj_faces_wound_inward_witness :
  exists vs fs,
    ofs (writeRectPrism (mkObjState [] 1) (Rect.mk 0 0 1 1) 0 3) = [] ++ vs ++ fs /\
    vertexList vs = boxCorners (Rect.mk 0 0 1 1) 0 3 /\
    length fs = 12%nat.
Proof.
  assert (Hx : Rect.x0 (Rect.mk 0 0 1 1) < Rect.x1 (Rect.mk 0 0 1 1)) by (cbn; lra).
  assert (Hy : Rect.y0 (Rect.mk 0 0 1 1) < Rect.y1 (Rect.mk 0 0 1 1)) by (cbn; lra).
  assert (Hz : 0 < 3) by lra.
  destruct (obj_faces_wound_inward (mkObjState [] 1) (Rect.mk 0 0 1 1) 0 3
              Hx Hy Hz eq_refl ltac:(cbn; lia))
    as (vs & fs & E & Hvs & _ & Hlen & _).
  exists vs, fs. split; [exact E|]. split; [exact Hvs | exact Hlen].
Defined.

(** ** Coordinates outside the grid *)

(** X28.  [zoneAt] checks no bounds: a column index that runs past
    the right edge of the grid by [x] addresses the cell [x] of the
    next row.  Reading there gives the zone of that cell, and
    assigning there overwrites it. *)
Theorem zoneAt_past_edge (c : City.t) (x y : Z) (z : ZoneType) :
  gridOk c -> inGrid c x (y + 1) -> (0 <= y)%Z ->
  zoneAt c (x + City.size c) y = zoneAt c x (y + 1) /\
  zoneAt_assign c (x + City.size c) y z = zoneAt_assign c x (y + 1) z /\
  exists old, zoneAt c (x + City.size c) y = Some old.
Proof.
  intros Hg Hin Hy0.
  destruct (zoneIndex_inGrid c x (y + 1) Hg Hin) as [E Hr].
  destruct Hg as (H0 & Hs & Hl). destruct Hin as [Hx Hy].
  assert (Ei : zoneIndex c (x + City.size c) y = zoneIndex c x (y + 1)).
  { rewrite E. unfold zoneIndex.
    assert (Hrow : (0 <= y * City.size c < City.size c * City.size c)%Z) by nia.
    rewrite (int_wrap_small (y * City.size c)) by lia.
    rewrite int_wrap_small by nia. rewrite size_t_wrap_small by nia. lia. }
  unfold zoneAt, zoneAt_assign. rewrite Ei. split; [reflexivity|].
  split; [reflexivity|].
  rewrite E. apply lookup_lt_is_Some_2. lia.
Qed.

Lemma zoneAt_past_edge_witness :
  let c := City_ctor 3 in
  zoneAt c (1 + 3) 0 = zoneAt c 1 1.
Proof.
  intros c.
  assert (Hg : gridOk c)
    by (unfold gridOk, c; vm_compute; repeat split; congruence).
  assert (Hin : inGrid c 1 (0 + 1))
    by (unfold inGrid, c; vm_compute; repeat split; congruence).
  exact (proj1 (zoneAt_past_edge c 1 0 ZNone Hg Hin ltac:(lia))).
Defined.

(** ** Materials and the order of the traversal *)

Lemma indicesOf_appendTo (m : gmap string MeshBuffer) (mat n : string)
    (r : Rect.t) (baseZ topZ : R) :
  indicesOf (SaveGLTF.appendTo m mat r baseZ topZ) n =
  (indicesOf m n + (if decide (mat = n) then 36 else 0))%nat.
Proof.
  unfold indicesOf. destruct (decide (mat = n)) as [->|Hne].
  - rewrite appendTo_lookup_eq, default_some.
    destruct (appendRectPrism_sizes (default emptyMeshBuffer (m !! n)) r baseZ topZ)
      as (_ & _ & Hi). cbv zeta in Hi. rewrite Hi. lia.
  - rewrite appendTo_lookup_ne by exact Hne. lia.
Qed.

Lemma indicesOf_fold_appendBox (mat n : string) (boxes : list (Rect.t * R * R))
    (m : gmap string MeshBuffer) :
  indicesOf (fold_left (appendBox mat) boxes m) n =
  (indicesOf m n
   + 36 * length (if decide (mat = n) then boxes else []))%nat.
Proof.
  revert m; induction boxes as [|[[r bz] tz] boxes IH]; intros m;
    cbn [fold_left appendBox].
  - destruct (decide (mat = n)); cbn [length]; lia.
  - rewrite IH, indicesOf_appendTo. destruct (decide (mat = n)); cbn [length]; lia.
Qed.

Lemma indicesOf_meshes (c : City.t) (n : string) :
  indicesOf (SaveGLTF.meshes c) n = (36 * boxesOf n c)%nat.
Proof.
  unfold SaveGLTF.meshes, boxesOf.
  assert (Hb : forall bs (m : gmap string MeshBuffer),
             indicesOf (fold_left SaveGLTF.emitBuilding bs m) n =
             (indicesOf m n
              + 36 * length
                       (flat_map
                          (fun b =>
                             if decide (materialForZone (Building.zone b) = n)
                             then archetypeBoxes b else []) bs))%nat).
  { induction bs as [|b bs IH]; intros m; cbn [fold_left flat_map length]; [lia|].
    rewrite IH, SaveGLTF_emitBuilding_boxes, indicesOf_fold_appendBox, length_app.
    lia. }
  assert (Hr : forall rs (m : gmap string MeshBuffer),
             indicesOf (fold_left SaveGLTF.emitRoad rs m) n =
             (indicesOf m n
              + (if decide (n = "mat_road")
                 then 36 * length (flat_map roadBoxes rs) else 0))%nat).
  { induction rs as [|r rs IH]; intros m; cbn [fold_left flat_map length].
    - destruct (decide (n = "mat_road")); lia.
    - rewrite IH. unfold roadBoxes at 2.
      destruct (Rlt_dec (roadLength r) 1e-6) as [Hd|Hd].
      + destruct (emitRoad_degenerate r (mkObjState [] 1) m Hd) as [_ ->].
        cbn [app]. reflexivity.
      + rewrite SaveGLTF_emitRoad_rect by exact Hd. rewrite indicesOf_appendTo.
        rewrite length_app. cbn [length].
        destruct (decide (n = "mat_road")) as [->|Hne].
        * rewrite decide_True by reflexivity. lia.
        * rewrite decide_False by congruence. lia. }
  rewrite Hr, Hb.
  assert (H0 : indicesOf (∅ : gmap string MeshBuffer) n = 0%nat)
    by (unfold indicesOf; now rewrite lookup_empty).
  rewrite H0. destruct (decide (n = "mat_road")); lia.
Qed.

Lemma receivedTriangles_boxesOf (c : City.t) (def : MaterialDef) :
  receivedTriangles (SaveGLTF.meshes c) def = (0 <? boxesOf (name def) c)%nat.
Proof.
  pose proof (indicesOf_meshes c (name def)) as H.
  unfold receivedTriangles, indicesOf in *.
  destruct (SaveGLTF.meshes c !! name def) as [buf|].
  - rewrite default_some in H. destruct (indices buf); cbn [length] in H.
    + symmetry. apply Nat.ltb_ge. lia.
    + symmetry. apply Nat.ltb_lt. lia.
  - cbn in H. symmetry. apply Nat.ltb_ge. lia.
Qed.

Lemma boxesOf_Permutation (c c' : City.t) (n : string) :
  Permutation (City.buildings c) (City.buildings c') ->
  Permutation (City.roads c) (City.roads c') ->
  boxesOf n c' = boxesOf n c.
Proof.
  intros Hb Hr. unfold boxesOf.
  rewrite (Permutation_length (Permutation_flat_map _ Hb)).
  rewrite (Permutation_length (Permutation_flat_map roadBoxes Hr)).
  reflexivity.
Qed.

(** X29.  The materials of the binary export do not depend on the
    order of the traversal: the buffer of a material holds 36 indices
    for each box that the buildings of its zone and, for [mat_road],
    the roads give it; the material list is the palette restricted to
    the materials with at least one box; so two cities whose buildings
    and roads are the same up to their order get the same material
    list, hence the same material indices, and buffers of the same
    size. *)
Theorem materials_order_independent (c c' : City.t) :
  Permutation (City.buildings c) (City.buildings c') ->
  Permutation (City.roads c) (City.roads c') ->
  SaveGLTF.materials c' = SaveGLTF.materials c /\
  SaveGLTF.materials c =
    List.filter (fun def => (0 <? boxesOf (name def) c)%nat) kMaterialPalette /\
  forall n,
    indicesOf (SaveGLTF.meshes c) n = (36 * boxesOf n c)%nat /\
    indicesOf (SaveGLTF.meshes c') n = indicesOf (SaveGLTF.meshes c) n.
Proof.
  intros Hb Hr.
  assert (Hf : forall d : City.t,
             SaveGLTF.materials d =
             List.filter (fun def => (0 <? boxesOf (name def) d)%nat) kMaterialPalette).
  { intros d. rewrite materials_filter. apply List.filter_ext.
    intros def. apply receivedTriangles_boxesOf. }
  split; [|split; [apply Hf|]].
  - rewrite !Hf. apply List.filter_ext. intros def.
    now rewrite (boxesOf_Permutation c c' _ Hb Hr).
  - intros n. split; [apply indicesOf_meshes|].
    rewrite !indicesOf_meshes. now rewrite (boxesOf_Permutation c c' _ Hb Hr).
Qed.

Lemma materials_order_independent_witness :
  let park := Building.mk (Rect.mk 0 0 2 2) Green 0 false Facility.Hospital in
  let c := City.mk 2 [] [unitBlock; park] [] [] [] in
  let c' := City.mk 2 [] [park; unitBlock] [] [] [] in
  SaveGLTF.materials c' = SaveGLTF.materials c.
Proof.
  intros park c c'.
  assert (Hb : Permutation (City.buildings c) (City.buildings c'))
    by (cbn [City.buildings c c']; apply perm_swap).
  assert (Hr : Permutation (City.roads c) (City.roads c'))
    by (cbn [City.roads c c']; apply Permutation_refl).
  exact (proj1 (materials_order_independent c c' Hb Hr)).
Defined.
